(** * Reliable messaging layer: circuits, wire header and dispatcher

    Shallow embedding of
    - [phase2-sources/cpp/secondlife/llcircuit.cpp]
      (classes [LLCircuitData] and [LLCircuit]) and
    - [phase2-sources/cpp/secondlife/message.cpp] (class [LLMessageSystem]).

    Conventions.
    - [U32], [U8] and [S32] values are integers in [Z]; every C++ operation
      that can leave the range is followed by its wrap-around ([wrap32],
      [wrap8], [to_S32]).
    - A [std::chrono::steady_clock::time_point] is the number of clock ticks
      since the epoch, in [Z]; every public operation takes the clock reading
      [now] it observes as an argument.
    - [F32] arithmetic and the [LLThrottleGroup] class (its header is not part
      of the sources) are parameters, collected in the class [Platform].
    - [std::map] is a key-sorted association list (iteration order matters for
      the retry queue), [std::unordered_map] and the read-only template
      indices are [gmap]s, [std::queue] and [std::vector] are lists.
    - Handlers are opaque callbacks: a handler is identified by a number and a
      dispatch reports the list of handlers it invoked, in order. *)

From Stdlib Require Import ZArith QArith Lia.
From stdpp Require Import base gmap strings list fin_maps.

Local Open Scope Z_scope.

(** ** Machine integers *)

Definition wrap32 (x : Z) : Z := x mod 2 ^ 32.
Definition wrap8 (x : Z) : Z := x mod 2 ^ 8.

(** Conversion to [S32] (two's complement). *)
Definition to_S32 (x : Z) : Z := (x + 2 ^ 31) mod 2 ^ 32 - 2 ^ 31.

(** Unsigned division; [None] where C++ leaves [a / 0] undefined. *)
Definition u32_div (a b : Z) : option Z :=
  if b =? 0 then None else Some (a / b).

(** ** Hosts *)

(** Modelled from the spec: [llhost.h] is not among the sources.  "A value
    consisting of an address and a port.  Value semantics; used as a key." *)
Definition LLHost : Type := string * Z.

(** ** Platform parameters *)

Class Platform := {
  (** single precision floats *)
  F32 : Type;
  f32_of_Z : Z → F32;
  f32_0_95 : F32;
  f32_0_05 : F32;
  f32_eqb : F32 → F32 → bool;
  f32_add : F32 → F32 → F32;
  f32_mul : F32 → F32 → F32;
  (** [std::chrono::duration<float>(d).count()] for a tick count [d] *)
  f32_seconds : Z → F32;
  (** [d > std::chrono::duration<float>(s)] for a tick count [d] *)
  duration_gt : Z → F32 → bool;
  (** ticks of [steady_clock] per second *)
  ticks_per_second : Z;
  (** [LLThrottleGroup] of [llthrottle.h] *)
  LLThrottleGroup : Type;
  throttle_new : LLThrottleGroup;
  resetDynamicAdjust : LLThrottleGroup → LLThrottleGroup;
  updateAverage : Z → LLThrottleGroup → LLThrottleGroup;
  checkOverflow : LLThrottleGroup → LLHost → Z → bool * LLThrottleGroup;
}.

(** Conversion to [size_t] (64 bits). *)
Definition wrap64 (x : Z) : Z := x mod 2 ^ 64.

(** The [F32] operations that only the statistics of [getGlobalStats]
    use. *)
Class StatsPlatform (P : Platform) := {
  (** [a > b] *)
  f32_gtb : F32 → F32 → bool;
  (** [a / b] *)
  f32_div : F32 → F32 → F32;
}.

(** ** Packet buffers *)

Module LLPacketBuffer.

(** Modelled from the spec: [llpacketbuffer.h] is not among the sources.
    "Owns a contiguous byte region plus metadata: assigned sequence number,
    send timestamp, retry count (initially 0)."  The retry count is taken to
    be a [U32] like the other counters of the layer. *)
Record t := mk {
  mData : list Z;
  mSequence : Z;
  mSentTime : Z;
  mRetryCount : Z;
}.

Definition of_bytes (data : list Z) : t :=
  {| mData := data; mSequence := 0; mSentTime := 0; mRetryCount := 0 |}.

Definition setSequence (s : Z) (p : t) : t :=
  {| mData := mData p; mSequence := s;
     mSentTime := mSentTime p; mRetryCount := mRetryCount p |}.

Definition setSentTime (now : Z) (p : t) : t :=
  {| mData := mData p; mSequence := mSequence p;
     mSentTime := now; mRetryCount := mRetryCount p |}.

Definition getSentTime (p : t) : Z := mSentTime p.
Definition getRetryCount (p : t) : Z := mRetryCount p.

Definition incrementRetryCount (p : t) : t :=
  {| mData := mData p; mSequence := mSequence p;
     mSentTime := mSentTime p; mRetryCount := wrap32 (mRetryCount p + 1) |}.

End LLPacketBuffer.

(** ** [std::map<U32, V>] as a key-sorted association list *)

Module SeqMap.
Section SeqMap.
Context {V : Type}.

Definition t := list (Z * V).

Fixpoint find (k : Z) (m : list (Z * V)) : option V :=
  match m with
  | [] => None
  | (k', v) :: m' => if k' =? k then Some v else find k m'
  end.

(** [m[k] = v]: overwrite an existing entry, otherwise insert in key order *)
Fixpoint insert (k : Z) (v : V) (m : list (Z * V)) : list (Z * V) :=
  match m with
  | [] => [(k, v)]
  | (k', v') :: m' =>
      if k <? k' then (k, v) :: (k', v') :: m'
      else if k =? k' then (k, v) :: m'
      else (k', v') :: insert k v m'
  end.

Fixpoint erase (k : Z) (m : list (Z * V)) : list (Z * V) :=
  match m with
  | [] => []
  | (k', v) :: m' => if k' =? k then m' else (k', v) :: erase k m'
  end.

Definition size (m : list (Z * V)) : Z := Z.of_nat (length m).

Definition keys (m : list (Z * V)) : list Z := map fst m.

(** strictly ascending keys: the representation invariant of [std::map] *)
Fixpoint sorted_from (lo : Z) (m : list (Z * V)) : Prop :=
  match m with
  | [] => True
  | (k, _) :: m' => lo < k ∧ sorted_from k m'
  end.

Definition sorted (m : list (Z * V)) : Prop :=
  match m with
  | [] => True
  | (k, _) :: m' => sorted_from k m'
  end.
End SeqMap.
Arguments t : clear implicits.
End SeqMap.

(** ** Per-peer circuit state: [class LLCircuitData] *)

(** The C++ method [checkPacketInID] returns [void]; the tag records which of
    its three branches ran. *)
Inductive Classification :=
  | InOrderAfterGap        (* id > mNextIncomingSequence: "Missing packets" *)
  | InOrder                (* id == mNextIncomingSequence *)
  | DuplicateOrReordered.  (* "duplicate or out-of-order packet" *)

Module LLCircuitData.
Section LLCircuitData.
Context {P : Platform}.

Record t := mk {
  mHost : LLHost;
  mAlive : bool;
  mBlocked : bool;
  mPacketsOut : Z;
  mPacketsIn : Z;
  mPacketsLost : Z;
  mPacketLoss : Z;
  mLastReceiveTime : Z;
  mLastSendTime : Z;
  mPingDelay : F32;
  mPingDelayAveraged : F32;
  mNextOutgoingSequence : Z;
  mNextIncomingSequence : Z;
  mOldestUnackedPacket : Z;
  mUnackedPackets : SeqMap.t LLPacketBuffer.t;
  mRetryQueue : list LLPacketBuffer.t;
  mThrottles : LLThrottleGroup;
}.

(** constructor [LLCircuitData(const LLHost&)] *)
Definition new (now : Z) (host : LLHost) : t :=
  {| mHost := host; mAlive := true; mBlocked := false;
     mPacketsOut := 0; mPacketsIn := 0; mPacketsLost := 0; mPacketLoss := 0;
     mLastReceiveTime := now; mLastSendTime := now;
     mPingDelay := f32_of_Z 0; mPingDelayAveraged := f32_of_Z 0;
     mNextOutgoingSequence := 0; mNextIncomingSequence := 0;
     mOldestUnackedPacket := 0;
     mUnackedPackets := []; mRetryQueue := [];
     mThrottles := resetDynamicAdjust throttle_new |}.

(** the three branches on [id] of [checkPacketInID], after [mPacketsIn++] *)
Definition classify_update (now id : Z) (c : t) : Classification * t :=
  let pin := wrap32 (mPacketsIn c + 1) in
  if mNextIncomingSequence c <? id then
    let missing := wrap32 (id - mNextIncomingSequence c) in
    (InOrderAfterGap,
     {| mHost := mHost c; mAlive := mAlive c; mBlocked := mBlocked c;
        mPacketsOut := mPacketsOut c; mPacketsIn := pin;
        mPacketsLost := wrap32 (mPacketsLost c + missing);
        mPacketLoss := mPacketLoss c;
        mLastReceiveTime := now; mLastSendTime := mLastSendTime c;
        mPingDelay := mPingDelay c;
        mPingDelayAveraged := mPingDelayAveraged c;
        mNextOutgoingSequence := mNextOutgoingSequence c;
        mNextIncomingSequence := wrap32 (id + 1);
        mOldestUnackedPacket := mOldestUnackedPacket c;
        mUnackedPackets := mUnackedPackets c;
        mRetryQueue := mRetryQueue c; mThrottles := mThrottles c |})
  else if id =? mNextIncomingSequence c then
    (InOrder,
     {| mHost := mHost c; mAlive := mAlive c; mBlocked := mBlocked c;
        mPacketsOut := mPacketsOut c; mPacketsIn := pin;
        mPacketsLost := mPacketsLost c;
        mPacketLoss := mPacketLoss c;
        mLastReceiveTime := now; mLastSendTime := mLastSendTime c;
        mPingDelay := mPingDelay c;
        mPingDelayAveraged := mPingDelayAveraged c;
        mNextOutgoingSequence := mNextOutgoingSequence c;
        mNextIncomingSequence := wrap32 (mNextIncomingSequence c + 1);
        mOldestUnackedPacket := mOldestUnackedPacket c;
        mUnackedPackets := mUnackedPackets c;
        mRetryQueue := mRetryQueue c; mThrottles := mThrottles c |})
  else
    (DuplicateOrReordered,
     {| mHost := mHost c; mAlive := mAlive c; mBlocked := mBlocked c;
        mPacketsOut := mPacketsOut c; mPacketsIn := pin;
        mPacketsLost := mPacketsLost c;
        mPacketLoss := mPacketLoss c;
        mLastReceiveTime := now; mLastSendTime := mLastSendTime c;
        mPingDelay := mPingDelay c;
        mPingDelayAveraged := mPingDelayAveraged c;
        mNextOutgoingSequence := mNextOutgoingSequence c;
        mNextIncomingSequence := mNextIncomingSequence c;
        mOldestUnackedPacket := mOldestUnackedPacket c;
        mUnackedPackets := mUnackedPackets c;
        mRetryQueue := mRetryQueue c; mThrottles := mThrottles c |}).

Definition set_mPacketLoss (v : Z) (c : t) : t :=
  {| mHost := mHost c; mAlive := mAlive c; mBlocked := mBlocked c;
     mPacketsOut := mPacketsOut c; mPacketsIn := mPacketsIn c;
     mPacketsLost := mPacketsLost c; mPacketLoss := v;
     mLastReceiveTime := mLastReceiveTime c;
     mLastSendTime := mLastSendTime c;
     mPingDelay := mPingDelay c;
     mPingDelayAveraged := mPingDelayAveraged c;
     mNextOutgoingSequence := mNextOutgoingSequence c;
     mNextIncomingSequence := mNextIncomingSequence c;
     mOldestUnackedPacket := mOldestUnackedPacket c;
     mUnackedPackets := mUnackedPackets c;
     mRetryQueue := mRetryQueue c; mThrottles := mThrottles c |}.

(** [void checkPacketInID(U32 id, bool receive_resent)].  The result is
    [None] when the loss percentage divides by zero, which happens when
    [mPacketsIn + mPacketsLost] wraps to [0] while [mPacketsIn > 0]. *)
Definition checkPacketInID (now id : Z) (receive_resent : bool) (c : t)
  : option (Classification * t) :=
  let '(cl, c') := classify_update now id c in
  if 0 <? mPacketsIn c' then
    match u32_div (wrap32 (mPacketsLost c' * 100))
                  (wrap32 (mPacketsIn c' + mPacketsLost c')) with
    | Some q => Some (cl, set_mPacketLoss q c')
    | None => None
    end
  else Some (cl, c').

(** [U32 nextPacketOutID()] *)
Definition nextPacketOutID (now : Z) (c : t) : Z * t :=
  (mNextOutgoingSequence c,
   {| mHost := mHost c; mAlive := mAlive c; mBlocked := mBlocked c;
      mPacketsOut := wrap32 (mPacketsOut c + 1);
      mPacketsIn := mPacketsIn c;
      mPacketsLost := mPacketsLost c; mPacketLoss := mPacketLoss c;
      mLastReceiveTime := mLastReceiveTime c;
      mLastSendTime := now;
      mPingDelay := mPingDelay c;
      mPingDelayAveraged := mPingDelayAveraged c;
      mNextOutgoingSequence := wrap32 (mNextOutgoingSequence c + 1);
      mNextIncomingSequence := mNextIncomingSequence c;
      mOldestUnackedPacket := mOldestUnackedPacket c;
      mUnackedPackets := mUnackedPackets c;
      mRetryQueue := mRetryQueue c; mThrottles := mThrottles c |}).

(** [void addReliablePacket(U32 packet_id, LLPacketBuffer* packet)];
    [None] is the null pointer. *)
Definition addReliablePacket (now packet_id : Z)
    (packet : option LLPacketBuffer.t) (c : t) : t :=
  match packet with
  | None => c
  | Some p =>
      let buffer :=
        LLPacketBuffer.setSentTime now
          (LLPacketBuffer.setSequence packet_id p) in
      let unacked := SeqMap.insert packet_id buffer (mUnackedPackets c) in
      {| mHost := mHost c; mAlive := mAlive c; mBlocked := mBlocked c;
         mPacketsOut := mPacketsOut c; mPacketsIn := mPacketsIn c;
         mPacketsLost := mPacketsLost c; mPacketLoss := mPacketLoss c;
         mLastReceiveTime := mLastReceiveTime c;
         mLastSendTime := mLastSendTime c;
         mPingDelay := mPingDelay c;
         mPingDelayAveraged := mPingDelayAveraged c;
         mNextOutgoingSequence := mNextOutgoingSequence c;
         mNextIncomingSequence := mNextIncomingSequence c;
         mOldestUnackedPacket :=
           if SeqMap.size unacked =? 1 then packet_id
           else mOldestUnackedPacket c;
         mUnackedPackets := unacked;
         mRetryQueue := mRetryQueue c; mThrottles := mThrottles c |}
  end.

(** [void ackReliablePacket(U32 packet_id)] *)
Definition ackReliablePacket (now packet_id : Z) (c : t) : t :=
  match SeqMap.find packet_id (mUnackedPackets c) with
  | None => c
  | Some p =>
      let ping := f32_seconds (now - LLPacketBuffer.getSentTime p) in
      let unacked := SeqMap.erase packet_id (mUnackedPackets c) in
      {| mHost := mHost c; mAlive := mAlive c; mBlocked := mBlocked c;
         mPacketsOut := mPacketsOut c; mPacketsIn := mPacketsIn c;
         mPacketsLost := mPacketsLost c; mPacketLoss := mPacketLoss c;
         mLastReceiveTime := mLastReceiveTime c;
         mLastSendTime := mLastSendTime c;
         mPingDelay := ping;
         mPingDelayAveraged :=
           if f32_eqb (mPingDelayAveraged c) (f32_of_Z 0) then ping
           else f32_add (f32_mul (mPingDelayAveraged c) f32_0_95)
                        (f32_mul ping f32_0_05);
         mNextOutgoingSequence := mNextOutgoingSequence c;
         mNextIncomingSequence := mNextIncomingSequence c;
         mOldestUnackedPacket :=
           match unacked with
           | (k, _) :: _ => k
           | [] => mOldestUnackedPacket c
           end;
         mUnackedPackets := unacked;
         mRetryQueue := mRetryQueue c; mThrottles := mThrottles c |}
  end.

(** The [for] loop of [checkForTimeouts] over the unacked map, in key
    order, threading the retry queue and [mPacketsLost]; the first
    component is what stays in the map. *)
Fixpoint sweep (now : Z) (timeout_seconds : F32)
    (entries : list (Z * LLPacketBuffer.t))
    (queue : list LLPacketBuffer.t) (lost : Z)
  : list (Z * LLPacketBuffer.t) * list LLPacketBuffer.t * Z :=
  match entries with
  | [] => ([], queue, lost)
  | (k, packet) :: rest =>
      if duration_gt (now - LLPacketBuffer.getSentTime packet)
                     timeout_seconds
      then
        let packet' := LLPacketBuffer.incrementRetryCount packet in
        if LLPacketBuffer.getRetryCount packet' <? 3
        then sweep now timeout_seconds rest (queue ++ [packet']) lost
        else sweep now timeout_seconds rest queue (wrap32 (lost + 1))
      else
        let '(kept, queue', lost') :=
          sweep now timeout_seconds rest queue lost in
        ((k, packet) :: kept, queue', lost')
  end.

(** [void checkForTimeouts(F32 timeout_seconds)] *)
Definition checkForTimeouts (now : Z) (timeout_seconds : F32) (c : t) : t :=
  let '(kept, queue, lost) :=
    sweep now timeout_seconds (mUnackedPackets c)
          (mRetryQueue c) (mPacketsLost c) in
  {| mHost := mHost c;
     mAlive :=
       if 60 * ticks_per_second <? now - mLastReceiveTime c then false
       else mAlive c;
     mBlocked := mBlocked c;
     mPacketsOut := mPacketsOut c; mPacketsIn := mPacketsIn c;
     mPacketsLost := lost; mPacketLoss := mPacketLoss c;
     mLastReceiveTime := mLastReceiveTime c;
     mLastSendTime := mLastSendTime c;
     mPingDelay := mPingDelay c;
     mPingDelayAveraged := mPingDelayAveraged c;
     mNextOutgoingSequence := mNextOutgoingSequence c;
     mNextIncomingSequence := mNextIncomingSequence c;
     mOldestUnackedPacket := mOldestUnackedPacket c;
     mUnackedPackets := kept;
     mRetryQueue := queue; mThrottles := mThrottles c |}.

Definition isAlive (c : t) : bool := mAlive c.
Definition isBlocked (c : t) : bool := mBlocked c.
Definition getPacketsIn (c : t) : Z := mPacketsIn c.
Definition getPacketsLost (c : t) : Z := mPacketsLost c.
Definition getUnackedPacketCount (c : t) : Z :=
  SeqMap.size (mUnackedPackets c).
Definition hasRetries (c : t) : bool :=
  match mRetryQueue c with [] => false | _ => true end.

(** the timeout test of [checkForTimeouts] on one buffer *)
Definition timed_out (now : Z) (timeout_seconds : F32)
    (p : LLPacketBuffer.t) : bool :=
  duration_gt (now - LLPacketBuffer.getSentTime p) timeout_seconds.

(** the retry test of [checkForTimeouts] on one timed-out buffer *)
Definition retry_allowed (p : LLPacketBuffer.t) : bool :=
  LLPacketBuffer.getRetryCount (LLPacketBuffer.incrementRetryCount p) <? 3.

(** [x++] on a [U32] *)
Definition u32_incr (x : Z) : Z := wrap32 (x + 1).

(** the entries a sweep moves to the retry queue, and those it gives up *)
Definition requeued (now : Z) (timeout : F32) (c : t)
  : list (Z * LLPacketBuffer.t) :=
  List.filter (λ kp, timed_out now timeout kp.2 && retry_allowed kp.2)
    (mUnackedPackets c).

Definition dropped (now : Z) (timeout : F32) (c : t)
  : list (Z * LLPacketBuffer.t) :=
  List.filter (λ kp, timed_out now timeout kp.2 && negb (retry_allowed kp.2))
    (mUnackedPackets c).

(** [checkPacketInID] applied to a list of sequence numbers, first to last *)
Fixpoint record_inbound_all (now : Z) (receive_resent : bool)
    (ids : list Z) (c : t) : option (list Classification * t) :=
  match ids with
  | [] => Some ([], c)
  | id :: rest =>
      match checkPacketInID now id receive_resent c with
      | None => None
      | Some (cl, c1) =>
          match record_inbound_all now receive_resent rest c1 with
          | None => None
          | Some (cls, c2) => Some (cl :: cls, c2)
          end
      end
  end.

(** the state [checkPacketInID] maintains *)
Definition inbound_counters (c : t) : Z * Z * Z * Z :=
  (mPacketsIn c, mNextIncomingSequence c, mPacketsLost c, mPacketLoss c).

(** every key of the unacked map lies below the outbound counter *)
Definition unacked_below_counter (c : t) : Prop :=
  Forall (λ k, k ≤ mNextOutgoingSequence c - 1)
    (SeqMap.keys (mUnackedPackets c)).

Definition set_mRetryQueue (queue : list LLPacketBuffer.t) (c : t) : t :=
  {| mHost := mHost c; mAlive := mAlive c; mBlocked := mBlocked c;
     mPacketsOut := mPacketsOut c; mPacketsIn := mPacketsIn c;
     mPacketsLost := mPacketsLost c; mPacketLoss := mPacketLoss c;
     mLastReceiveTime := mLastReceiveTime c;
     mLastSendTime := mLastSendTime c;
     mPingDelay := mPingDelay c;
     mPingDelayAveraged := mPingDelayAveraged c;
     mNextOutgoingSequence := mNextOutgoingSequence c;
     mNextIncomingSequence := mNextIncomingSequence c;
     mOldestUnackedPacket := mOldestUnackedPacket c;
     mUnackedPackets := mUnackedPackets c;
     mRetryQueue := queue; mThrottles := mThrottles c |}.

(** [std::unique_ptr<LLPacketBuffer> getNextRetry()]; [None] is [nullptr] *)
Definition getNextRetry (c : t) : option LLPacketBuffer.t * t :=
  match mRetryQueue c with
  | [] => (None, c)
  | packet :: rest => (Some packet, set_mRetryQueue rest c)
  end.

(** [nextPacketOutID] called [n] times in a row *)
Fixpoint nextPacketOutID_n (now : Z) (n : nat) (c : t) : list Z * t :=
  match n with
  | O => ([], c)
  | S n' =>
      let '(id, c1) := nextPacketOutID now c in
      let '(ids, c2) := nextPacketOutID_n now n' c1 in
      (id :: ids, c2)
  end.

End LLCircuitData.
End LLCircuitData.

(** ** The circuit table: [class LLCircuit] *)

Module LLCircuit.
Section LLCircuit.
Context {P : Platform}.

Record t := mk {
  mCircuitData : gmap LLHost LLCircuitData.t;
  mTimeoutSeconds : F32;
  mAllowTimeout : bool;
  mMaxCircuits : Z;
}.

(** constructor [LLCircuit()] *)
Definition new : t :=
  {| mCircuitData := ∅; mTimeoutSeconds := f32_of_Z 5;
     mAllowTimeout := true; mMaxCircuits := 256 |}.

Definition set_mCircuitData (d : gmap LLHost LLCircuitData.t) (t0 : t) : t :=
  {| mCircuitData := d; mTimeoutSeconds := mTimeoutSeconds t0;
     mAllowTimeout := mAllowTimeout t0; mMaxCircuits := mMaxCircuits t0 |}.

Definition setMaxCircuits (max_circuits : Z) (t0 : t) : t :=
  {| mCircuitData := mCircuitData t0; mTimeoutSeconds := mTimeoutSeconds t0;
     mAllowTimeout := mAllowTimeout t0; mMaxCircuits := max_circuits |}.

Definition getNumCircuits (t0 : t) : Z := Z.of_nat (size (mCircuitData t0)).

(** [LLCircuitData* findCircuit(const LLHost&)]; [None] is [nullptr] *)
Definition findCircuit (host : LLHost) (t0 : t) : option LLCircuitData.t :=
  mCircuitData t0 !! host.

(** [LLCircuitData* addCircuit(const LLHost&)] *)
Definition addCircuit (now : Z) (host : LLHost) (t0 : t)
  : option LLCircuitData.t * t :=
  if mMaxCircuits t0 <=? getNumCircuits t0 then (None, t0)
  else
    let circuit := LLCircuitData.new now host in
    (Some circuit, set_mCircuitData (<[host := circuit]> (mCircuitData t0)) t0).

(** The idiom shared by [addReliablePacket], [nextPacketID] and
    [checkPacketIn]:
    [circuit = findCircuit(host); if (!circuit) circuit = addCircuit(host);] *)
Definition findOrAddCircuit (now : Z) (host : LLHost) (t0 : t)
  : option LLCircuitData.t * t :=
  match findCircuit host t0 with
  | Some circuit => (Some circuit, t0)
  | None => addCircuit now host t0
  end.

(** writing through a [LLCircuitData*] obtained for [host] *)
Definition store (host : LLHost) (c : LLCircuitData.t) (t0 : t) : t :=
  set_mCircuitData (<[host := c]> (mCircuitData t0)) t0.

(** [void removeCircuit(const LLHost&)] *)
Definition removeCircuit (host : LLHost) (t0 : t) : t :=
  match mCircuitData t0 !! host with
  | Some _ => set_mCircuitData (delete host (mCircuitData t0)) t0
  | None => t0
  end.

(** [void checkForTimeouts()] *)
Definition checkForTimeouts (now : Z) (t0 : t) : t :=
  if negb (mAllowTimeout t0) then t0
  else
    set_mCircuitData
      (filter (λ kv, LLCircuitData.isAlive kv.2 = true)
         (LLCircuitData.checkForTimeouts now (mTimeoutSeconds t0)
            <$> mCircuitData t0))
      t0.

(** [void ackReliablePacket(const LLHost&, U32 packet_id)] *)
Definition ackReliablePacket (now : Z) (host : LLHost) (packet_id : Z)
    (t0 : t) : t :=
  match findCircuit host t0 with
  | Some circuit =>
      store host (LLCircuitData.ackReliablePacket now packet_id circuit) t0
  | None => t0
  end.

(** [void addReliablePacket(const LLHost& host, U32 packet_id,
    LLPacketBuffer* packet)] *)
Definition addReliablePacket (now : Z) (host : LLHost) (packet_id : Z)
    (packet : option LLPacketBuffer.t) (t0 : t) : t :=
  match findOrAddCircuit now host t0 with
  | (Some circuit, t1) =>
      store host
        (LLCircuitData.addReliablePacket now packet_id packet circuit) t1
  | (None, t1) => t1
  end.

(** [U32 nextPacketID(const LLHost&)] *)
Definition nextPacketID (now : Z) (host : LLHost) (t0 : t) : Z * t :=
  match findOrAddCircuit now host t0 with
  | (Some circuit, t1) =>
      let '(id, circuit') := LLCircuitData.nextPacketOutID now circuit in
      (id, store host circuit' t1)
  | (None, t1) => (0, t1)
  end.

(** [void checkPacketIn(const LLHost&, U32, bool)]; [None] as in
    [LLCircuitData.checkPacketInID] *)
Definition checkPacketIn (now : Z) (host : LLHost) (packet_id : Z)
    (receive_resent : bool) (t0 : t) : option t :=
  match findOrAddCircuit now host t0 with
  | (Some circuit, t1) =>
      match LLCircuitData.checkPacketInID now packet_id receive_resent
              circuit with
      | Some (_, circuit') => Some (store host circuit' t1)
      | None => None
      end
  | (None, t1) => Some t1
  end.

(** [get_or_create] applied to a list of hosts, left to right *)
Definition addAll (now : Z) (hosts : list LLHost) (t0 : t) : t :=
  foldl (λ acc h, (findOrAddCircuit now h acc).2) t0 hosts.

Definition setAllowTimeout (allow : bool) (t0 : t) : t :=
  {| mCircuitData := mCircuitData t0; mTimeoutSeconds := mTimeoutSeconds t0;
     mAllowTimeout := allow; mMaxCircuits := mMaxCircuits t0 |}.

Definition setTimeoutSeconds (timeout : F32) (t0 : t) : t :=
  {| mCircuitData := mCircuitData t0; mTimeoutSeconds := timeout;
     mAllowTimeout := mAllowTimeout t0; mMaxCircuits := mMaxCircuits t0 |}.

(** The loop [while (circuit->hasRetries()) { getNextRetry(); ... }] of
    [processRetries] on one circuit, run for at most [fuel] iterations; the
    list holds the packets reported as retried, in order. *)
Fixpoint drainRetries (fuel : nat) (c : LLCircuitData.t)
  : list LLPacketBuffer.t * LLCircuitData.t :=
  match fuel with
  | O => ([], c)
  | S fuel' =>
      if LLCircuitData.hasRetries c then
        match LLCircuitData.getNextRetry c with
        | (Some retry_packet, c1) =>
            let '(retried, c2) := drainRetries fuel' c1 in
            (retry_packet :: retried, c2)
        | (None, c1) => drainRetries fuel' c1
        end
      else ([], c)
  end.

(** [void processRetries()]: the loop of each circuit gets as many
    iterations as its retry queue is long. *)
Definition processRetries (t0 : t) : t :=
  set_mCircuitData
    ((λ c, (drainRetries (length (LLCircuitData.mRetryQueue c)) c).2)
       <$> mCircuitData t0)
    t0.

(** [nextPacketID] called [n] times in a row for one host *)
Fixpoint nextPacketID_n (now : Z) (host : LLHost) (n : nat) (t0 : t)
  : list Z * t :=
  match n with
  | O => ([], t0)
  | S n' =>
      let '(id, t1) := nextPacketID now host t0 in
      let '(ids, t2) := nextPacketID_n now host n' t1 in
      (id :: ids, t2)
  end.

(** the table holds no more circuits than [mMaxCircuits] *)
Definition within_capacity (t0 : t) : Prop :=
  getNumCircuits t0 ≤ mMaxCircuits t0.

End LLCircuit.

Section LLCircuitStats.
Context {P : Platform} {SP : StatsPlatform P}.

(** [struct CircuitStats] *)
Record CircuitStats := mkStats {
  total_circuits : Z;
  alive_circuits : Z;
  blocked_circuits : Z;
  total_packets_out : Z;
  total_packets_in : Z;
  total_packets_lost : Z;
  average_ping : F32;
  total_unacked : Z;
}.

(** The locals [total_ping] and [ping_count] of [getGlobalStats], beside
    the statistics being accumulated. *)
Record StatsLoop := mkLoop {
  loop_stats : CircuitStats;
  total_ping : F32;
  ping_count : Z;
}.

(** one iteration of the [for] loop of [getGlobalStats] *)
Definition stats_step (a : StatsLoop) (circuit : LLCircuitData.t)
  : StatsLoop :=
  let stats := loop_stats a in
  let ping := LLCircuitData.mPingDelayAveraged circuit in
  let counted := f32_gtb ping (f32_of_Z 0) in
  {| loop_stats :=
       {| total_circuits := total_circuits stats;
          alive_circuits :=
            if LLCircuitData.isAlive circuit
            then wrap32 (alive_circuits stats + 1) else alive_circuits stats;
          blocked_circuits :=
            if LLCircuitData.isBlocked circuit
            then wrap32 (blocked_circuits stats + 1)
            else blocked_circuits stats;
          total_packets_out :=
            wrap32 (total_packets_out stats
                    + LLCircuitData.mPacketsOut circuit);
          total_packets_in :=
            wrap32 (total_packets_in stats + LLCircuitData.getPacketsIn circuit);
          total_packets_lost :=
            wrap32 (total_packets_lost stats
                    + LLCircuitData.getPacketsLost circuit);
          average_ping := average_ping stats;
          total_unacked :=
            wrap64 (total_unacked stats
                    + LLCircuitData.getUnackedPacketCount circuit) |};
     total_ping := if counted then f32_add (total_ping a) ping
                   else total_ping a;
     ping_count := if counted then wrap32 (ping_count a + 1)
                   else ping_count a |}.

(** [CircuitStats getGlobalStats() const], the loop visiting the circuits in
    the given order *)
Definition getGlobalStatsIn (order : list LLCircuitData.t) (t0 : t)
  : CircuitStats :=
  let start :=
    {| loop_stats :=
         {| total_circuits := wrap32 (getNumCircuits t0);
            alive_circuits := 0; blocked_circuits := 0;
            total_packets_out := 0; total_packets_in := 0;
            total_packets_lost := 0; average_ping := f32_of_Z 0;
            total_unacked := 0 |};
       total_ping := f32_of_Z 0; ping_count := 0 |} in
  let a := foldl stats_step start order in
  let stats := loop_stats a in
  {| total_circuits := total_circuits stats;
     alive_circuits := alive_circuits stats;
     blocked_circuits := blocked_circuits stats;
     total_packets_out := total_packets_out stats;
     total_packets_in := total_packets_in stats;
     total_packets_lost := total_packets_lost stats;
     average_ping :=
       if 0 <? ping_count a
       then f32_div (total_ping a) (f32_of_Z (ping_count a))
       else average_ping stats;
     total_unacked := total_unacked stats |}.

(** [getGlobalStats]: the order in which [std::unordered_map] is iterated is
    unspecified; the enumeration of the map stands for it. *)
Definition getGlobalStats (t0 : t) : CircuitStats :=
  getGlobalStatsIn (snd <$> map_to_list (mCircuitData t0)) t0.

End LLCircuitStats.
End LLCircuit.

(** ** Message templates *)

Inductive EMsgVariableType := MVT_IP_ADDR | MVT_IP_PORT | MVT_VARIABLE.

Module LLMessageTemplate.

(** Modelled from the spec: [llmessagetemplate.h] is not among the sources.
    "Immutable descriptor with: a symbolic name; a numeric opcode; a flag set
    {reliable, zero-coded}; an ordered list of blocks; each block has a name,
    a repetition [count] and an ordered list of variables."  The constructor
    used by [loadMessageTemplate] sets the name, the number and the reliable
    flag only; the zero-coded flag starts cleared. *)
Record t := mk {
  mName : string;
  mMessageNumber : Z;
  mReliable : bool;
  mZeroCoded : bool;
  mBlocks : list (string * Z * list (string * EMsgVariableType * Z));
}.

Definition new (name : string) (num : Z) (reliable : bool) : t :=
  {| mName := name; mMessageNumber := num; mReliable := reliable;
     mZeroCoded := false; mBlocks := [] |}.

Definition addBlock (block : string) (count : Z) (tm : t) : t :=
  {| mName := mName tm; mMessageNumber := mMessageNumber tm;
     mReliable := mReliable tm; mZeroCoded := mZeroCoded tm;
     mBlocks := mBlocks tm ++ [(block, count, [])] |}.

Definition addVariable (block var : string) (ty : EMsgVariableType)
    (sz : Z) (tm : t) : t :=
  {| mName := mName tm; mMessageNumber := mMessageNumber tm;
     mReliable := mReliable tm; mZeroCoded := mZeroCoded tm;
     mBlocks :=
       map (λ b, if String.eqb b.1.1 block
                 then (b.1.1, b.1.2, b.2 ++ [(var, ty, sz)]) else b)
           (mBlocks tm) |}.

Definition getName (tm : t) : string := mName tm.
Definition getMessageNumber (tm : t) : Z := mMessageNumber tm.
Definition getReliable (tm : t) : bool := mReliable tm.
Definition getZeroCoded (tm : t) : bool := mZeroCoded tm.

End LLMessageTemplate.

(** ** Wire header *)

(** Modelled from the spec: [message.h] is not among the sources.
    "flags: one byte; bit 0 = reliable, bit 1 = zero-coded". *)
Definition LL_RELIABLE_FLAG : Z := 0x01.
Definition LL_ZEROCODED_FLAG : Z := 0x02.

(** [buffer[i]] on a byte array given by its leading bytes; the receive
    buffer has 65536 bytes and positions past the list read as [0]. *)
Definition byte_at (buffer : list Z) (i : Z) : Z :=
  if i <? 0 then 0 else nth (Z.to_nat i) buffer 0.

(** [*reinterpret_cast<U32*>(buffer + i)] on a little-endian host *)
Definition read_U32 (buffer : list Z) (i : Z) : Z :=
  byte_at buffer i + byte_at buffer (i + 1) * 2 ^ 8
  + byte_at buffer (i + 2) * 2 ^ 16 + byte_at buffer (i + 3) * 2 ^ 24.

(** the four bytes at [reinterpret_cast<U8*>(&x)] on a little-endian host *)
Definition U32_bytes (x : Z) : list Z :=
  [wrap8 x; wrap8 (Z.shiftr x 8); wrap8 (Z.shiftr x 16);
   wrap8 (Z.shiftr x 24)].

(** [addMessageHeader], lines "Message number": the opcode bytes *)
Definition encode_msgnum (msgnum : Z) : list Z :=
  if msgnum <? 256 then [wrap8 msgnum]
  else if msgnum <? 65536 then
    [0xFF; wrap8 (Z.shiftr msgnum 8); wrap8 (Z.land msgnum 0xFF)]
  else [0xFF; 0xFF] ++ U32_bytes msgnum.

(** [processMessage], lines "Get message number": opcode and payload
    offset *)
Definition decode_msgnum (buffer : list Z) : Z * Z :=
  if byte_at buffer 5 =? 0xFF then
    if byte_at buffer 6 =? 0xFF then (read_U32 buffer 7, 11)
    else (Z.lor (Z.shiftl (byte_at buffer 6) 8) (byte_at buffer 7), 8)
  else (byte_at buffer 5, 6).

(** [void decodeZeroData(U8* buffer, S32 size)]: the loop reads the run
    length into a local and writes nothing. *)
Definition decodeZeroData (buffer : list Z) (size : Z) : list Z :=
  foldl (λ buf i,
           if (byte_at buf i =? 0x00) && negb (byte_at buf (i + 1) =? 0x00)
           then let zero_count := byte_at buf (i + 1) in buf
           else buf)
        buffer (seqZ 0 (size - 1)).

(** ** The message system: [class LLMessageSystem] *)

Definition HandlerId := nat.

Module LLMessageSystem.
Section LLMessageSystem.
Context {P : Platform}.

(** The receive buffer is passed to [processMessage] explicitly and is not
    a field here. *)
Record t := mk {
  mMessageTemplates : gmap string LLMessageTemplate.t;
  mMessageNumbers : gmap Z LLMessageTemplate.t;
  mHost : LLHost;
  mCircuit : LLCircuit.t;
  mThrottles : LLThrottleGroup;
  mHandlerMap : gmap string (list HandlerId);
  mPacketsIn : Z;
  mPacketsOut : Z;
  mPacketsLost : Z;
  mBytesIn : Z;
  mBytesOut : Z;
  mMessageSystemRunning : bool;
  mReceiveBufferSize : Z;
  mLastSender : LLHost;
  mCurrentMessage : option LLMessageTemplate.t;
  mSendBuffer : list Z;
}.

(** [loadMessageTemplate(name, num, reliable)].  The two indices hold the
    templates themselves.  In the source [mMessageNumbers[num]] is a raw
    pointer to the object that [mMessageTemplates[name]] owns, and a template
    is not modified once it is stored: an entry of the number index here is
    what that pointer points to, for as long as the object lives.
    [TemplateStore] below keeps the pointers; the two agree unless a name is
    loaded again while another opcode still points to its object, which the
    catalogue of the constructor never does
    ([initializeMessageTemplates_pointers]). *)
Definition loadMessageTemplate (name : string) (num : Z) (reliable : bool)
    (idx : gmap string LLMessageTemplate.t * gmap Z LLMessageTemplate.t)
  : gmap string LLMessageTemplate.t * gmap Z LLMessageTemplate.t :=
  let tmpl := LLMessageTemplate.new name num reliable in
  let tmpl :=
    if String.eqb name "LoginRequest" then
      LLMessageTemplate.addVariable "LoginInfo" "Start" MVT_VARIABLE 1
        (LLMessageTemplate.addVariable "LoginInfo" "Password" MVT_VARIABLE 1
           (LLMessageTemplate.addVariable "LoginInfo" "UserName"
              MVT_VARIABLE 1
              (LLMessageTemplate.addBlock "LoginInfo" 1
                 (LLMessageTemplate.addVariable "CircuitInfo" "Port"
                    MVT_IP_PORT 2
                    (LLMessageTemplate.addVariable "CircuitInfo" "IP"
                       MVT_IP_ADDR 4
                       (LLMessageTemplate.addBlock "CircuitInfo" 1
                          tmpl))))))
    else tmpl in
  (<[name := tmpl]> idx.1, <[num := tmpl]> idx.2).

(** [initializeMessageTemplates()] *)
Definition initializeMessageTemplates
  : gmap string LLMessageTemplate.t * gmap Z LLMessageTemplate.t :=
  foldl (λ idx '(name, num, reliable),
           loadMessageTemplate name num reliable idx)
    (∅, ∅)
    [("StartPingCheck"%string, 1, true);
     ("CompletePingCheck"%string, 2, true);
     ("LoginRequest"%string, 3, true);
     ("LoginReply"%string, 4, true);
     ("ChatFromViewer"%string, 80, true);
     ("ChatFromSimulator"%string, 81, false);
     ("UpdateUserInfo"%string, 180, true);
     ("RegionHandshake"%string, 148, false);
     ("RegionHandshakeReply"%string, 149, true)].

(** constructor [LLMessageSystem(central_host, port)] *)
Definition new (central_host : string) (port : Z) : t :=
  {| mMessageTemplates := initializeMessageTemplates.1;
     mMessageNumbers := initializeMessageTemplates.2;
     mHost := (central_host, port);
     mCircuit := LLCircuit.new;
     mThrottles := throttle_new;
     mHandlerMap := ∅;
     mPacketsIn := 0; mPacketsOut := 0; mPacketsLost := 0;
     mBytesIn := 0; mBytesOut := 0;
     mMessageSystemRunning := true;
     mReceiveBufferSize := 0;
     mLastSender := (""%string, 0);
     mCurrentMessage := None;
     mSendBuffer := [] |}.

(** [setHandlerFunc(msgname, handler)] *)
Definition setHandlerFunc (msgname : string) (handler : HandlerId)
    (ms : t) : t :=
  {| mMessageTemplates := mMessageTemplates ms;
     mMessageNumbers := mMessageNumbers ms;
     mHost := mHost ms; mCircuit := mCircuit ms;
     mThrottles := mThrottles ms;
     mHandlerMap :=
       <[msgname := default [] (mHandlerMap ms !! msgname) ++ [handler]]>
         (mHandlerMap ms);
     mPacketsIn := mPacketsIn ms; mPacketsOut := mPacketsOut ms;
     mPacketsLost := mPacketsLost ms;
     mBytesIn := mBytesIn ms; mBytesOut := mBytesOut ms;
     mMessageSystemRunning := mMessageSystemRunning ms;
     mReceiveBufferSize := mReceiveBufferSize ms;
     mLastSender := mLastSender ms;
     mCurrentMessage := mCurrentMessage ms;
     mSendBuffer := mSendBuffer ms |}.

(** [addMessageHeader(msgname)]: the bytes appended to the send buffer *)
Definition addMessageHeader (msgname : string) (ms : t) : list Z :=
  match mMessageTemplates ms !! msgname with
  | None => []
  | Some tmpl =>
      let flags :=
        Z.lor (if LLMessageTemplate.getReliable tmpl
               then LL_RELIABLE_FLAG else 0)
              (if LLMessageTemplate.getZeroCoded tmpl
               then LL_ZEROCODED_FLAG else 0) in
      [flags] ++ [0; 0; 0; 0]
      ++ encode_msgnum (LLMessageTemplate.getMessageNumber tmpl)
  end.

Definition set_send (cur : option LLMessageTemplate.t) (buf : list Z)
    (ms : t) : t :=
  {| mMessageTemplates := mMessageTemplates ms;
     mMessageNumbers := mMessageNumbers ms;
     mHost := mHost ms; mCircuit := mCircuit ms;
     mThrottles := mThrottles ms; mHandlerMap := mHandlerMap ms;
     mPacketsIn := mPacketsIn ms; mPacketsOut := mPacketsOut ms;
     mPacketsLost := mPacketsLost ms;
     mBytesIn := mBytesIn ms; mBytesOut := mBytesOut ms;
     mMessageSystemRunning := mMessageSystemRunning ms;
     mReceiveBufferSize := mReceiveBufferSize ms;
     mLastSender := mLastSender ms;
     mCurrentMessage := cur; mSendBuffer := buf |}.

(** [bool newMessage(msgname)] *)
Definition newMessage (msgname : string) (ms : t) : bool * t :=
  match mMessageTemplates ms !! msgname with
  | None => (false, ms)
  | Some tmpl => (true, set_send (Some tmpl) (addMessageHeader msgname ms) ms)
  end.

(** [addVariableData(varname, data, size)] with the bytes of [data] *)
Definition addVariableData (varname : string) (bytes : list Z) (ms : t) : t :=
  set_send (mCurrentMessage ms) (mSendBuffer ms ++ bytes) ms.

(** [addU32(varname, value)] *)
Definition addU32 (varname : string) (value : Z) (ms : t) : t :=
  addVariableData varname (U32_bytes value) ms.

(** [S32 sendUDP(host, data, size)]: "Simulate successful send" *)
Definition sendUDP (host : LLHost) (data : list Z) (size : Z) : Z := size.

(** Outcome of [sendMessage]: the returned [S32] and the datagrams handed
    to [sendUDP]. *)
Record SendResult := {
  bytes_sent : Z;
  transmitted : list (LLHost * list Z);
}.

Definition set_out (circuit : LLCircuit.t) (throttles : LLThrottleGroup)
    (packets_out bytes_out : Z) (ms : t) : t :=
  {| mMessageTemplates := mMessageTemplates ms;
     mMessageNumbers := mMessageNumbers ms;
     mHost := mHost ms; mCircuit := circuit;
     mThrottles := throttles; mHandlerMap := mHandlerMap ms;
     mPacketsIn := mPacketsIn ms; mPacketsOut := packets_out;
     mPacketsLost := mPacketsLost ms;
     mBytesIn := mBytesIn ms; mBytesOut := bytes_out;
     mMessageSystemRunning := mMessageSystemRunning ms;
     mReceiveBufferSize := mReceiveBufferSize ms;
     mLastSender := mLastSender ms;
     mCurrentMessage := mCurrentMessage ms;
     mSendBuffer := mSendBuffer ms |}.

(** [S32 sendMessage(const LLHost& host)].  The call
    [mCircuit->addReliablePacket(host, packet_id, data, size)] hands over a
    packet buffer made of the bytes of the send buffer. *)
Definition sendMessage (now : Z) (host : LLHost) (ms : t) : SendResult * t :=
  match mSendBuffer ms with
  | [] => ({| bytes_sent := 0; transmitted := [] |}, ms)
  | _ :: _ =>
      let '(packet_id, circuit1) :=
        LLCircuit.nextPacketID now host (mCircuit ms) in
      let size := Z.of_nat (length (mSendBuffer ms)) in
      let '(overflow, throttles1) :=
        checkOverflow (mThrottles ms) host size in
      if negb overflow then
        ({| bytes_sent := 0; transmitted := [] |},
         set_out circuit1 throttles1 (mPacketsOut ms) (mBytesOut ms) ms)
      else
        let sent := sendUDP host (mSendBuffer ms) (to_S32 size) in
        let result :=
          {| bytes_sent := sent;
             transmitted := [(host, mSendBuffer ms)] |} in
        if 0 <? sent then
          let circuit2 :=
            match mCurrentMessage ms with
            | Some tmpl =>
                if LLMessageTemplate.getReliable tmpl then
                  LLCircuit.addReliablePacket now host packet_id
                    (Some (LLPacketBuffer.of_bytes (mSendBuffer ms)))
                    circuit1
                else circuit1
            | None => circuit1
            end in
          (result,
           set_out circuit2 throttles1 (wrap32 (mPacketsOut ms + 1))
             (wrap32 (mBytesOut ms + sent)) ms)
        else
          (result,
           set_out circuit1 throttles1 (mPacketsOut ms) (mBytesOut ms) ms)
  end.

(** Outcome of [processMessage]: the returned [bool], the handlers invoked
    in order, and the receive buffer as the call leaves it. *)
Record ProcessResult := {
  processed : bool;
  invoked : list HandlerId;
  buffer_after : list Z;
}.

(** [bool processMessage(const LLHost& sender, U8* buffer, S32 size)].  The
    call [mCircuit->addReliablePacket(sender, sequence, buffer, size)] hands
    over a packet buffer made of the first [size] bytes of [buffer]. *)
Definition processMessage (now : Z) (sender : LLHost) (buffer : list Z)
    (size : Z) (ms : t) : ProcessResult * t :=
  if size <? 6 then
    ({| processed := false; invoked := []; buffer_after := buffer |}, ms)
  else
    let flags := byte_at buffer 0 in
    let reliable := negb (Z.land flags LL_RELIABLE_FLAG =? 0) in
    let zerocoded := negb (Z.land flags LL_ZEROCODED_FLAG =? 0) in
    let sequence := read_U32 buffer 1 in
    let '(msgnum, offset) := decode_msgnum buffer in
    match mMessageNumbers ms !! msgnum with
    | None =>
        ({| processed := false; invoked := []; buffer_after := buffer |}, ms)
    | Some tmpl =>
        let circuit1 :=
          if reliable then
            LLCircuit.addReliablePacket now sender sequence
              (Some (LLPacketBuffer.of_bytes (take (Z.to_nat size) buffer)))
              (mCircuit ms)
          else mCircuit ms in
        let buffer1 :=
          if zerocoded then
            take (Z.to_nat offset) buffer
            ++ decodeZeroData (drop (Z.to_nat offset) buffer) (size - offset)
          else buffer in
        let handlers :=
          default [] (mHandlerMap ms !! LLMessageTemplate.getName tmpl) in
        ({| processed := true; invoked := handlers;
            buffer_after := buffer1 |},
         set_out circuit1 (mThrottles ms) (mPacketsOut ms) (mBytesOut ms) ms)
    end.

(** the bytes of [value.c_str()], [value.length()] of them *)
Definition bytes_of_string (value : string) : list Z :=
  map (λ a, Z.of_N (Ascii.N_of_ascii a)) (String.list_ascii_of_string value).

(** [addString(varname, value)] *)
Definition addString (varname value : string) (ms : t) : t :=
  addVariableData varname (bytes_of_string value) ms.

(** several [addVariableData] calls in a row *)
Definition addAllData (fields : list (string * list Z)) (ms : t) : t :=
  foldl (λ acc field, addVariableData field.1 field.2 acc) ms fields.

(** several [setHandlerFunc] calls for one message name in a row *)
Definition setHandlerFuncs (msgname : string) (handlers : list HandlerId)
    (ms : t) : t :=
  foldl (λ acc handler, setHandlerFunc msgname handler acc) ms handlers.

Definition set_running (running : bool) (ms : t) : t :=
  {| mMessageTemplates := mMessageTemplates ms;
     mMessageNumbers := mMessageNumbers ms;
     mHost := mHost ms; mCircuit := mCircuit ms;
     mThrottles := mThrottles ms; mHandlerMap := mHandlerMap ms;
     mPacketsIn := mPacketsIn ms; mPacketsOut := mPacketsOut ms;
     mPacketsLost := mPacketsLost ms;
     mBytesIn := mBytesIn ms; mBytesOut := mBytesOut ms;
     mMessageSystemRunning := running;
     mReceiveBufferSize := mReceiveBufferSize ms;
     mLastSender := mLastSender ms;
     mCurrentMessage := mCurrentMessage ms;
     mSendBuffer := mSendBuffer ms |}.

(** [startMessageSystem()] and [stopMessageSystem()] *)
Definition startMessageSystem (ms : t) : t := set_running true ms.
Definition stopMessageSystem (ms : t) : t := set_running false ms.

Definition set_received (packets_in bytes_in size : Z) (sender : LLHost)
    (ms : t) : t :=
  {| mMessageTemplates := mMessageTemplates ms;
     mMessageNumbers := mMessageNumbers ms;
     mHost := mHost ms; mCircuit := mCircuit ms;
     mThrottles := mThrottles ms; mHandlerMap := mHandlerMap ms;
     mPacketsIn := packets_in; mPacketsOut := mPacketsOut ms;
     mPacketsLost := mPacketsLost ms;
     mBytesIn := bytes_in; mBytesOut := mBytesOut ms;
     mMessageSystemRunning := mMessageSystemRunning ms;
     mReceiveBufferSize := size;
     mLastSender := sender;
     mCurrentMessage := mCurrentMessage ms;
     mSendBuffer := mSendBuffer ms |}.

(** What one call of [receiveUDP] delivers: the sender, the receive buffer
    as the call leaves it, and the returned byte count. *)
Definition Delivery : Type := LLHost * list Z * Z.

(** The [while (true)] loop of [checkMessages] over the deliveries of the
    successive [receiveUDP] calls; when the list is used up [receiveUDP]
    returns 0 ("No data available").  The handlers invoked are collected in
    order. *)
Fixpoint receiveLoop (now : Z) (deliveries : list Delivery) (ms : t)
  : list HandlerId * t :=
  match deliveries with
  | [] => ([], ms)
  | (sender, buffer, bytes_received) :: rest =>
      if bytes_received <=? 0 then ([], ms)
      else
        let ms1 :=
          set_received (wrap32 (mPacketsIn ms + 1))
            (wrap32 (mBytesIn ms + bytes_received))
            bytes_received sender ms in
        let '(result, ms2) :=
          processMessage now sender buffer bytes_received ms1 in
        let '(later, ms3) := receiveLoop now rest ms2 in
        (invoked result ++ later, ms3)
  end.

(** [bool checkMessages(S64 frame_count)] over a transport that makes the
    given deliveries; the maintenance call [mCircuit->checkTimeouts()] is
    [LLCircuit::checkForTimeouts]. *)
Definition checkMessagesFrom (now : Z) (deliveries : list Delivery) (ms : t)
  : bool * list HandlerId * t :=
  if negb (mMessageSystemRunning ms) then (false, [], ms)
  else
    let '(handlers, ms1) := receiveLoop now deliveries ms in
    (true, handlers,
     set_out (LLCircuit.checkForTimeouts now (mCircuit ms1))
       (updateAverage now (mThrottles ms1))
       (mPacketsOut ms1) (mBytesOut ms1) ms1).

(** [checkMessages] with the [receiveUDP] of the source, which simulates a
    transport without data: every call returns 0. *)
Definition checkMessages (now : Z) (ms : t) : bool * list HandlerId * t :=
  checkMessagesFrom now [] ms.

End LLMessageSystem.
End LLMessageSystem.

(** ** The template indices with their pointers

    [mMessageTemplates] owns the template objects (a [std::unique_ptr] per
    name) and [mMessageNumbers] holds raw pointers to them.  Here the
    objects live in a store under addresses.  [std::make_unique] returns an
    object distinct from every object created before: an address is never
    handed out twice, and reading through a pointer whose object has been
    destroyed has no result. *)
Module TemplateStore.

Definition Addr := nat.

Record t := mk {
  (** the template objects that have not been destroyed *)
  objects : gmap Addr LLMessageTemplate.t;
  (** the number of objects created so far *)
  created : Addr;
  (** [mMessageTemplates]: the object each name owns *)
  names : gmap string Addr;
  (** [mMessageNumbers]: a raw pointer per opcode *)
  numbers : gmap Z Addr;
}.

Definition empty : t :=
  {| objects := ∅; created := 0%nat; names := ∅; numbers := ∅ |}.

(** [*p]; [None] when the object has been destroyed *)
Definition deref (s : t) (p : Addr) : option LLMessageTemplate.t :=
  objects s !! p.

(** the object [loadMessageTemplate] builds before it stores it *)
Definition newTemplate (name : string) (num : Z) (reliable : bool)
  : LLMessageTemplate.t :=
  let tmpl := LLMessageTemplate.new name num reliable in
  if String.eqb name "LoginRequest" then
    LLMessageTemplate.addVariable "LoginInfo" "Start" MVT_VARIABLE 1
      (LLMessageTemplate.addVariable "LoginInfo" "Password" MVT_VARIABLE 1
         (LLMessageTemplate.addVariable "LoginInfo" "UserName"
            MVT_VARIABLE 1
            (LLMessageTemplate.addBlock "LoginInfo" 1
               (LLMessageTemplate.addVariable "CircuitInfo" "Port"
                  MVT_IP_PORT 2
                  (LLMessageTemplate.addVariable "CircuitInfo" "IP"
                     MVT_IP_ADDR 4
                     (LLMessageTemplate.addBlock "CircuitInfo" 1
                        tmpl))))))
  else tmpl.

(** [loadMessageTemplate(name, num, reliable)]:
    [mMessageTemplates[name] = std::move(tmpl)] destroys the object the
    entry owned before, and [mMessageNumbers[num]] receives
    [mMessageTemplates[name].get()], the address of the new object. *)
Definition loadMessageTemplate (name : string) (num : Z) (reliable : bool)
    (s : t) : t :=
  let p := created s in
  let objects1 := <[p := newTemplate name num reliable]> (objects s) in
  let objects2 :=
    match names s !! name with
    | Some old => delete old objects1
    | None => objects1
    end in
  {| objects := objects2; created := S p;
     names := <[name := p]> (names s);
     numbers := <[num := p]> (numbers s) |}.

(** [initializeMessageTemplates()] *)
Definition initializeMessageTemplates : t :=
  foldl (λ s '(name, num, reliable), loadMessageTemplate name num reliable s)
    empty
    [("StartPingCheck"%string, 1, true);
     ("CompletePingCheck"%string, 2, true);
     ("LoginRequest"%string, 3, true);
     ("LoginReply"%string, 4, true);
     ("ChatFromViewer"%string, 80, true);
     ("ChatFromSimulator"%string, 81, false);
     ("UpdateUserInfo"%string, 180, true);
     ("RegionHandshake"%string, 148, false);
     ("RegionHandshakeReply"%string, 149, true)].

(** what [mMessageTemplates.find(name)->second] and
    [mMessageNumbers.find(num)->second] point to, where that is an object *)
Definition name_index (s : t) : gmap string LLMessageTemplate.t :=
  omap (deref s) (names s).
Definition number_index (s : t) : gmap Z LLMessageTemplate.t :=
  omap (deref s) (numbers s).

(** the number index holds, for this opcode, a pointer to a destroyed
    object *)
Definition dangling (s : t) (num : Z) : Prop :=
  ∃ p, numbers s !! num = Some p ∧ deref s p = None.

(** The state of the two maps between calls: every name owns an object, no
    object is owned twice, and every address was handed out. *)
Record wf (s : t) : Prop := {
  wf_owned : ∀ n p, names s !! n = Some p → is_Some (objects s !! p);
  wf_unique : ∀ n n' p,
    names s !! n = Some p → names s !! n' = Some p → n = n';
  wf_objects : ∀ p, is_Some (objects s !! p) → (p < created s)%nat;
  wf_numbers : ∀ k p, numbers s !! k = Some p → (p < created s)%nat;
}.

End TemplateStore.

(** ** A concrete platform

    Rationals stand for [F32] (exact arithmetic), the clock ticks in
    nanoseconds. *)

Module TokenBucket.

(** Modelled from the spec: [llthrottle.h] is not among the sources.
    "check_overflow(category, size_bytes): returns true when admitting
    size_bytes would exceed the bucket; otherwise debits and returns false."
    "update_average(): refills all buckets proportional to elapsed time,
    clamping to the bucket capacity."  [sendMessage] passes the host where
    the spec has a category; one bucket serves every host here. *)
Record t := mk {
  capacity : Z;
  tokens : Z;
}.

Definition create (cap : Z) : t := {| capacity := cap; tokens := cap |}.

Definition checkOverflow (th : t) (host : LLHost) (size_bytes : Z)
  : bool * t :=
  if tokens th <? size_bytes then (true, th)
  else (false, {| capacity := capacity th; tokens := tokens th - size_bytes |}).

Definition updateAverage (elapsed : Z) (th : t) : t :=
  {| capacity := capacity th;
     tokens := Z.min (capacity th) (tokens th + elapsed) |}.

End TokenBucket.

Definition exact_platform (cap : Z) : Platform :=
  {| F32 := Q;
     f32_of_Z := inject_Z;
     f32_0_95 := (95 # 100)%Q;
     f32_0_05 := (5 # 100)%Q;
     f32_eqb := Qeq_bool;
     f32_add := Qplus;
     f32_mul := Qmult;
     f32_seconds := λ d, (d # 1000000000)%Q;
     duration_gt := λ d s, negb (Qle_bool (d # 1000000000)%Q s);
     ticks_per_second := 1000000000;
     LLThrottleGroup := TokenBucket.t;
     throttle_new := TokenBucket.create cap;
     resetDynamicAdjust := λ th, th;
     updateAverage := TokenBucket.updateAverage;
     checkOverflow := TokenBucket.checkOverflow |}.

Definition exact_stats (cap : Z) : StatsPlatform (exact_platform cap) :=
  @Build_StatsPlatform (exact_platform cap)
    (λ a b : Q, negb (Qle_bool a b)) Qdiv.

(** ** Sample data for the closed statements *)

Definition sample_platform : Platform := exact_platform 1024.

(** a platform whose throttle bucket starts empty *)
Definition drained_platform : Platform := exact_platform 0.

Definition sim_host : LLHost := ("127.0.0.1"%string, 9000).

Definition second : Z := 1000000000.

Definition sample_timeout : @F32 sample_platform :=
  @f32_of_Z sample_platform 5.

(** A circuit that has assigned sequence numbers 0, 1, 2 and installed them
    as reliable packets at 1 s, 2 s and 8 s; packet 1 is on its third
    attempt. *)
Definition sample_circuit : @LLCircuitData.t sample_platform :=
  let c := LLCircuitData.new 0 sim_host in
  let c := (LLCircuitData.nextPacketOutID (1 * second) c).2 in
  let c :=
    LLCircuitData.addReliablePacket (1 * second) 0
      (Some (LLPacketBuffer.of_bytes [1; 0; 0; 0; 0; 1])) c in
  let c := (LLCircuitData.nextPacketOutID (2 * second) c).2 in
  let c :=
    LLCircuitData.addReliablePacket (2 * second) 1
      (Some (LLPacketBuffer.mk [1; 0; 0; 0; 0; 80] 1 0 2)) c in
  let c := (LLCircuitData.nextPacketOutID (8 * second) c).2 in
  LLCircuitData.addReliablePacket (8 * second) 2
    (Some (LLPacketBuffer.of_bytes [1; 0; 0; 0; 0; 3])) c.

(** 256 distinct hosts, and the default table after a circuit was created
    for each of them *)
Definition sample_hosts : list LLHost :=
  (λ port, ("10.0.0.1"%string, port)) <$> seqZ 1 256.

Definition full_table : @LLCircuit.t sample_platform :=
  LLCircuit.addAll 0 sample_hosts LLCircuit.new.

(** a freshly constructed message system *)
Definition sample_system (P : Platform) : @LLMessageSystem.t P :=
  LLMessageSystem.new "sim.example" 13000.

(** a reliable [StartPingCheck] datagram carrying sequence number 5 *)
Definition reliable_datagram : list Z := [0x01; 5; 0; 0; 0; 1].

(** an unreliable [ChatFromSimulator] datagram carrying sequence number 0 *)
Definition chat_datagram : list Z := [0x00; 0; 0; 0; 0; 81].

(** the statistics operations of the sample platform *)
Definition sample_stats : StatsPlatform sample_platform := exact_stats 1024.

(** * Properties *)

(** ** Machine integers and the ordered map *)

Lemma wrap32_add_wrap32_r (a b : Z) : wrap32 (a + wrap32 b) = wrap32 (a + b).
Proof. unfold wrap32. apply Zplus_mod_idemp_r. Qed.

Lemma find_None_not_key {V} (k : Z) (m : list (Z * V)) :
  SeqMap.find k m = None ↔ k ∉ SeqMap.keys m.
Proof.
  induction m as [|[k' v] m IH]; simpl.
  - split; [intros _; apply not_elem_of_nil | done].
  - rewrite not_elem_of_cons. destruct (Z.eqb_spec k' k) as [->|Hne].
    + split; [done | intros [? _]; done].
    + rewrite IH. split; [intros ?; split; [congruence | done] | tauto].
Qed.

Lemma keys_insert {V} (k : Z) (v : V) (m : list (Z * V)) (x : Z) :
  x ∈ SeqMap.keys (SeqMap.insert k v m) → x = k ∨ x ∈ SeqMap.keys m.
Proof.
  induction m as [|[k' v'] m IH]; simpl.
  - rewrite elem_of_cons. tauto.
  - destruct (k <? k'); [|destruct (k =? k')]; simpl;
      rewrite !elem_of_cons; tauto.
Qed.

Lemma keys_erase {V} (k : Z) (m : list (Z * V)) (x : Z) :
  x ∈ SeqMap.keys (SeqMap.erase k m) → x ∈ SeqMap.keys m.
Proof.
  induction m as [|[k' v'] m IH]; simpl; [done|].
  destruct (k' =? k); simpl; rewrite !elem_of_cons; tauto.
Qed.

Lemma keys_filter {V} (f : Z * V → bool) (m : list (Z * V)) (x : Z) :
  x ∈ SeqMap.keys (List.filter f m) → x ∈ SeqMap.keys m.
Proof.
  unfold SeqMap.keys. rewrite !list_elem_of_In, !in_map_iff.
  intros (kv & Hk & Hin). exists kv. split; [done|].
  by apply filter_In in Hin as [? _].
Qed.

Lemma sorted_from_weaken {V} (lo lo' : Z) (m : list (Z * V)) :
  lo' ≤ lo → SeqMap.sorted_from lo m → SeqMap.sorted_from lo' m.
Proof.
  destruct m as [|[k v] m]; simpl; [done|].
  intros ? [? ?]. split; [lia|done].
Qed.

Lemma sorted_from_sorted {V} (lo : Z) (m : list (Z * V)) :
  SeqMap.sorted_from lo m → SeqMap.sorted m.
Proof. destruct m as [|[k v] m]; simpl; [done|]. by intros [_ ?]. Qed.

Lemma insert_sorted_from {V} (lo k : Z) (v : V) (m : list (Z * V)) :
  lo < k → SeqMap.sorted_from lo m → SeqMap.sorted_from lo (SeqMap.insert k v m).
Proof.
  revert lo. induction m as [|[k' v'] m IH]; intros lo Hlo; simpl.
  - done.
  - intros [Hk' Hm].
    destruct (Z.ltb_spec k k') as [Hlt|Hge]; simpl.
    + done.
    + destruct (Z.eqb_spec k k') as [->|Hne]; simpl.
      * done.
      * split; [done|]. apply IH; [lia|done].
Qed.

Lemma insert_sorted {V} (k : Z) (v : V) (m : list (Z * V)) :
  SeqMap.sorted m → SeqMap.sorted (SeqMap.insert k v m).
Proof.
  destruct m as [|[k' v'] m]; simpl; [done|]. intros Hm.
  destruct (Z.ltb_spec k k') as [Hlt|Hge]; simpl; [done|].
  destruct (Z.eqb_spec k k') as [->|Hne]; simpl; [done|].
  apply insert_sorted_from; [lia|done].
Qed.

Lemma filter_sorted_from {V} (f : Z * V → bool) (lo : Z) (m : list (Z * V)) :
  SeqMap.sorted_from lo m → SeqMap.sorted_from lo (List.filter f m).
Proof.
  revert lo. induction m as [|[k v] m IH]; intros lo; simpl; [done|].
  intros [Hlo Hm]. destruct (f (k, v)); simpl.
  - split; [done|]. by apply IH.
  - apply IH. apply (sorted_from_weaken k); [lia|done].
Qed.

Lemma filter_sorted {V} (f : Z * V → bool) (m : list (Z * V)) :
  SeqMap.sorted m → SeqMap.sorted (List.filter f m).
Proof.
  destruct m as [|[k v] m]; simpl; [done|]. intros Hm.
  destruct (f (k, v)); simpl.
  - by apply filter_sorted_from.
  - by apply (sorted_from_sorted k), filter_sorted_from.
Qed.

Lemma erase_sorted_from {V} (lo k : Z) (m : list (Z * V)) :
  SeqMap.sorted_from lo m → SeqMap.sorted_from lo (SeqMap.erase k m).
Proof.
  revert lo. induction m as [|[k' v] m IH]; intros lo; simpl; [done|].
  intros [Hlo Hm]. destruct (k' =? k); simpl.
  - apply (sorted_from_weaken k'); [lia|done].
  - split; [done|]. by apply IH.
Qed.

Lemma erase_sorted {V} (k : Z) (m : list (Z * V)) :
  SeqMap.sorted m → SeqMap.sorted (SeqMap.erase k m).
Proof.
  destruct m as [|[k' v] m]; simpl; [done|]. intros Hm.
  destruct (k' =? k); simpl.
  - by apply (sorted_from_sorted k').
  - by apply erase_sorted_from.
Qed.

(** In a sorted map a key occurs once: [find] sees the entry of the key. *)
Lemma sorted_from_keys {V} (lo : Z) (m : list (Z * V)) (k : Z) :
  SeqMap.sorted_from lo m → k ∈ SeqMap.keys m → lo < k.
Proof.
  revert lo. induction m as [|[k' v] m IH]; intros lo; simpl.
  - intros _ Hin. by apply elem_of_nil in Hin.
  - intros [Hlo Hm]. rewrite elem_of_cons. intros [->|Hin]; [done|].
    specialize (IH k' Hm Hin). lia.
Qed.

Lemma find_sorted {V} (m : list (Z * V)) (k : Z) (v : V) :
  SeqMap.sorted m → (k, v) ∈ m → SeqMap.find k m = Some v.
Proof.
  induction m as [|[k' v'] m IH]; simpl.
  - intros _ Hin. by apply elem_of_nil in Hin.
  - intros Hm. rewrite elem_of_cons. intros [[= -> ->]|Hin].
    + by rewrite Z.eqb_refl.
    + assert (Hlt : k' < k).
      { apply (sorted_from_keys k' m k Hm).
        unfold SeqMap.keys. apply list_elem_of_fmap. by exists (k, v). }
      destruct (Z.eqb_spec k' k) as [?|_]; [lia|].
      apply IH; [by apply (sorted_from_sorted k')|done].
Qed.

(** ** Per-peer circuit state *)

Section CircuitDataClaims.
Context {P : Platform}.
Import LLCircuitData.

Lemma sweep_eq now timeout entries queue lost :
  sweep now timeout entries queue lost =
    (List.filter (λ kp, negb (timed_out now timeout kp.2)) entries,
     queue ++
       map (λ kp, LLPacketBuffer.incrementRetryCount kp.2)
         (List.filter
            (λ kp, timed_out now timeout kp.2 && retry_allowed kp.2)
            entries),
     Nat.iter
       (length
          (List.filter
             (λ kp, timed_out now timeout kp.2 && negb (retry_allowed kp.2))
             entries))
       u32_incr lost).
Proof.
  revert queue lost.
  induction entries as [|[k p] rest IH]; intros queue lost.
  - simpl. by rewrite app_nil_r.
  - cbn [sweep List.filter snd].
    change (duration_gt (now - LLPacketBuffer.getSentTime p) timeout)
      with (timed_out now timeout p).
    change (LLPacketBuffer.getRetryCount
              (LLPacketBuffer.incrementRetryCount p) <? 3)
      with (retry_allowed p).
    destruct (timed_out now timeout p), (retry_allowed p);
      cbn [negb andb map length snd]; rewrite IH; try done.
    + by rewrite <- app_assoc.
    + by rewrite Nat.iter_succ_r.
Qed.

(** The unacked map stays a well-formed [std::map] (strictly ascending
    keys) under the operations that change it. *)
Lemma unacked_sorted_preserved now id packet timeout (c : LLCircuitData.t) :
  SeqMap.sorted (mUnackedPackets c) →
  SeqMap.sorted (mUnackedPackets (addReliablePacket now id packet c))
  ∧ SeqMap.sorted (mUnackedPackets (ackReliablePacket now id c))
  ∧ SeqMap.sorted (mUnackedPackets (checkForTimeouts now timeout c)).
Proof.
  intros Hsorted. split; [|split].
  - unfold addReliablePacket. destruct packet; [|done]. simpl.
    by apply insert_sorted.
  - unfold ackReliablePacket. destruct (SeqMap.find _ _); [|done]. simpl.
    by apply erase_sorted.
  - unfold checkForTimeouts. rewrite sweep_eq. simpl. by apply filter_sorted.
Qed.

(** C1.  [checkForTimeouts] keeps exactly the unacked entries whose age does
    not exceed the timeout, unchanged and in order.  Every entry whose age
    exceeds it leaves the unacked map with its retry count incremented: when
    the incremented count is below 3 it is appended to the retry queue,
    otherwise it is dropped and counted, [mPacketsLost] being incremented (as
    a [U32]) once for each dropped entry. *)
Theorem checkForTimeouts_sweep (now : Z) (timeout : F32)
    (c : LLCircuitData.t) :
  let c' := checkForTimeouts now timeout c in
  mUnackedPackets c' =
    List.filter (λ kp, negb (timed_out now timeout kp.2)) (mUnackedPackets c)
  ∧ mRetryQueue c' =
      mRetryQueue c ++
      map (λ kp, LLPacketBuffer.incrementRetryCount kp.2)
        (requeued now timeout c)
  ∧ mPacketsLost c' =
      Nat.iter (length (dropped now timeout c)) u32_incr (mPacketsLost c)
  ∧ (∀ kp, dropped now timeout c = [kp] →
       mPacketsLost c' = wrap32 (mPacketsLost c + 1))
  ∧ ∀ k p, (k, p) ∈ mUnackedPackets c →
      (timed_out now timeout p = true → retry_allowed p = true →
         ((k, p) ∉ mUnackedPackets c')
         ∧ LLPacketBuffer.incrementRetryCount p ∈ mRetryQueue c')
      ∧ (timed_out now timeout p = true → retry_allowed p = false →
           ((k, p) ∉ mUnackedPackets c')
           ∧ (k, p) ∈ dropped now timeout c)
      ∧ (timed_out now timeout p = false → (k, p) ∈ mUnackedPackets c').
Proof.
  unfold checkForTimeouts, requeued, dropped. rewrite sweep_eq. cbn zeta.
  cbn [mUnackedPackets mRetryQueue mPacketsLost].
  split; [done|]. split; [done|]. split; [done|].
  split; [by intros kp ->|].
  intros k p Hin. apply list_elem_of_In in Hin.
  split; [|split].
  - intros Hto Hretry. split.
    + rewrite list_elem_of_In, filter_In. simpl. rewrite Hto.
      intros [_ ?]. done.
    + apply list_elem_of_In, in_or_app. right. apply in_map_iff.
      exists (k, p). split; [done|]. apply filter_In. simpl.
      by rewrite Hto, Hretry.
  - intros Hto Hretry. split.
    + rewrite list_elem_of_In, filter_In. simpl. rewrite Hto.
      intros [_ ?]. done.
    + apply list_elem_of_In, filter_In. simpl. by rewrite Hto, Hretry.
  - intros Hto. apply list_elem_of_In, filter_In. simpl. by rewrite Hto.
Qed.

(** [checkPacketInID] fails exactly when the loss percentage divides by
    zero. *)
Lemma checkPacketInID_None now id receive_resent (c : LLCircuitData.t) :
  checkPacketInID now id receive_resent c = None
  ↔ 0 < mPacketsIn (classify_update now id c).2
    ∧ wrap32 (mPacketsIn (classify_update now id c).2
              + mPacketsLost (classify_update now id c).2) = 0.
Proof.
  unfold checkPacketInID.
  destruct (classify_update now id c) as [cl c1]. cbn [snd].
  destruct (Z.ltb_spec 0 (mPacketsIn c1)) as [Hpos|Hzero].
  - unfold u32_div.
    destruct (Z.eqb_spec (wrap32 (mPacketsIn c1 + mPacketsLost c1)) 0)
      as [Hdiv|Hdiv].
    + split; [done|done].
    + split; [done|]. intros [_ ?]. done.
  - split; [done|]. intros [? _]. lia.
Qed.

(** The calls that return.  On a fresh circuit the inbound sequence numbers
    0, 1, 2, 2, 4 take the branches in-order, in-order, in-order,
    duplicate-or-reordered, in-order-after-gap and leave [mPacketsLost = 1]
    and [mPacketsIn = 5].  When the sequence number exceeds
    [mNextIncomingSequence] and the loss percentage computed at the end of
    the call does not divide by zero, the gap is added to [mPacketsLost] and
    [mNextIncomingSequence] becomes the sequence number plus one (both as
    [U32]). *)
Theorem checkPacketInID_classification (now : Z) (host : LLHost)
    (receive_resent : bool) :
  (∃ c', record_inbound_all now receive_resent [0; 1; 2; 2; 4]
           (LLCircuitData.new now host)
         = Some ([InOrder; InOrder; InOrder; DuplicateOrReordered;
                  InOrderAfterGap], c')
         ∧ mPacketsLost c' = 1 ∧ mPacketsIn c' = 5)
  ∧ ∀ (now' id : Z) (c : LLCircuitData.t),
      mNextIncomingSequence c < id →
      (wrap32 (mPacketsIn c + 1) = 0
       ∨ wrap32 (wrap32 (mPacketsIn c + 1)
                 + wrap32 (mPacketsLost c + (id - mNextIncomingSequence c)))
         ≠ 0) →
      ∃ c', checkPacketInID now' id receive_resent c
            = Some (InOrderAfterGap, c')
          ∧ mPacketsLost c'
            = wrap32 (mPacketsLost c + (id - mNextIncomingSequence c))
          ∧ mNextIncomingSequence c' = wrap32 (id + 1)
          ∧ mPacketsIn c' = wrap32 (mPacketsIn c + 1).
Proof.
  split.
  - vm_compute. eexists. split; [reflexivity|]. split; reflexivity.
  - intros now' id c Hgap Hdef.
    unfold checkPacketInID, classify_update.
    apply Z.ltb_lt in Hgap. rewrite Hgap.
    cbn [mPacketsIn mPacketsLost]. rewrite wrap32_add_wrap32_r.
    destruct (0 <? wrap32 (mPacketsIn c + 1)) eqn:Hin.
    + destruct Hdef as [Hz|Hnz]; [rewrite Hz in Hin; done|].
      unfold u32_div. apply Z.eqb_neq in Hnz. rewrite Hnz.
      eexists. split; [reflexivity|]. done.
    + eexists. split; [reflexivity|]. done.
Qed.

(** C2.  The gap rule fails where the loss percentage divides by zero.  On
    a fresh circuit the sequence number 0xFFFFFFFF exceeds the expected
    counter 0: the call counts the packet and adds the gap 0xFFFFFFFF to
    [mPacketsLost], and then divides by [mPacketsIn + mPacketsLost], which
    as a [U32] has wrapped to 0.  The guard [mPacketsIn > 0] in front of the
    division does not test the divisor.  The same happens with sequence
    number 0xFFFFFFFE after the sequence numbers 0, 0, where neither the gap
    added to [mPacketsLost] nor the sequence number plus one wraps. *)
Theorem checkPacketInID_gap_divides_by_zero (now : Z) (host : LLHost)
    (receive_resent : bool) :
  let c := LLCircuitData.new now host in
  let c1 := (classify_update now 0xFFFFFFFF c).2 in
  mNextIncomingSequence c < 0xFFFFFFFF
  ∧ (classify_update now 0xFFFFFFFF c).1 = InOrderAfterGap
  ∧ mPacketsIn c1 = 1
  ∧ mPacketsLost c1 = 0xFFFFFFFF
  ∧ wrap32 (mPacketsIn c1 + mPacketsLost c1) = 0
  ∧ checkPacketInID now 0xFFFFFFFF receive_resent c = None
  ∧ ∃ c2, record_inbound_all now receive_resent [0; 0] c
          = Some ([InOrder; DuplicateOrReordered], c2)
        ∧ mNextIncomingSequence c2 < 0xFFFFFFFE
        ∧ mPacketsLost c2 + (0xFFFFFFFE - mNextIncomingSequence c2)
          < 2 ^ 32
        ∧ 0xFFFFFFFE + 1 < 2 ^ 32
        ∧ checkPacketInID now 0xFFFFFFFE receive_resent c2 = None.
Proof.
  cbn zeta.
  split; [reflexivity|]. split; [reflexivity|]. split; [reflexivity|].
  split; [reflexivity|]. split; [reflexivity|]. split; [reflexivity|].
  eexists. split; [reflexivity|].
  split; [reflexivity|]. split; [reflexivity|]. split; reflexivity.
Qed.

(** C9.  Acknowledging a sequence number that is not in the unacked map
    changes nothing: [ackReliablePacket] returns the circuit it was given, so
    the unacked map, the cached oldest-unacked, both RTT values and every
    packet counter are unchanged. *)
Theorem ackReliablePacket_absent_noop (now s : Z) (c : LLCircuitData.t) :
  s ∉ SeqMap.keys (mUnackedPackets c) →
  ackReliablePacket now s c = c.
Proof.
  intros Habsent. apply find_None_not_key in Habsent.
  unfold ackReliablePacket. by rewrite Habsent.
Qed.

End CircuitDataClaims.

Lemma ackReliablePacket_absent_noop_witness :
  SeqMap.keys (LLCircuitData.mUnackedPackets sample_circuit) = [0; 1; 2]
  ∧ (7 ∉ SeqMap.keys (LLCircuitData.mUnackedPackets sample_circuit))
  ∧ LLCircuitData.ackReliablePacket (9 * second) 7 sample_circuit
    = sample_circuit.
Proof.
  assert (Habsent : 7 ∉ SeqMap.keys
                          (LLCircuitData.mUnackedPackets sample_circuit)).
  { apply find_None_not_key. reflexivity. }
  split; [reflexivity|]. split; [exact Habsent|].
  apply (ackReliablePacket_absent_noop (P:=sample_platform)). exact Habsent.
Defined.

Lemma checkForTimeouts_sweep_witness :
  let now := 10 * second in
  let c' := LLCircuitData.checkForTimeouts now sample_timeout sample_circuit in
  let p0 := LLPacketBuffer.mk [1; 0; 0; 0; 0; 1] 0 (1 * second) 0 in
  let p1 := LLPacketBuffer.mk [1; 0; 0; 0; 0; 80] 1 (2 * second) 2 in
  let p2 := LLPacketBuffer.mk [1; 0; 0; 0; 0; 3] 2 (8 * second) 0 in
  LLCircuitData.mUnackedPackets sample_circuit = [(0, p0); (1, p1); (2, p2)]
  ∧ LLCircuitData.mPacketsLost c' = 1
  ∧ ((0, p0) ∉ LLCircuitData.mUnackedPackets c')
  ∧ LLPacketBuffer.incrementRetryCount p0 ∈ LLCircuitData.mRetryQueue c'
  ∧ ((1, p1) ∉ LLCircuitData.mUnackedPackets c')
  ∧ (1, p1) ∈ LLCircuitData.dropped (P:=sample_platform) now sample_timeout sample_circuit
  ∧ (2, p2) ∈ LLCircuitData.mUnackedPackets c'.
Proof.
  intros now c' p0 p1 p2.
  destruct (checkForTimeouts_sweep (P:=sample_platform) now sample_timeout
              sample_circuit)
    as (_ & _ & Hlost & _ & Hentry).
  assert (Hmap : LLCircuitData.mUnackedPackets sample_circuit
                 = [(0, p0); (1, p1); (2, p2)]) by reflexivity.
  split; [exact Hmap|]. split; [exact Hlost|].
  destruct (Hentry 0 p0) as ([Hgone0 Hqueued0] & _ & _);
    [rewrite Hmap; apply list_elem_of_here | reflexivity | reflexivity |].
  destruct (Hentry 1 p1) as (_ & [Hgone1 Hdropped1] & _);
    [rewrite Hmap; apply list_elem_of_further, list_elem_of_here
    | reflexivity | reflexivity |].
  destruct (Hentry 2 p2) as (_ & _ & Hkept2);
    [rewrite Hmap; do 2 apply list_elem_of_further; apply list_elem_of_here|].
  repeat split; try assumption. apply Hkept2. reflexivity.
Defined.

Lemma checkPacketInID_classification_witness :
  LLCircuitData.mNextIncomingSequence sample_circuit < 4
  ∧ ∃ c', LLCircuitData.checkPacketInID (9 * second) 4 false sample_circuit
          = Some (InOrderAfterGap, c')
        ∧ LLCircuitData.mPacketsLost c' = 4
        ∧ LLCircuitData.mNextIncomingSequence c' = 5
        ∧ LLCircuitData.mPacketsIn c' = 1.
Proof.
  split; [reflexivity|].
  apply (proj2 (checkPacketInID_classification (P:=sample_platform)
                  0 sim_host false) (9 * second) 4 sample_circuit).
  - reflexivity.
  - right. vm_compute. discriminate.
Defined.

(** ** The circuit table *)

Section CircuitTableClaims.
Context {P : Platform}.
Import LLCircuit.

Lemma addCircuit_full now host (t0 : LLCircuit.t) :
  mMaxCircuits t0 ≤ getNumCircuits t0 → addCircuit now host t0 = (None, t0).
Proof.
  intros Hfull. unfold addCircuit.
  apply Z.leb_le in Hfull. by rewrite Hfull.
Qed.

Lemma addCircuit_room now host (t0 : LLCircuit.t) :
  getNumCircuits t0 < mMaxCircuits t0 →
  addCircuit now host t0
  = (Some (LLCircuitData.new now host),
     store host (LLCircuitData.new now host) t0).
Proof.
  intros Hroom. unfold addCircuit.
  apply Z.leb_gt in Hroom. by rewrite Hroom.
Qed.

Lemma findOrAddCircuit_present now host c (t0 : LLCircuit.t) :
  findCircuit host t0 = Some c → findOrAddCircuit now host t0 = (Some c, t0).
Proof. intros Hfind. unfold findOrAddCircuit. by rewrite Hfind. Qed.

(** Creating circuits for distinct new hosts while there is room. *)
Lemma addAll_fresh now hosts : ∀ t0 : LLCircuit.t,
  NoDup hosts →
  (∀ h, h ∈ hosts → mCircuitData t0 !! h = None) →
  getNumCircuits t0 + Z.of_nat (length hosts) ≤ mMaxCircuits t0 →
  mMaxCircuits (addAll now hosts t0) = mMaxCircuits t0
  ∧ getNumCircuits (addAll now hosts t0)
    = getNumCircuits t0 + Z.of_nat (length hosts)
  ∧ ∀ h, mCircuitData (addAll now hosts t0) !! h
         = if decide (h ∈ hosts) then Some (LLCircuitData.new now h)
           else mCircuitData t0 !! h.
Proof.
  induction hosts as [|h0 hosts IH]; intros t0 Hnd Hnew Hroom.
  - simpl. split; [done|]. split; [lia|]. intros h.
    destruct (decide (h ∈ [])) as [Hin|_]; [by apply elem_of_nil in Hin|done].
  - apply NoDup_cons in Hnd as [Hh0 Hnd].
    change (addAll now (h0 :: hosts) t0)
      with (addAll now hosts (findOrAddCircuit now h0 t0).2).
    unfold findOrAddCircuit, findCircuit.
    rewrite (Hnew h0) by apply list_elem_of_here.
    rewrite addCircuit_room by (simpl in Hroom; lia).
    cbn [snd].
    destruct (IH (store h0 (LLCircuitData.new now h0) t0)) as (Hmax & Hnum & Hget).
    + done.
    + intros h Hh. simpl. rewrite lookup_insert_ne.
      * apply Hnew. by apply list_elem_of_further.
      * intros ->. done.
    + unfold getNumCircuits, store in *. simpl in *.
      rewrite map_size_insert_None by (apply Hnew, list_elem_of_here). lia.
    + rewrite Hmax, Hnum. split; [done|]. split.
      * unfold getNumCircuits, store. simpl.
        rewrite map_size_insert_None by (apply Hnew, list_elem_of_here).
        simpl length. lia.
      * intros h. rewrite Hget. simpl.
        destruct (decide (h ∈ hosts)) as [Hin|Hnin].
        -- rewrite decide_True; [done|by apply list_elem_of_further].
        -- destruct (decide (h = h0)) as [->|Hne].
           ++ rewrite lookup_insert_eq.
              rewrite decide_True; [done|apply list_elem_of_here].
           ++ rewrite lookup_insert_ne by done.
              rewrite decide_False; [done|].
              rewrite elem_of_cons. tauto.
Qed.

(** Acknowledging through the table a sequence number that the host's
    circuit does not hold leaves the table as it was. *)
Lemma ackReliablePacket_table_absent now host id (t0 : LLCircuit.t) :
  (∀ c, findCircuit host t0 = Some c →
        SeqMap.find id (LLCircuitData.mUnackedPackets c) = None) →
  ackReliablePacket now host id t0 = t0.
Proof.
  intros Habsent. unfold ackReliablePacket.
  destruct (findCircuit host t0) as [c|] eqn:Hfind; [|done].
  unfold LLCircuitData.ackReliablePacket. rewrite (Habsent c eq_refl).
  unfold store, set_mCircuitData. destruct t0 as [data ? ? ?]. simpl in *.
  f_equal. by apply insert_id.
Qed.

(** C7.  Starting from an empty table, once circuits were created for
    [mMaxCircuits] distinct hosts through the find-or-add idiom, a request
    for a further host is refused ([nullptr]): no circuit is created and the
    table is unchanged, so every host added before is still found with its
    circuit and is still served by the idiom. *)
Theorem addCircuit_capacity_exceeded (now now' : Z) (hosts : list LLHost)
    (h : LLHost) (t0 : LLCircuit.t) :
  mCircuitData t0 = ∅ →
  NoDup hosts →
  Z.of_nat (length hosts) = mMaxCircuits t0 →
  h ∉ hosts →
  let t1 := addAll now hosts t0 in
  addCircuit now' h t1 = (None, t1)
  ∧ findOrAddCircuit now' h t1 = (None, t1)
  ∧ findCircuit h t1 = None
  ∧ ∀ h', h' ∈ hosts →
      findCircuit h' t1 = Some (LLCircuitData.new now h')
      ∧ findOrAddCircuit now' h' t1 = (Some (LLCircuitData.new now h'), t1).
Proof.
  intros Hempty Hnd Hlen Hnew t1.
  destruct (addAll_fresh now hosts t0 Hnd) as (Hmax & Hnum & Hget).
  { intros h' _. rewrite Hempty. apply lookup_empty. }
  { unfold getNumCircuits. rewrite Hempty, map_size_empty. lia. }
  assert (Hfull : mMaxCircuits t1 ≤ getNumCircuits t1).
  { subst t1. rewrite Hmax, Hnum. unfold getNumCircuits.
    rewrite Hempty, map_size_empty. lia. }
  assert (Hnone : findCircuit h t1 = None).
  { unfold findCircuit. subst t1. rewrite Hget, decide_False by done.
    rewrite Hempty. apply lookup_empty. }
  split; [by apply addCircuit_full|].
  split; [unfold findOrAddCircuit; rewrite Hnone; by apply addCircuit_full|].
  split; [done|].
  intros h' Hin.
  assert (Hsome : findCircuit h' t1 = Some (LLCircuitData.new now h')).
  { unfold findCircuit. subst t1. by rewrite Hget, decide_True. }
  split; [done|]. by apply findOrAddCircuit_present.
Qed.

(** C10.  When the table is at capacity and the host has no circuit,
    [nextPacketID] returns 0 and leaves the table as it was; 0 is also what
    the first call for a new host returns when there is room and a circuit
    is created. *)
Theorem nextPacketID_at_capacity (now : Z) (host : LLHost)
    (t0 : LLCircuit.t) :
  mMaxCircuits t0 ≤ getNumCircuits t0 →
  findCircuit host t0 = None →
  nextPacketID now host t0 = (0, t0)
  ∧ ∀ t1 : LLCircuit.t,
      getNumCircuits t1 < mMaxCircuits t1 →
      findCircuit host t1 = None →
      (nextPacketID now host t1).1 = 0
      ∧ is_Some (findCircuit host (nextPacketID now host t1).2).
Proof.
  intros Hfull Hnone. split.
  - unfold nextPacketID, findOrAddCircuit. rewrite Hnone.
    by rewrite addCircuit_full.
  - intros t1 Hroom Hnone1.
    unfold nextPacketID, findOrAddCircuit. rewrite Hnone1.
    rewrite addCircuit_room by done. simpl. split; [done|].
    unfold findCircuit. simpl. rewrite lookup_insert_eq. by eexists.
Qed.

End CircuitTableClaims.

Lemma sample_hosts_NoDup : NoDup sample_hosts.
Proof.
  unfold sample_hosts. apply NoDup_fmap_2; [|apply NoDup_seqZ].
  intros x y Heq. by inversion Heq.
Qed.

Lemma sim_host_not_sample : sim_host ∉ sample_hosts.
Proof.
  unfold sample_hosts. intros Hin. apply list_elem_of_fmap in Hin.
  destruct Hin as (port & Heq & _). inversion Heq.
Qed.

Lemma addCircuit_capacity_exceeded_witness :
  LLCircuit.mCircuitData (LLCircuit.new (P:=sample_platform)) = ∅
  ∧ NoDup sample_hosts
  ∧ Z.of_nat (length sample_hosts)
    = LLCircuit.mMaxCircuits (LLCircuit.new (P:=sample_platform))
  ∧ (sim_host ∉ sample_hosts)
  ∧ LLCircuit.findOrAddCircuit (9 * second) sim_host full_table
    = (None, full_table)
  ∧ LLCircuit.findCircuit ("10.0.0.1"%string, 256) full_table
    = Some (LLCircuitData.new 0 ("10.0.0.1"%string, 256)).
Proof.
  pose proof (addCircuit_capacity_exceeded (P:=sample_platform) 0 (9 * second)
                sample_hosts sim_host LLCircuit.new eq_refl
                sample_hosts_NoDup eq_refl sim_host_not_sample)
    as (_ & Hrefused & _ & Hkept).
  split; [reflexivity|]. split; [exact sample_hosts_NoDup|].
  split; [reflexivity|]. split; [exact sim_host_not_sample|].
  split; [exact Hrefused|].
  apply (Hkept ("10.0.0.1"%string, 256)).
  unfold sample_hosts. apply list_elem_of_fmap. exists 256.
  split; [reflexivity|]. apply elem_of_seqZ. lia.
Defined.

Lemma full_table_at_capacity :
  LLCircuit.mMaxCircuits full_table ≤ LLCircuit.getNumCircuits full_table.
Proof. vm_compute. discriminate. Qed.

Lemma nextPacketID_at_capacity_witness :
  LLCircuit.mMaxCircuits full_table ≤ LLCircuit.getNumCircuits full_table
  ∧ LLCircuit.findCircuit sim_host full_table = None
  ∧ LLCircuit.nextPacketID (9 * second) sim_host full_table = (0, full_table)
  ∧ (LLCircuit.nextPacketID (9 * second) sim_host
       (LLCircuit.new (P:=sample_platform))).1 = 0.
Proof.
  assert (Hnone : LLCircuit.findCircuit sim_host full_table = None)
    by (vm_compute; reflexivity).
  destruct (nextPacketID_at_capacity (P:=sample_platform) (9 * second)
              sim_host full_table full_table_at_capacity Hnone)
    as [Hzero Hfresh].
  split; [exact full_table_at_capacity|]. split; [exact Hnone|].
  split; [exact Hzero|].
  apply (Hfresh LLCircuit.new); reflexivity.
Defined.

(** ** Wire header and zero coding *)

Lemma decodeZeroData_unchanged (buffer : list Z) (size : Z) :
  decodeZeroData buffer size = buffer.
Proof.
  unfold decodeZeroData.
  induction (seqZ 0 (size - 1)) as [|i l IH]; simpl; [done|].
  by destruct (_ && _).
Qed.

(** C3.  [decodeZeroData] returns every buffer as it received it.  The
    on-wire form [0xAA, 0x00, 0x03, 0xBB] of the payload
    [0xAA, 0x00, 0x00, 0x00, 0xBB] is therefore not expanded: zero decoding
    does not recover the payload. *)
Theorem decodeZeroData_does_not_expand :
  (∀ (buffer : list Z) (size : Z), decodeZeroData buffer size = buffer)
  ∧ decodeZeroData [0xAA; 0x00; 0x03; 0xBB] 4 = [0xAA; 0x00; 0x03; 0xBB]
  ∧ decodeZeroData [0xAA; 0x00; 0x03; 0xBB] 4
    ≠ [0xAA; 0x00; 0x00; 0x00; 0xBB].
Proof.
  split; [apply decodeZeroData_unchanged|].
  rewrite decodeZeroData_unchanged. split; [done|discriminate].
Qed.

Lemma lor_shiftl_8 (hi lo : Z) :
  0 ≤ lo < 2 ^ 8 → Z.lor (Z.shiftl hi 8) lo = hi * 2 ^ 8 + lo.
Proof.
  intros Hlo. rewrite Z.shiftl_mul_pow2 by lia.
  assert (Hdisjoint : Z.land (hi * 2 ^ 8) lo = 0).
  { apply Z.bits_inj'. intros n Hn. rewrite Z.land_spec, Z.bits_0.
    destruct (Z.lt_ge_cases n 8) as [Hlow|Hhigh].
    - by rewrite Z.mul_pow2_bits_low.
    - rewrite <- (Z.mod_small lo (2 ^ 8)) by done.
      rewrite Z.mod_pow2_bits_high by lia. apply andb_false_r. }
  rewrite <- Z.lxor_lor by done. by rewrite <- Z.add_nocarry_lxor.
Qed.

Lemma encode_msgnum_one (msgnum : Z) :
  0 ≤ msgnum < 0x100 → encode_msgnum msgnum = [msgnum].
Proof.
  intros Hr. unfold encode_msgnum, wrap8.
  destruct (Z.ltb_spec msgnum 256) as [_|?]; [|lia].
  by rewrite Z.mod_small.
Qed.

Lemma encode_msgnum_two (msgnum : Z) :
  0x100 ≤ msgnum < 0x10000 →
  encode_msgnum msgnum = [0xFF; msgnum / 2 ^ 8; msgnum mod 2 ^ 8].
Proof.
  intros Hr. unfold encode_msgnum, wrap8.
  destruct (Z.ltb_spec msgnum 256) as [?|_]; [lia|].
  destruct (Z.ltb_spec msgnum 65536) as [_|?]; [|lia].
  rewrite Z.shiftr_div_pow2 by lia.
  change 0xFF with (Z.ones 8) at 2. rewrite Z.land_ones by lia.
  rewrite Z.mod_mod by lia.
  rewrite (Z.mod_small (msgnum / 2 ^ 8)); [done|].
  split; [apply Z.div_pos; lia | apply Z.div_lt_upper_bound; lia].
Qed.

Lemma encode_msgnum_four (msgnum : Z) :
  0x10000 ≤ msgnum < 2 ^ 32 →
  encode_msgnum msgnum
  = [0xFF; 0xFF; msgnum mod 2 ^ 8; msgnum / 2 ^ 8 mod 2 ^ 8;
     msgnum / 2 ^ 16 mod 2 ^ 8; msgnum / 2 ^ 24 mod 2 ^ 8].
Proof.
  intros Hr. unfold encode_msgnum, U32_bytes, wrap8.
  destruct (Z.ltb_spec msgnum 256) as [?|_]; [lia|].
  destruct (Z.ltb_spec msgnum 65536) as [?|_]; [lia|].
  by rewrite !Z.shiftr_div_pow2 by lia.
Qed.

Lemma U32_le_bytes (x : Z) :
  0 ≤ x < 2 ^ 32 →
  x mod 2 ^ 8 + x / 2 ^ 8 mod 2 ^ 8 * 2 ^ 8 + x / 2 ^ 16 mod 2 ^ 8 * 2 ^ 16
  + x / 2 ^ 24 mod 2 ^ 8 * 2 ^ 24 = x.
Proof.
  intros Hx.
  change (2 ^ 8) with 256. change (2 ^ 16) with 65536.
  change (2 ^ 24) with 16777216. change (2 ^ 32) with 4294967296 in Hx.
  Z.div_mod_to_equations. lia.
Qed.

Lemma byte_at_5 (a0 a1 a2 a3 a4 a5 : Z) (l : list Z) :
  byte_at (a0 :: a1 :: a2 :: a3 :: a4 :: a5 :: l) 5 = a5.
Proof. reflexivity. Qed.

Lemma byte_at_6 (a0 a1 a2 a3 a4 a5 a6 : Z) (l : list Z) :
  byte_at (a0 :: a1 :: a2 :: a3 :: a4 :: a5 :: a6 :: l) 6 = a6.
Proof. reflexivity. Qed.

Lemma byte_at_7 (a0 a1 a2 a3 a4 a5 a6 a7 : Z) (l : list Z) :
  byte_at (a0 :: a1 :: a2 :: a3 :: a4 :: a5 :: a6 :: a7 :: l) 7 = a7.
Proof. reflexivity. Qed.

Lemma read_U32_7 (a0 a1 a2 a3 a4 a5 a6 b0 b1 b2 b3 : Z) (l : list Z) :
  read_U32 (a0 :: a1 :: a2 :: a3 :: a4 :: a5 :: a6 :: b0 :: b1 :: b2 :: b3
            :: l) 7
  = b0 + b1 * 2 ^ 8 + b2 * 2 ^ 16 + b3 * 2 ^ 24.
Proof. reflexivity. Qed.

(** C4 (as amended).  An opcode below 0xFF is emitted as one byte; an opcode
    above 0xFF and below 0x10000 as 0xFF followed by its two bytes, high
    byte first; an opcode from 0x10000 up as 0xFF, 0xFF followed by its four
    bytes, low byte first.  The decoder reads the opcode back, together
    with the payload offset, for opcodes below 0xFF, from 0x100 to 0xFEFF and
    from 0x10000 up (so for 0x20000); an opcode from 0xFF00 to 0xFFFF is
    emitted with the prefix 0xFF, 0xFF and is read as the four-byte form. *)
Theorem msgnum_header_roundtrip (msgnum : Z) :
  0 ≤ msgnum < 2 ^ 32 →
  (msgnum < 0xFF → encode_msgnum msgnum = [msgnum])
  ∧ (0xFF < msgnum < 0x10000 →
       encode_msgnum msgnum = [0xFF; msgnum / 2 ^ 8; msgnum mod 2 ^ 8])
  ∧ (0x10000 ≤ msgnum →
       encode_msgnum msgnum
       = [0xFF; 0xFF; msgnum mod 2 ^ 8; msgnum / 2 ^ 8 mod 2 ^ 8;
          msgnum / 2 ^ 16 mod 2 ^ 8; msgnum / 2 ^ 24 mod 2 ^ 8])
  ∧ (msgnum < 0xFF ∨ 0xFF < msgnum < 0xFF00 ∨ 0x10000 ≤ msgnum →
       ∀ (flags s0 s1 s2 s3 : Z) (payload : list Z),
         decode_msgnum
           ([flags; s0; s1; s2; s3] ++ encode_msgnum msgnum ++ payload)
         = (msgnum, 5 + Z.of_nat (length (encode_msgnum msgnum))))
  ∧ (0xFF00 ≤ msgnum < 0x10000 →
       ∀ (flags s0 s1 s2 s3 : Z) (payload : list Z),
         decode_msgnum
           ([flags; s0; s1; s2; s3] ++ encode_msgnum msgnum ++ payload)
         = (read_U32 ([flags; s0; s1; s2; s3] ++ encode_msgnum msgnum
                      ++ payload) 7, 11)).
Proof.
  intros Hr.
  split; [intros ?; apply encode_msgnum_one; lia|].
  split; [intros ?; apply encode_msgnum_two; lia|].
  split; [intros ?; apply encode_msgnum_four; lia|].
  split.
  - intros [Hone|[Htwo|Hfour]] flags s0 s1 s2 s3 payload.
    + rewrite encode_msgnum_one by lia. cbn [app length].
      unfold decode_msgnum. rewrite byte_at_5.
      destruct (Z.eqb_spec msgnum 0xFF) as [?|_]; [lia|done].
    + rewrite encode_msgnum_two by lia. cbn [app length].
      unfold decode_msgnum. rewrite byte_at_5, byte_at_6, byte_at_7.
      rewrite Z.eqb_refl.
      assert (Hhi : 0 ≤ msgnum / 2 ^ 8 < 0xFF).
      { split; [apply Z.div_pos; lia | apply Z.div_lt_upper_bound; lia]. }
      destruct (Z.eqb_spec (msgnum / 2 ^ 8) 0xFF) as [?|_]; [lia|].
      rewrite lor_shiftl_8 by (apply Z.mod_pos_bound; lia).
      f_equal. rewrite Z.mul_comm. symmetry. apply Z.div_mod. lia.
    + rewrite encode_msgnum_four by lia. cbn [app length].
      unfold decode_msgnum. rewrite byte_at_5, byte_at_6, read_U32_7.
      rewrite !Z.eqb_refl. f_equal. apply U32_le_bytes. lia.
  - intros Hamb flags s0 s1 s2 s3 payload.
    rewrite encode_msgnum_two by lia. cbn [app].
    unfold decode_msgnum. rewrite byte_at_5, byte_at_6.
    assert (Hhi : msgnum / 2 ^ 8 = 0xFF).
    { symmetry. apply Z.div_unique with (r := msgnum - 0xFF * 2 ^ 8); lia. }
    rewrite Hhi. by rewrite !Z.eqb_refl.
Qed.

Lemma msgnum_header_roundtrip_witness :
  0 ≤ 0x20000 < 2 ^ 32
  ∧ encode_msgnum 0x20000 = [0xFF; 0xFF; 0x00; 0x00; 0x02; 0x00]
  ∧ decode_msgnum ([0x01; 0; 0; 0; 0] ++ encode_msgnum 0x20000 ++ [7; 7])
    = (0x20000, 11).
Proof.
  assert (Hr : 0 ≤ 0x20000 < 2 ^ 32) by (split; [done|reflexivity]).
  destruct (msgnum_header_roundtrip 0x20000 Hr)
    as (_ & _ & Hfour & Hdecode & _).
  assert (Hwide : 0x10000 ≤ 0x20000) by discriminate.
  pose proof (Hfour Hwide) as Hbytes.
  pose proof (Hdecode (or_intror (or_intror Hwide)) 0x01 0 0 0 0 [7; 7])
    as Hback.
  split; [exact Hr|]. split.
  - vm_compute in Hbytes |- *. exact Hbytes.
  - vm_compute in Hback |- *. exact Hback.
Defined.

(** The claim fails as stated: opcode 0xFF is emitted in one byte, and
    opcode 0xFF00 is not read back. *)
Lemma msgnum_header_counterexample :
  (encode_msgnum 0xFF = [0xFF] ∧ ¬ 0xFF < 0xFF)
  ∧ (decode_msgnum ([0x00; 0; 0; 0; 0] ++ encode_msgnum 0xFF00
                    ++ [1; 2; 3; 4])).1 ≠ 0xFF00.
Proof.
  split; [split; [reflexivity|lia]|]. vm_compute. discriminate.
Qed.

(** ** The unacked map and the outbound counter *)

Section OutboundInvariant.
Context {P : Platform}.
Import LLCircuitData.

(** The operations of the outbound path keep every unacked key below the
    outbound counter (as long as the counter does not wrap). *)
Lemma nextPacketOutID_below_counter now (c : LLCircuitData.t) :
  0 ≤ mNextOutgoingSequence c < 2 ^ 32 - 1 →
  unacked_below_counter c →
  unacked_below_counter (nextPacketOutID now c).2
  ∧ (nextPacketOutID now c).1
    ≤ mNextOutgoingSequence (nextPacketOutID now c).2 - 1.
Proof.
  intros Hr Hinv. unfold unacked_below_counter, nextPacketOutID in *.
  simpl. unfold wrap32. rewrite Z.mod_small by lia.
  split; [|lia]. rewrite Forall_forall in *.
  intros k Hk. specialize (Hinv k Hk). lia.
Qed.

Lemma addReliablePacket_below_counter now id packet (c : LLCircuitData.t) :
  id ≤ mNextOutgoingSequence c - 1 →
  unacked_below_counter c →
  unacked_below_counter (addReliablePacket now id packet c).
Proof.
  intros Hid Hinv. unfold unacked_below_counter, addReliablePacket in *.
  destruct packet as [p|]; [|done]. simpl. rewrite Forall_forall in *.
  intros k Hk. apply keys_insert in Hk as [->|Hk]; [done|by apply Hinv].
Qed.

Lemma ackReliablePacket_below_counter now id (c : LLCircuitData.t) :
  unacked_below_counter c →
  unacked_below_counter (ackReliablePacket now id c).
Proof.
  intros Hinv. unfold unacked_below_counter, ackReliablePacket in *.
  destruct (SeqMap.find _ _); [|done]. simpl. rewrite Forall_forall in *.
  intros k Hk. by apply Hinv, (keys_erase id).
Qed.

Lemma checkForTimeouts_below_counter now timeout (c : LLCircuitData.t) :
  unacked_below_counter c →
  unacked_below_counter (checkForTimeouts now timeout c).
Proof.
  intros Hinv. unfold unacked_below_counter, checkForTimeouts in *.
  rewrite sweep_eq. simpl. rewrite Forall_forall in *.
  intros k Hk. by apply keys_filter, Hinv in Hk.
Qed.

End OutboundInvariant.

(** ** The message system *)

Section MessageSystemFacts.
Context {P : Platform}.
Import LLMessageSystem.

Lemma addReliablePacket_inbound_counters now host id packet
    (t0 : LLCircuit.t) (h : LLHost) (c' : LLCircuitData.t) :
  LLCircuit.findCircuit h (LLCircuit.addReliablePacket now host id packet t0)
  = Some c' →
  LLCircuitData.inbound_counters c'
  = match LLCircuit.findCircuit h t0 with
    | Some c => LLCircuitData.inbound_counters c
    | None => (0, 0, 0, 0)
    end.
Proof.
  unfold LLCircuit.addReliablePacket, LLCircuit.findOrAddCircuit,
    LLCircuit.addCircuit, LLCircuit.findCircuit, LLCircuit.store.
  destruct (LLCircuit.mCircuitData t0 !! host) as [circuit|] eqn:Hhost.
  - simpl. destruct (decide (h = host)) as [->|Hne].
    + rewrite lookup_insert_eq, Hhost. intros [= <-].
      by destruct packet.
    + by rewrite lookup_insert_ne by done; intros ->.
  - destruct (_ <=? _).
    + by intros ->.
    + simpl. destruct (decide (h = host)) as [->|Hne].
      * rewrite lookup_insert_eq, Hhost. intros [= <-]. by destruct packet.
      * by rewrite !lookup_insert_ne by done; intros ->.
Qed.

(** The header written by [newMessage]: the flags byte, four zero bytes in
    place of the sequence number, and the opcode bytes. *)
Lemma addMessageHeader_layout msgname (ms : LLMessageSystem.t)
    (tmpl : LLMessageTemplate.t) :
  mMessageTemplates ms !! msgname = Some tmpl →
  ∃ flags,
    addMessageHeader msgname ms
    = [flags; 0; 0; 0; 0]
      ++ encode_msgnum (LLMessageTemplate.getMessageNumber tmpl)
    ∧ (newMessage msgname ms).1 = true
    ∧ mSendBuffer (newMessage msgname ms).2 = addMessageHeader msgname ms.
Proof.
  intros Htmpl. unfold newMessage, addMessageHeader. rewrite Htmpl.
  eexists. split; [reflexivity|]. done.
Qed.

Lemma sendMessage_throttle now host (ms : LLMessageSystem.t) :
  mSendBuffer ms ≠ [] →
  Z.of_nat (length (mSendBuffer ms)) < 2 ^ 31 →
  let size := Z.of_nat (length (mSendBuffer ms)) in
  let result := (sendMessage now host ms).1 in
  if (checkOverflow (mThrottles ms) host size).1
  then bytes_sent result = size
       ∧ transmitted result = [(host, mSendBuffer ms)]
  else bytes_sent result = 0 ∧ transmitted result = [].
Proof.
  intros Hbuf Hsize. unfold sendMessage.
  destruct (mSendBuffer ms) as [|b buf] eqn:Hb; [done|].
  destruct (LLCircuit.nextPacketID _ _ _) as [packet_id circuit1].
  destruct (checkOverflow _ _ _) as [[|] throttles1]; simpl; [|done].
  unfold sendUDP, to_S32.
  rewrite Z.mod_small by (simpl length in *; lia).
  destruct (0 <? _); simpl; split; try done; lia.
Qed.

End MessageSystemFacts.

Section MessageSystemClaims.
Context {P : Platform}.
Import LLMessageSystem.

Lemma setHandlerFunc_lookup msgname handler (ms : LLMessageSystem.t) :
  mHandlerMap (setHandlerFunc msgname handler ms) !! msgname
  = Some (default [] (mHandlerMap ms !! msgname) ++ [handler]).
Proof. unfold setHandlerFunc. simpl. apply lookup_insert_eq. Qed.

(** C8 (as amended).  For every datagram of at least 6 bytes whose opcode is
    in the template index, [processMessage] succeeds and invokes exactly the
    handlers registered for the template's name, in registration order (a
    handler registered later is invoked after the earlier ones), whatever
    the sequence number of the datagram.  It does not run [checkPacketInID]:
    the inbound counters of every circuit are what they were, and a circuit
    created by the call has them at zero. *)
Theorem processMessage_dispatch (now : Z) (sender : LLHost)
    (buffer : list Z) (size : Z) (ms : LLMessageSystem.t)
    (tmpl : LLMessageTemplate.t) :
  6 ≤ size →
  mMessageNumbers ms !! (decode_msgnum buffer).1 = Some tmpl →
  let registered :=
    default [] (mHandlerMap ms !! LLMessageTemplate.getName tmpl) in
  let result := processMessage now sender buffer size ms in
  processed result.1 = true
  ∧ invoked result.1 = registered
  ∧ (∀ handler : HandlerId,
       invoked
         (processMessage now sender buffer size
            (setHandlerFunc (LLMessageTemplate.getName tmpl) handler ms)).1
       = registered ++ [handler])
  ∧ ∀ (h : LLHost) (c' : LLCircuitData.t),
      LLCircuit.findCircuit h (mCircuit result.2) = Some c' →
      LLCircuitData.inbound_counters c'
      = match LLCircuit.findCircuit h (mCircuit ms) with
        | Some c => LLCircuitData.inbound_counters c
        | None => (0, 0, 0, 0)
        end.
Proof.
  intros Hsize Htmpl registered result. subst registered result.
  unfold processMessage.
  destruct (Z.ltb_spec size 6) as [?|_]; [lia|].
  destruct (decode_msgnum buffer) as [msgnum offset]. simpl in Htmpl.
  cbn [mMessageNumbers setHandlerFunc]. rewrite Htmpl. cbn [fst snd].
  split; [done|]. split; [done|]. split.
  - intros handler. cbn [invoked mHandlerMap].
    by rewrite setHandlerFunc_lookup.
  - intros h c'. cbn [mCircuit set_out].
    destruct (negb (Z.land (byte_at buffer 0) LL_RELIABLE_FLAG =? 0)).
    + apply addReliablePacket_inbound_counters.
    + by intros ->.
Qed.

End MessageSystemClaims.

Lemma processMessage_dispatch_witness :
  let ms :=
    LLMessageSystem.setHandlerFunc "StartPingCheck" 4%nat
      (LLMessageSystem.setHandlerFunc "StartPingCheck" 9%nat
         (sample_system sample_platform)) in
  let result :=
    LLMessageSystem.processMessage (3 * second) sim_host reliable_datagram 6
      ms in
  6 ≤ 6
  ∧ LLMessageSystem.invoked result.1 = [9%nat; 4%nat]
  ∧ ∃ c', LLCircuit.findCircuit sim_host (LLMessageSystem.mCircuit result.2)
          = Some c'
        ∧ LLCircuitData.inbound_counters c' = (0, 0, 0, 0).
Proof.
  intros ms result.
  assert (Htmpl : LLMessageSystem.mMessageNumbers ms
                    !! (decode_msgnum reliable_datagram).1
                  = Some (LLMessageTemplate.new "StartPingCheck" 1 true))
    by (vm_compute; reflexivity).
  destruct (processMessage_dispatch (P:=sample_platform) (3 * second)
              sim_host reliable_datagram 6 ms _ ltac:(lia) Htmpl)
    as (_ & Hinvoked & _ & Hcounters).
  split; [lia|]. split; [exact Hinvoked|].
  specialize (Hcounters sim_host). fold result in Hcounters.
  destruct (LLCircuit.findCircuit sim_host
              (LLMessageSystem.mCircuit result.2)) as [c'|] eqn:Hfind.
  - exists c'. split; [reflexivity|]. rewrite (Hcounters c' eq_refl).
    vm_compute. reflexivity.
  - vm_compute in Hfind. discriminate.
Defined.

(** The claim fails as stated: a datagram that the sender's circuit would
    classify as a duplicate is dispatched to the handler again, and the
    dispatcher leaves no trace of the datagram in any circuit. *)
Lemma processMessage_dispatch_counterexample :
  let ms :=
    LLMessageSystem.setHandlerFunc "ChatFromSimulator" 0%nat
      (sample_system sample_platform) in
  let first :=
    LLMessageSystem.processMessage (1 * second) sim_host chat_datagram 6 ms in
  let again :=
    LLMessageSystem.processMessage (2 * second) sim_host chat_datagram 6
      first.2 in
  (∃ c,
     LLCircuitData.record_inbound_all (1 * second) false [0; 0]
       (LLCircuitData.new (P:=sample_platform) 0 sim_host)
     = Some ([InOrder; DuplicateOrReordered], c))
  ∧ LLMessageSystem.invoked first.1 = [0%nat]
  ∧ LLMessageSystem.invoked again.1 = [0%nat]
  ∧ LLCircuit.findCircuit sim_host (LLMessageSystem.mCircuit again.2) = None.
Proof.
  split.
  - vm_compute. eexists. reflexivity.
  - vm_compute. done.
Qed.

(** C5.  On a freshly built [StartPingCheck] message the throttle decision
    is applied the wrong way round.  With 1024 tokens in the bucket
    [checkOverflow] admits the 6 bytes (returns [false]), yet [sendMessage]
    returns 0, hands nothing to the transport and installs nothing.  With an
    empty bucket [checkOverflow] reports the overflow (returns [true]), yet
    the datagram is handed to the transport, 6 is returned and the packet
    is installed in the unacked map. *)
Theorem sendMessage_throttle_inverted :
  let admitted :=
    (LLMessageSystem.newMessage "StartPingCheck"
       (sample_system sample_platform)).2 in
  let rejected :=
    (LLMessageSystem.newMessage "StartPingCheck"
       (sample_system drained_platform)).2 in
  let sent_admitted := LLMessageSystem.sendMessage second sim_host admitted in
  let sent_rejected := LLMessageSystem.sendMessage second sim_host rejected in
  LLMessageSystem.mSendBuffer admitted = [0x01; 0; 0; 0; 0; 1]
  ∧ (checkOverflow (LLMessageSystem.mThrottles admitted) sim_host 6).1 = false
  ∧ sent_admitted.1
    = {| LLMessageSystem.bytes_sent := 0; LLMessageSystem.transmitted := [] |}
  ∧ LLCircuitData.mUnackedPackets
      <$> LLCircuit.findCircuit sim_host
            (LLMessageSystem.mCircuit sent_admitted.2)
    = Some []
  ∧ (checkOverflow (LLMessageSystem.mThrottles rejected) sim_host 6).1 = true
  ∧ sent_rejected.1
    = {| LLMessageSystem.bytes_sent := 6;
         LLMessageSystem.transmitted := [(sim_host, [0x01; 0; 0; 0; 0; 1])] |}
  ∧ SeqMap.keys
      <$> (LLCircuitData.mUnackedPackets
             <$> LLCircuit.findCircuit sim_host
                   (LLMessageSystem.mCircuit sent_rejected.2))
    = Some [0].
Proof. vm_compute. done. Qed.

(** C6.  Processing a received reliable datagram breaks the invariant: on a
    fresh system, a reliable datagram with sequence number 5 from a new
    host puts key 5 in the unacked map of that host's circuit, whose
    outbound counter is still 0. *)
Theorem processMessage_installs_inbound_sequence :
  let ms := sample_system sample_platform in
  let ms' :=
    (LLMessageSystem.processMessage second sim_host reliable_datagram 6 ms).2
  in
  LLCircuit.findCircuit sim_host (LLMessageSystem.mCircuit ms) = None
  ∧ ∃ c, LLCircuit.findCircuit sim_host (LLMessageSystem.mCircuit ms')
         = Some c
       ∧ LLCircuitData.mNextOutgoingSequence c = 0
       ∧ SeqMap.keys (LLCircuitData.mUnackedPackets c) = [5]
       ∧ ¬ LLCircuitData.unacked_below_counter c.
Proof.
  split; [vm_compute; reflexivity|].
  eexists. split; [vm_compute; reflexivity|].
  split; [reflexivity|]. split; [reflexivity|].
  intros Hinv. apply Forall_cons in Hinv as [Hkey _]. simpl in Hkey. lia.
Qed.

(** * Further properties of the code *)

(** ** The unacked map: install and acknowledge *)

(** ** Further properties of the ordered map *)

Lemma find_insert_eq {V} (k : Z) (v : V) (m : list (Z * V)) :
  SeqMap.find k (SeqMap.insert k v m) = Some v.
Proof.
  induction m as [|[k' v'] m IH]; simpl.
  - by rewrite Z.eqb_refl.
  - destruct (Z.ltb_spec k k') as [Hlt|Hge]; simpl.
    + by rewrite Z.eqb_refl.
    + destruct (Z.eqb_spec k k') as [->|Hne]; simpl.
      * by rewrite Z.eqb_refl.
      * destruct (Z.eqb_spec k' k) as [?|_]; [congruence|done].
Qed.

Lemma find_insert_ne {V} (k k2 : Z) (v : V) (m : list (Z * V)) :
  k ≠ k2 → SeqMap.find k2 (SeqMap.insert k v m) = SeqMap.find k2 m.
Proof.
  intros Hne. induction m as [|[k' v'] m IH]; simpl.
  - destruct (Z.eqb_spec k k2); [done|done].
  - destruct (Z.ltb_spec k k') as [Hlt|Hge]; simpl.
    + destruct (Z.eqb_spec k k2); [done|done].
    + destruct (Z.eqb_spec k k') as [->|Hne']; simpl.
      * destruct (Z.eqb_spec k' k2); [done|done].
      * by rewrite IH.
Qed.

Lemma find_erase_ne {V} (k k2 : Z) (m : list (Z * V)) :
  k ≠ k2 → SeqMap.find k2 (SeqMap.erase k m) = SeqMap.find k2 m.
Proof.
  intros Hne. induction m as [|[k' v'] m IH]; simpl; [done|].
  destruct (Z.eqb_spec k' k) as [->|Hne']; simpl.
  - destruct (Z.eqb_spec k k2); [done|done].
  - by rewrite IH.
Qed.

Lemma erase_insert_fresh {V} (k : Z) (v : V) (m : list (Z * V)) :
  k ∉ SeqMap.keys m → SeqMap.erase k (SeqMap.insert k v m) = m.
Proof.
  induction m as [|[k' v'] m IH]; simpl.
  - by rewrite Z.eqb_refl.
  - rewrite not_elem_of_cons. intros [Hne Hnin].
    destruct (Z.ltb_spec k k') as [Hlt|Hge]; simpl.
    + by rewrite Z.eqb_refl.
    + destruct (Z.eqb_spec k k') as [?|_]; [done|]. simpl.
      destruct (Z.eqb_spec k' k) as [?|_]; [congruence|].
      by rewrite IH.
Qed.

Lemma erase_not_key {V} (k : Z) (m : list (Z * V)) :
  SeqMap.sorted m → k ∉ SeqMap.keys (SeqMap.erase k m).
Proof.
  induction m as [|[k' v'] m IH]; simpl.
  - intros _. apply not_elem_of_nil.
  - intros Hm. destruct (Z.eqb_spec k' k) as [->|Hne]; simpl.
    + intros Hin. pose proof (sorted_from_keys k m k Hm Hin). lia.
    + rewrite not_elem_of_cons. split; [done|].
      apply IH. by apply (sorted_from_sorted k').
Qed.

Lemma length_erase {V} (k : Z) (v : V) (m : list (Z * V)) :
  SeqMap.find k m = Some v →
  length m = S (length (SeqMap.erase k m)).
Proof.
  induction m as [|[k' v'] m IH]; simpl; [done|].
  destruct (k' =? k); simpl; [done|]. intros Hf. by rewrite <- IH.
Qed.

Lemma sorted_head_least {V} (k : Z) (v : V) (m : list (Z * V)) :
  SeqMap.sorted ((k, v) :: m) → Forall (λ k', k ≤ k') (SeqMap.keys ((k, v) :: m)).
Proof.
  simpl. intros Hm. apply Forall_cons. split; [lia|].
  apply Forall_forall. intros k' Hin.
  pose proof (sorted_from_keys k m k' Hm Hin). lia.
Qed.

Section CircuitDataAcknowledge.
Context {P : Platform}.
Import LLCircuitData.

(** X1.  A packet installed under a sequence number that is not yet in the
    unacked map is found there, stamped with that number and the time of the
    call; acknowledging it afterwards gives the unacked map back as it was,
    and the RTT sample is the time between the two calls. *)
Theorem install_then_acknowledge (now now' id : Z) (p : LLPacketBuffer.t)
    (c : LLCircuitData.t) :
  id ∉ SeqMap.keys (mUnackedPackets c) →
  let c1 := addReliablePacket now id (Some p) c in
  let c2 := ackReliablePacket now' id c1 in
  SeqMap.find id (mUnackedPackets c1)
  = Some (LLPacketBuffer.setSentTime now (LLPacketBuffer.setSequence id p))
  ∧ (∀ k, k ≠ id →
       SeqMap.find k (mUnackedPackets c1) = SeqMap.find k (mUnackedPackets c))
  ∧ mUnackedPackets c2 = mUnackedPackets c
  ∧ mPingDelay c2 = f32_seconds (now' - now).
Proof.
  intros Hfresh c1 c2. subst c1 c2.
  unfold ackReliablePacket, addReliablePacket.
  cbn [mUnackedPackets]. rewrite find_insert_eq.
  split; [done|]. split; [intros k Hk; by apply find_insert_ne|].
  cbn [mUnackedPackets mPingDelay]. split; [by apply erase_insert_fresh|done].
Qed.

(** X2.  Acknowledging a packet that is in a well-formed unacked map removes
    exactly its key: the key is gone, the map is one entry shorter, every
    other sequence number is looked up as before, and the retry queue and
    all packet counters are untouched. *)
Theorem acknowledge_removes_key (now id : Z) (p : LLPacketBuffer.t)
    (c : LLCircuitData.t) :
  SeqMap.sorted (mUnackedPackets c) →
  SeqMap.find id (mUnackedPackets c) = Some p →
  let c' := ackReliablePacket now id c in
  (id ∉ SeqMap.keys (mUnackedPackets c'))
  ∧ getUnackedPacketCount c = getUnackedPacketCount c' + 1
  ∧ (∀ k, k ≠ id →
       SeqMap.find k (mUnackedPackets c') = SeqMap.find k (mUnackedPackets c))
  ∧ mRetryQueue c' = mRetryQueue c
  ∧ (mPacketsOut c', mNextOutgoingSequence c', inbound_counters c')
    = (mPacketsOut c, mNextOutgoingSequence c, inbound_counters c).
Proof.
  intros Hsorted Hfind c'. subst c'. unfold ackReliablePacket.
  rewrite Hfind. unfold getUnackedPacketCount, SeqMap.size.
  cbn [mUnackedPackets mRetryQueue].
  split; [by apply erase_not_key|].
  split; [rewrite (length_erase id p) by done; lia|].
  split; [intros k Hk; by apply find_erase_ne|]. done.
Qed.

(** X3.  After an acknowledgement that leaves a well-formed unacked map
    non-empty, the cached oldest-unacked number is the smallest key of the
    map. *)
Theorem acknowledge_refreshes_oldest (now id : Z) (p : LLPacketBuffer.t)
    (c : LLCircuitData.t) :
  SeqMap.sorted (mUnackedPackets c) →
  SeqMap.find id (mUnackedPackets c) = Some p →
  let c' := ackReliablePacket now id c in
  mUnackedPackets c' ≠ [] →
  mOldestUnackedPacket c' ∈ SeqMap.keys (mUnackedPackets c')
  ∧ Forall (λ k, mOldestUnackedPacket c' ≤ k)
      (SeqMap.keys (mUnackedPackets c')).
Proof.
  intros Hsorted Hfind c'. subst c'. unfold ackReliablePacket.
  rewrite Hfind. cbn [mUnackedPackets mOldestUnackedPacket].
  pose proof (erase_sorted id _ Hsorted) as Hsorted'.
  destruct (SeqMap.erase id (mUnackedPackets c)) as [|[k v] m]; [done|].
  intros _. split; [apply list_elem_of_here|].
  by apply (sorted_head_least k v m).
Qed.

End CircuitDataAcknowledge.

Lemma install_then_acknowledge_witness :
  let p := LLPacketBuffer.of_bytes [1; 0; 0; 0; 0; 2] in
  let c1 :=
    LLCircuitData.addReliablePacket (9 * second) 7 (Some p) sample_circuit in
  (7 ∉ SeqMap.keys (LLCircuitData.mUnackedPackets sample_circuit))
  ∧ SeqMap.find 7 (LLCircuitData.mUnackedPackets c1)
    = Some (LLPacketBuffer.mk [1; 0; 0; 0; 0; 2] 7 (9 * second) 0)
  ∧ LLCircuitData.mUnackedPackets
      (LLCircuitData.ackReliablePacket (10 * second) 7 c1)
    = LLCircuitData.mUnackedPackets sample_circuit.
Proof.
  intros p c1.
  assert (Habsent : 7 ∉ SeqMap.keys
                          (LLCircuitData.mUnackedPackets sample_circuit)).
  { apply find_None_not_key. reflexivity. }
  destruct (install_then_acknowledge (P:=sample_platform) (9 * second)
              (10 * second) 7 p sample_circuit Habsent)
    as (Hfind & _ & Hback & _).
  split; [exact Habsent|]. split; [exact Hfind|exact Hback].
Defined.

Lemma acknowledge_removes_key_witness :
  let p1 := LLPacketBuffer.mk [1; 0; 0; 0; 0; 80] 1 (2 * second) 2 in
  let c' := LLCircuitData.ackReliablePacket (9 * second) 1 sample_circuit in
  SeqMap.sorted (LLCircuitData.mUnackedPackets sample_circuit)
  ∧ SeqMap.find 1 (LLCircuitData.mUnackedPackets sample_circuit) = Some p1
  ∧ (1 ∉ SeqMap.keys (LLCircuitData.mUnackedPackets c'))
  ∧ LLCircuitData.getUnackedPacketCount sample_circuit
    = LLCircuitData.getUnackedPacketCount c' + 1.
Proof.
  intros p1 c'.
  assert (Hsorted : SeqMap.sorted
                      (LLCircuitData.mUnackedPackets sample_circuit)).
  { vm_compute. split; [reflexivity|]. split; [reflexivity|exact I]. }
  assert (Hfind : SeqMap.find 1
                    (LLCircuitData.mUnackedPackets sample_circuit)
                  = Some p1) by reflexivity.
  destruct (acknowledge_removes_key (P:=sample_platform) (9 * second) 1 p1
              sample_circuit Hsorted Hfind) as (Hgone & Hcount & _).
  split; [exact Hsorted|]. split; [exact Hfind|].
  split; [exact Hgone|exact Hcount].
Defined.

Lemma acknowledge_refreshes_oldest_witness :
  let p0 := LLPacketBuffer.mk [1; 0; 0; 0; 0; 1] 0 (1 * second) 0 in
  let c' := LLCircuitData.ackReliablePacket (9 * second) 0 sample_circuit in
  SeqMap.sorted (LLCircuitData.mUnackedPackets sample_circuit)
  ∧ SeqMap.find 0 (LLCircuitData.mUnackedPackets sample_circuit) = Some p0
  ∧ LLCircuitData.mUnackedPackets c' ≠ []
  ∧ LLCircuitData.mOldestUnackedPacket c'
    ∈ SeqMap.keys (LLCircuitData.mUnackedPackets c')
  ∧ LLCircuitData.mOldestUnackedPacket c' = 1.
Proof.
  intros p0 c'.
  assert (Hsorted : SeqMap.sorted
                      (LLCircuitData.mUnackedPackets sample_circuit)).
  { vm_compute. split; [reflexivity|]. split; [reflexivity|exact I]. }
  assert (Hfind : SeqMap.find 0
                    (LLCircuitData.mUnackedPackets sample_circuit)
                  = Some p0) by reflexivity.
  assert (Hrest : LLCircuitData.mUnackedPackets c' ≠ [])
    by (vm_compute; discriminate).
  destruct (acknowledge_refreshes_oldest (P:=sample_platform) (9 * second) 0
              p0 sample_circuit Hsorted Hfind Hrest) as (Hkey & _).
  split; [exact Hsorted|]. split; [exact Hfind|]. split; [exact Hrest|].
  split; [exact Hkey|reflexivity].
Defined.

(** ** Sequence numbers, inbound accounting and the sweep *)

Lemma wrap32_small (x : Z) : 0 ≤ x < 2 ^ 32 → wrap32 x = x.
Proof. intros Hx. unfold wrap32. by apply Z.mod_small. Qed.

Lemma filter_filter_neg {A} (f g : A → bool) (l : list A) :
  List.filter (λ x, f x && g x) (List.filter (λ x, negb (f x)) l) = [].
Proof.
  induction l as [|x l IH]; simpl; [done|].
  destruct (f x) eqn:Hf; simpl; [done|]. by rewrite Hf.
Qed.

Lemma filter_idem {A} (f : A → bool) (l : list A) :
  List.filter f (List.filter f l) = List.filter f l.
Proof.
  induction l as [|x l IH]; simpl; [done|].
  destruct (f x) eqn:Hf; simpl; [|done]. by rewrite Hf, IH.
Qed.

Lemma filter_split_length {A} (f g : A → bool) (l : list A) :
  length l
  = (length (List.filter (λ x, negb (f x)) l)
     + length (List.filter (λ x, f x && g x) l)
     + length (List.filter (λ x, f x && negb (g x)) l))%nat.
Proof.
  induction l as [|x l IH]; simpl; [done|].
  destruct (f x), (g x); simpl; lia.
Qed.

Section CircuitDataStreams.
Context {P : Platform}.
Import LLCircuitData.

Lemma nextPacketOutID_n_S now n (c : LLCircuitData.t) :
  nextPacketOutID_n now (S n) c
  = ((nextPacketOutID now c).1
       :: (nextPacketOutID_n now n (nextPacketOutID now c).2).1,
     (nextPacketOutID_n now n (nextPacketOutID now c).2).2).
Proof.
  cbn [nextPacketOutID_n]. destruct (nextPacketOutID now c) as [id c1].
  cbn [fst snd]. by destruct (nextPacketOutID_n now n c1).
Qed.

(** X4.  As long as the outbound counter does not wrap, [n] calls of
    [nextPacketOutID] hand out the [n] consecutive sequence numbers starting
    at the counter, advance the counter by [n] and count [n] packets sent;
    the unacked map is not touched. *)
Theorem nextPacketOutID_consecutive (now : Z) (n : nat)
    (c : LLCircuitData.t) :
  0 ≤ mNextOutgoingSequence c →
  mNextOutgoingSequence c + Z.of_nat n ≤ 2 ^ 32 - 1 →
  (nextPacketOutID_n now n c).1 = seqZ (mNextOutgoingSequence c) (Z.of_nat n)
  ∧ mNextOutgoingSequence (nextPacketOutID_n now n c).2
    = mNextOutgoingSequence c + Z.of_nat n
  ∧ mPacketsOut (nextPacketOutID_n now n c).2
    = Nat.iter n u32_incr (mPacketsOut c)
  ∧ mUnackedPackets (nextPacketOutID_n now n c).2 = mUnackedPackets c.
Proof.
  revert c. induction n as [|n IH]; intros c Hlo Hhi.
  - simpl. split; [done|]. split; [lia|done].
  - rewrite nextPacketOutID_n_S. cbn [fst snd].
    assert (Hnext : mNextOutgoingSequence (nextPacketOutID now c).2
                    = mNextOutgoingSequence c + 1).
    { simpl. apply wrap32_small. lia. }
    destruct (IH (nextPacketOutID now c).2) as (Hids & Hctr & Hout & Hmap);
      [rewrite Hnext; lia..|].
    rewrite Hids, Hctr, Hout, Hmap, Hnext.
    split.
    + rewrite (seqZ_cons _ (Z.of_nat (S n))) by lia.
      f_equal. f_equal. lia.
    + split; [lia|]. split; [|done].
      by rewrite Nat.iter_succ_r.
Qed.

(** X5.  A gap-free stream is never charged with loss: when the circuit
    expects [s] and receives [s, s+1, ..., s+n-1] (no counter wrapping),
    every packet takes the in-order branch, [mPacketsLost] stays as it was,
    [mPacketsIn] grows by [n] and the circuit then expects [s + n]. *)
Theorem in_order_stream (now : Z) (receive_resent : bool) (n : nat)
    (c : LLCircuitData.t) :
  0 ≤ mNextIncomingSequence c →
  mNextIncomingSequence c + Z.of_nat n ≤ 2 ^ 32 - 1 →
  0 ≤ mPacketsIn c → 0 ≤ mPacketsLost c →
  mPacketsIn c + mPacketsLost c + Z.of_nat n ≤ 2 ^ 32 - 1 →
  ∃ c', record_inbound_all now receive_resent
          (seqZ (mNextIncomingSequence c) (Z.of_nat n)) c
        = Some (replicate n InOrder, c')
      ∧ mPacketsLost c' = mPacketsLost c
      ∧ mPacketsIn c' = mPacketsIn c + Z.of_nat n
      ∧ mNextIncomingSequence c'
        = mNextIncomingSequence c + Z.of_nat n.
Proof.
  revert c. induction n as [|n IH]; intros c Hs Hsn Hin Hlost Hsum.
  - simpl. exists c. split; [done|]. split; [done|]. split; lia.
  - replace (Z.of_nat (S n)) with (Z.succ (Z.of_nat n)) by lia.
    rewrite seqZ_cons by lia. rewrite Z.pred_succ.
    cbn [record_inbound_all replicate].
    unfold checkPacketInID, classify_update.
    rewrite Z.ltb_irrefl, Z.eqb_refl. cbn [mPacketsIn mPacketsLost].
    rewrite (wrap32_small (mPacketsIn c + 1)) by lia.
    destruct (Z.ltb_spec 0 (mPacketsIn c + 1)) as [_|?]; [|lia].
    unfold u32_div.
    rewrite (wrap32_small (mPacketsIn c + 1 + mPacketsLost c)) by lia.
    destruct (Z.eqb_spec (mPacketsIn c + 1 + mPacketsLost c) 0) as [?|_];
      [lia|].
    set (c1 := set_mPacketLoss _ _).
    assert (Hnext : mNextIncomingSequence c1 = Z.succ (mNextIncomingSequence c)).
    { subst c1. simpl. rewrite wrap32_small by lia. lia. }
    assert (Hin1 : mPacketsIn c1 = mPacketsIn c + 1) by done.
    assert (Hlost1 : mPacketsLost c1 = mPacketsLost c) by done.
    destruct (IH c1) as (c' & Hrun & Hl & Hi & Hn); [lia..|].
    rewrite <- Hnext, Hrun. exists c'.
    split; [done|]. split; [congruence|]. split; lia.
Qed.

(** X6.  While the counters do not overflow, the loss percentage that
    [checkPacketInID] stores is [100 * lost / (received + lost)], a number
    between 0 and 100. *)
Theorem loss_percentage_bounded (now id : Z) (receive_resent : bool)
    (c c' : LLCircuitData.t) (cl : Classification) :
  checkPacketInID now id receive_resent c = Some (cl, c') →
  0 < mPacketsIn c' → 0 ≤ mPacketsLost c' →
  mPacketsLost c' * 100 < 2 ^ 32 →
  mPacketsIn c' + mPacketsLost c' < 2 ^ 32 →
  mPacketLoss c' = mPacketsLost c' * 100 / (mPacketsIn c' + mPacketsLost c')
  ∧ 0 ≤ mPacketLoss c' ≤ 100.
Proof.
  unfold checkPacketInID.
  destruct (classify_update now id c) as [cl1 c1].
  destruct (Z.ltb_spec 0 (mPacketsIn c1)) as [Hpos|Hzero].
  - unfold u32_div.
    destruct (Z.eqb_spec (wrap32 (mPacketsIn c1 + mPacketsLost c1)) 0)
      as [?|Hdiv]; [done|].
    intros [= <- <-]. simpl. intros _ Hlost Hmul Hsum.
    rewrite !wrap32_small by lia.
    split; [done|]. split.
    + apply Z.div_pos; lia.
    + apply Z.div_le_upper_bound; lia.
  - intros [= <- <-]. lia.
Qed.

(** X7.  A sweep accounts for every unacked packet: each one is kept, moved
    to the retry queue or dropped, and the retry queue grows by exactly the
    packets moved. *)
Theorem sweep_conserves_packets (now : Z) (timeout : F32)
    (c : LLCircuitData.t) :
  let c' := checkForTimeouts now timeout c in
  length (mUnackedPackets c)
  = (length (mUnackedPackets c') + length (requeued now timeout c)
     + length (dropped now timeout c))%nat
  ∧ length (mRetryQueue c')
    = (length (mRetryQueue c) + length (requeued now timeout c))%nat
  ∧ (length (mUnackedPackets c') ≤ length (mUnackedPackets c))%nat.
Proof.
  unfold checkForTimeouts, requeued, dropped. rewrite sweep_eq. cbn zeta.
  cbn [mUnackedPackets mRetryQueue].
  pose proof (filter_split_length (λ kp, timed_out now timeout kp.2)
                (λ kp, retry_allowed kp.2) (mUnackedPackets c)) as Hsplit.
  cbv beta in Hsplit. rewrite length_app, length_map. lia.
Qed.

(** X8.  A second sweep at the same instant with the same timeout changes
    nothing. *)
Theorem sweep_idempotent (now : Z) (timeout : F32) (c : LLCircuitData.t) :
  checkForTimeouts now timeout (checkForTimeouts now timeout c)
  = checkForTimeouts now timeout c.
Proof.
  unfold checkForTimeouts. rewrite !sweep_eq. cbn zeta.
  cbn [mUnackedPackets mRetryQueue mPacketsLost mLastReceiveTime mAlive
       mHost mBlocked mPacketsOut mPacketsIn mPacketLoss mLastSendTime
       mPingDelay mPingDelayAveraged mNextOutgoingSequence
       mNextIncomingSequence mOldestUnackedPacket mThrottles].
  rewrite !filter_filter_neg, filter_idem. simpl. rewrite app_nil_r.
  by destruct (_ <? _).
Qed.

(** X9.  The retry queue never receives a packet that has used up its
    retries: if every queued packet has a retry count below 3 before a
    sweep, so has every queued packet after it. *)
Theorem retry_queue_below_threshold (now : Z) (timeout : F32)
    (c : LLCircuitData.t) :
  Forall (λ p, LLPacketBuffer.getRetryCount p < 3) (mRetryQueue c) →
  Forall (λ p, LLPacketBuffer.getRetryCount p < 3)
    (mRetryQueue (checkForTimeouts now timeout c)).
Proof.
  intros Hqueue. unfold checkForTimeouts. rewrite sweep_eq. cbn zeta.
  cbn [mRetryQueue]. apply Forall_app. split; [done|].
  apply Forall_forall. intros p Hp.
  apply list_elem_of_In, in_map_iff in Hp as ([k q] & <- & Hin).
  apply filter_In in Hin as [_ Hcond]. simpl in Hcond.
  apply andb_true_iff in Hcond as [_ Hretry].
  unfold retry_allowed in Hretry. by apply Z.ltb_lt in Hretry.
Qed.

(** X10.  Inbound traffic keeps a circuit alive for 60 seconds: a sweep
    that runs no later than 60 seconds after a packet was recorded leaves
    the liveness flag as it was.  It never sets the flag: a dead circuit
    stays dead. *)
Theorem inbound_keeps_alive (t now id : Z) (receive_resent : bool)
    (timeout : F32) (c c1 : LLCircuitData.t) (cl : Classification) :
  checkPacketInID t id receive_resent c = Some (cl, c1) →
  now - t ≤ 60 * ticks_per_second →
  isAlive (checkForTimeouts now timeout c1) = isAlive c
  ∧ (isAlive c = false →
     ∀ now', isAlive (checkForTimeouts now' timeout c1) = false).
Proof.
  intros Hrec Hidle.
  assert (Hc1 : mLastReceiveTime c1 = t ∧ mAlive c1 = mAlive c).
  { unfold checkPacketInID, classify_update in Hrec.
    destruct (_ <? id); [|destruct (id =? _)];
      cbn [mPacketsIn mPacketsLost] in Hrec;
      destruct (0 <? _); try destruct (u32_div _ _);
      try discriminate; injection Hrec as <- <-; done. }
  destruct Hc1 as [Hlast Halive].
  unfold isAlive, checkForTimeouts.
  split.
  - destruct (sweep _ _ _ _ _) as [[kept queue] lost]. simpl.
    rewrite Hlast, Halive.
    by destruct (Z.ltb_spec (60 * ticks_per_second) (now - t)) as [?|_];
      [lia|].
  - intros Hdead now'.
    destruct (sweep _ _ _ _ _) as [[kept queue] lost]. simpl.
    rewrite Halive, Hdead. by destruct (_ <? _).
Qed.

End CircuitDataStreams.

Lemma nextPacketOutID_consecutive_witness :
  0 ≤ LLCircuitData.mNextOutgoingSequence sample_circuit
  ∧ LLCircuitData.mNextOutgoingSequence sample_circuit + Z.of_nat 3
    ≤ 2 ^ 32 - 1
  ∧ (LLCircuitData.nextPacketOutID_n (9 * second) 3 sample_circuit).1
    = seqZ 3 3
  ∧ LLCircuitData.mNextOutgoingSequence
      (LLCircuitData.nextPacketOutID_n (9 * second) 3 sample_circuit).2
    = 3 + 3.
Proof.
  assert (Hlo : 0 ≤ LLCircuitData.mNextOutgoingSequence sample_circuit)
    by (vm_compute; discriminate).
  assert (Hhi : LLCircuitData.mNextOutgoingSequence sample_circuit
                + Z.of_nat 3 ≤ 2 ^ 32 - 1) by (vm_compute; discriminate).
  destruct (nextPacketOutID_consecutive (P:=sample_platform) (9 * second) 3
              sample_circuit Hlo Hhi) as (Hids & Hnext & _).
  split; [exact Hlo|]. split; [exact Hhi|].
  split; [exact Hids|exact Hnext].
Defined.

Lemma in_order_stream_witness :
  let c := LLCircuitData.new (P:=sample_platform) 0 sim_host in
  0 ≤ LLCircuitData.mNextIncomingSequence c
  ∧ LLCircuitData.mNextIncomingSequence c + Z.of_nat 3 ≤ 2 ^ 32 - 1
  ∧ 0 ≤ LLCircuitData.mPacketsIn c
  ∧ 0 ≤ LLCircuitData.mPacketsLost c
  ∧ LLCircuitData.mPacketsIn c + LLCircuitData.mPacketsLost c + Z.of_nat 3
    ≤ 2 ^ 32 - 1
  ∧ ∃ c', LLCircuitData.record_inbound_all (1 * second) false [0; 1; 2] c
          = Some ([InOrder; InOrder; InOrder], c')
        ∧ LLCircuitData.mPacketsLost c' = 0
        ∧ LLCircuitData.mPacketsIn c' = 0 + 3.
Proof.
  intros c.
  assert (H1 : 0 ≤ LLCircuitData.mNextIncomingSequence c)
    by (vm_compute; discriminate).
  assert (H2 : LLCircuitData.mNextIncomingSequence c + Z.of_nat 3
               ≤ 2 ^ 32 - 1) by (vm_compute; discriminate).
  assert (H3 : 0 ≤ LLCircuitData.mPacketsIn c)
    by (vm_compute; discriminate).
  assert (H4 : 0 ≤ LLCircuitData.mPacketsLost c)
    by (vm_compute; discriminate).
  assert (H5 : LLCircuitData.mPacketsIn c + LLCircuitData.mPacketsLost c
               + Z.of_nat 3 ≤ 2 ^ 32 - 1) by (vm_compute; discriminate).
  destruct (in_order_stream (P:=sample_platform) (1 * second) false 3 c
              H1 H2 H3 H4 H5) as (c' & Hrec & Hlost & Hin & _).
  repeat (split; [assumption|]).
  exists c'. split; [exact Hrec|]. split; [exact Hlost|exact Hin].
Defined.

Lemma loss_percentage_bounded_witness :
  ∃ c', LLCircuitData.checkPacketInID (9 * second) 4 false sample_circuit
        = Some (InOrderAfterGap, c')
      ∧ 0 < LLCircuitData.mPacketsIn c'
      ∧ 0 ≤ LLCircuitData.mPacketsLost c'
      ∧ LLCircuitData.mPacketsLost c' * 100 < 2 ^ 32
      ∧ LLCircuitData.mPacketsIn c' + LLCircuitData.mPacketsLost c' < 2 ^ 32
      ∧ LLCircuitData.mPacketLoss c' = 4 * 100 / (1 + 4)
      ∧ 0 ≤ LLCircuitData.mPacketLoss c' ≤ 100.
Proof.
  destruct (LLCircuitData.checkPacketInID (9 * second) 4 false sample_circuit)
    as [[cl c']|] eqn:Hrec; [|vm_compute in Hrec; discriminate].
  assert (Hcl : cl = InOrderAfterGap).
  { vm_compute in Hrec. by injection Hrec as <- _. }
  subst cl. exists c'.
  assert (Hc' : (LLCircuitData.mPacketsIn c', LLCircuitData.mPacketsLost c')
                = (1, 4)).
  { vm_compute in Hrec. by injection Hrec as <-. }
  injection Hc' as Hin Hlost.
  assert (H1 : 0 < LLCircuitData.mPacketsIn c') by (rewrite Hin; reflexivity).
  assert (H2 : 0 ≤ LLCircuitData.mPacketsLost c')
    by (rewrite Hlost; discriminate).
  assert (H3 : LLCircuitData.mPacketsLost c' * 100 < 2 ^ 32)
    by (rewrite Hlost; reflexivity).
  assert (H4 : LLCircuitData.mPacketsIn c' + LLCircuitData.mPacketsLost c'
               < 2 ^ 32) by (rewrite Hin, Hlost; reflexivity).
  destruct (loss_percentage_bounded (P:=sample_platform) (9 * second) 4 false
              sample_circuit c' InOrderAfterGap Hrec H1 H2 H3 H4)
    as [Hloss Hrange].
  split; [reflexivity|]. repeat (split; [assumption|]).
  split; [|exact Hrange]. rewrite Hloss, Hin, Hlost. reflexivity.
Defined.

Lemma retry_queue_below_threshold_witness :
  let c :=
    LLCircuitData.checkForTimeouts (10 * second) sample_timeout
      sample_circuit in
  LLCircuitData.mRetryQueue c
  = [LLPacketBuffer.mk [1; 0; 0; 0; 0; 1] 0 (1 * second) 1]
  ∧ Forall (λ p, LLPacketBuffer.getRetryCount p < 3)
      (LLCircuitData.mRetryQueue c)
  ∧ Forall (λ p, LLPacketBuffer.getRetryCount p < 3)
      (LLCircuitData.mRetryQueue
         (LLCircuitData.checkForTimeouts (20 * second) sample_timeout c)).
Proof.
  intros c.
  assert (Hqueue : LLCircuitData.mRetryQueue c
            = [LLPacketBuffer.mk [1; 0; 0; 0; 0; 1] 0 (1 * second) 1])
    by reflexivity.
  assert (Hbefore : Forall (λ p, LLPacketBuffer.getRetryCount p < 3)
                      (LLCircuitData.mRetryQueue c)).
  { rewrite Hqueue. repeat constructor. }
  split; [exact Hqueue|]. split; [exact Hbefore|].
  exact (retry_queue_below_threshold (P:=sample_platform) (20 * second)
           sample_timeout c Hbefore).
Defined.

Lemma inbound_keeps_alive_witness :
  ∃ c1, LLCircuitData.checkPacketInID (9 * second) 4 false sample_circuit
        = Some (InOrderAfterGap, c1)
      ∧ 30 * second - 9 * second ≤ 60 * @ticks_per_second sample_platform
      ∧ LLCircuitData.isAlive
          (LLCircuitData.checkForTimeouts (30 * second) sample_timeout c1)
        = LLCircuitData.isAlive sample_circuit.
Proof.
  destruct (LLCircuitData.checkPacketInID (9 * second) 4 false sample_circuit)
    as [[cl c1]|] eqn:Hrec; [|vm_compute in Hrec; discriminate].
  assert (Hcl : cl = InOrderAfterGap).
  { vm_compute in Hrec. by injection Hrec as <- _. }
  subst cl. exists c1.
  assert (Hsoon : 30 * second - 9 * second
                  ≤ 60 * @ticks_per_second sample_platform)
    by (vm_compute; discriminate).
  destruct (inbound_keeps_alive (P:=sample_platform) (9 * second)
              (30 * second) 4 false sample_timeout sample_circuit c1
              InOrderAfterGap Hrec Hsoon) as [Halive _].
  split; [reflexivity|]. split; [exact Hsoon|exact Halive].
Defined.

(** ** The circuit table: capacity, removal, sweep and retries *)

Section CircuitTableInvariants.
Context {P : Platform}.
Import LLCircuit.

(** The three outcomes of the find-or-add idiom. *)
Lemma findOrAddCircuit_cases now host (t0 : LLCircuit.t) :
  (∃ c, findCircuit host t0 = Some c
        ∧ findOrAddCircuit now host t0 = (Some c, t0))
  ∨ (findCircuit host t0 = None ∧ mMaxCircuits t0 ≤ getNumCircuits t0
     ∧ findOrAddCircuit now host t0 = (None, t0))
  ∨ (findCircuit host t0 = None ∧ getNumCircuits t0 < mMaxCircuits t0
     ∧ findOrAddCircuit now host t0
       = (Some (LLCircuitData.new now host),
          store host (LLCircuitData.new now host) t0)).
Proof.
  unfold findOrAddCircuit.
  destruct (findCircuit host t0) as [c|] eqn:Hfind; [left; by exists c|].
  right. destruct (Z.le_gt_cases (mMaxCircuits t0) (getNumCircuits t0)).
  - left. by rewrite addCircuit_full.
  - right. by rewrite addCircuit_room.
Qed.

Lemma store_present_size host c (t0 : LLCircuit.t) :
  is_Some (findCircuit host t0) →
  getNumCircuits (store host c t0) = getNumCircuits t0
  ∧ mMaxCircuits (store host c t0) = mMaxCircuits t0.
Proof.
  intros Hsome. unfold getNumCircuits, store. simpl.
  by rewrite map_size_insert_Some.
Qed.

Lemma store_size_le host c (t0 : LLCircuit.t) :
  getNumCircuits (store host c t0) ≤ getNumCircuits t0 + 1
  ∧ mMaxCircuits (store host c t0) = mMaxCircuits t0.
Proof.
  unfold getNumCircuits, store. simpl. rewrite map_size_insert.
  split; [|done]. destruct (mCircuitData t0 !! host); simpl; lia.
Qed.

Lemma findCircuit_store host h c (t0 : LLCircuit.t) :
  findCircuit h (store host c t0)
  = if decide (host = h) then Some c else findCircuit h t0.
Proof. unfold findCircuit, store. simpl. apply lookup_insert. Qed.

(** After the idiom, a circuit it returned is in the table, and the table
    is within capacity if it was. *)
Lemma findOrAddCircuit_within now host (t0 : LLCircuit.t) :
  within_capacity t0 →
  within_capacity (findOrAddCircuit now host t0).2
  ∧ ∀ c, (findOrAddCircuit now host t0).1 = Some c →
         findCircuit host (findOrAddCircuit now host t0).2 = Some c.
Proof.
  intros Hcap. unfold within_capacity in *.
  destruct (findOrAddCircuit_cases now host t0)
    as [(c & Hfind & ->)|[(Hfind & Hfull & ->)|(Hfind & Hroom & ->)]];
    cbn [fst snd].
  - split; [done|]. by intros ? [= <-].
  - split; [done|]. by intros ? [=].
  - destruct (store_size_le host (LLCircuitData.new now host) t0) as [Hs Hm].
    split; [lia|]. intros ? [= <-]. rewrite findCircuit_store.
    by rewrite decide_True.
Qed.

(** X11.  No operation of the table lets it grow beyond [mMaxCircuits]:
    a table within capacity stays within capacity under circuit creation,
    sequence assignment, packet installation, acknowledgement, inbound
    recording, removal, the timeout sweep and the retry pass. *)
Theorem table_stays_within_capacity (now : Z) (host : LLHost) (id : Z)
    (packet : option LLPacketBuffer.t) (receive_resent : bool)
    (t0 : LLCircuit.t) :
  within_capacity t0 →
  within_capacity (addCircuit now host t0).2
  ∧ within_capacity (nextPacketID now host t0).2
  ∧ within_capacity (addReliablePacket now host id packet t0)
  ∧ within_capacity (ackReliablePacket now host id t0)
  ∧ (∀ t1, checkPacketIn now host id receive_resent t0 = Some t1 →
           within_capacity t1)
  ∧ within_capacity (removeCircuit host t0)
  ∧ within_capacity (checkForTimeouts now t0)
  ∧ within_capacity (processRetries t0).
Proof.
  intros Hcap.
  destruct (findOrAddCircuit_within now host t0 Hcap) as [Hcap1 Hin1].
  assert (Hstore : ∀ c c',
            (findOrAddCircuit now host t0).1 = Some c →
            within_capacity (store host c' (findOrAddCircuit now host t0).2)).
  { intros c c' Hc. unfold within_capacity in *.
    destruct (store_present_size host c' (findOrAddCircuit now host t0).2)
      as [Hs Hm]; [rewrite (Hin1 c Hc); by eexists|]. lia. }
  unfold within_capacity in *. repeat split.
  - unfold addCircuit. destruct (Z.leb_spec (mMaxCircuits t0)
      (getNumCircuits t0)) as [?|Hroom]; cbn [snd]; [done|].
    destruct (store_size_le host (LLCircuitData.new now host) t0) as [Hs Hm].
    unfold store in *. lia.
  - unfold nextPacketID.
    destruct (findOrAddCircuit now host t0) as [[c|] t1] eqn:Hfo;
      cbn [fst snd] in *; [|done].
    destruct (LLCircuitData.nextPacketOutID now c) as [i c']. cbn [snd].
    by apply (Hstore c).
  - unfold addReliablePacket.
    destruct (findOrAddCircuit now host t0) as [[c|] t1] eqn:Hfo;
      cbn [fst snd] in *; [|done].
    by apply (Hstore c).
  - unfold ackReliablePacket.
    destruct (findCircuit host t0) as [c|] eqn:Hfind; [|done].
    destruct (store_present_size host
                (LLCircuitData.ackReliablePacket now id c) t0) as [Hs Hm];
      [by eexists|]. lia.
  - intros t1. unfold checkPacketIn.
    destruct (findOrAddCircuit now host t0) as [[c|] t2] eqn:Hfo;
      cbn [fst snd] in *; [|by intros [= <-]].
    destruct (LLCircuitData.checkPacketInID _ _ _ _) as [[cl c']|];
      [|done].
    intros [= <-]. by apply (Hstore c).
  - unfold removeCircuit. destruct (mCircuitData t0 !! host); [|done].
    unfold getNumCircuits. simpl.
    pose proof (map_size_delete host (mCircuitData t0)) as Hd.
    destruct (mCircuitData t0 !! host); simpl in Hd;
      unfold getNumCircuits in Hcap; lia.
  - unfold checkForTimeouts. destruct (negb _); [done|].
    unfold getNumCircuits in *. simpl.
    etrans; [|exact Hcap]. apply Nat2Z.inj_le.
    etrans; [apply map_size_filter|]. by rewrite map_size_fmap.
  - unfold processRetries, getNumCircuits in *. simpl.
    by rewrite map_size_fmap.
Qed.

(** X12.  Removing a circuit frees its slot: the host is no longer found,
    every other host keeps its circuit, and in a table that was within
    capacity a circuit can be created again, even for a new host. *)
Theorem removeCircuit_frees_slot (now : Z) (host h' : LLHost)
    (c : LLCircuitData.t) (t0 : LLCircuit.t) :
  within_capacity t0 →
  findCircuit host t0 = Some c →
  let t1 := removeCircuit host t0 in
  findCircuit host t1 = None
  ∧ (∀ h, h ≠ host → findCircuit h t1 = findCircuit h t0)
  ∧ getNumCircuits t1 = getNumCircuits t0 - 1
  ∧ (findCircuit h' t1 = None →
     findOrAddCircuit now h' t1
     = (Some (LLCircuitData.new now h'),
        store h' (LLCircuitData.new now h') t1)).
Proof.
  intros Hcap Hfind t1. subst t1. unfold removeCircuit, findCircuit in *.
  rewrite Hfind. unfold within_capacity, getNumCircuits in *. simpl.
  assert (Hsize : size (delete host (mCircuitData t0))
                  = Nat.pred (size (mCircuitData t0))).
  { apply map_size_delete_Some. by eexists. }
  assert (Hpos : (0 < size (mCircuitData t0))%nat).
  { destruct (size (mCircuitData t0)) eqn:Hs; [|lia].
    apply map_size_empty_inv in Hs. rewrite Hs in Hfind.
    by rewrite lookup_empty in Hfind. }
  split; [apply lookup_delete_eq|].
  split; [intros h Hne; by apply lookup_delete_ne|].
  split; [lia|].
  intros Hnew. unfold findOrAddCircuit, findCircuit. simpl. rewrite Hnew.
  apply addCircuit_room. unfold getNumCircuits. simpl. lia.
Qed.

(** X13.  The table sweep.  With timeouts switched off it changes nothing.
    Otherwise every circuit is swept with the table's timeout, and a host is
    found afterwards exactly when its swept circuit is alive: circuits that
    are dead, or have been idle for more than 60 seconds, are removed. *)
Theorem table_sweep_reaps_dead (now : Z) (t0 : LLCircuit.t) :
  (mAllowTimeout t0 = false → checkForTimeouts now t0 = t0)
  ∧ (mAllowTimeout t0 = true →
     ∀ h,
       findCircuit h (checkForTimeouts now t0)
       = match findCircuit h t0 with
         | Some c =>
             let c' :=
               LLCircuitData.checkForTimeouts now (mTimeoutSeconds t0) c in
             if LLCircuitData.isAlive c' then Some c' else None
         | None => None
         end)
  ∧ (mAllowTimeout t0 = true →
     ∀ h c, findCircuit h t0 = Some c →
       60 * ticks_per_second < now - LLCircuitData.mLastReceiveTime c →
       findCircuit h (checkForTimeouts now t0) = None).
Proof.
  assert (Hlookup : mAllowTimeout t0 = true →
     ∀ h,
       findCircuit h (checkForTimeouts now t0)
       = match findCircuit h t0 with
         | Some c =>
             let c' :=
               LLCircuitData.checkForTimeouts now (mTimeoutSeconds t0) c in
             if LLCircuitData.isAlive c' then Some c' else None
         | None => None
         end).
  { intros Hallow h. unfold checkForTimeouts, findCircuit. rewrite Hallow.
    simpl. rewrite map_lookup_filter, lookup_fmap.
    destruct (mCircuitData t0 !! h) as [c|]; simpl; [|done].
    destruct (LLCircuitData.isAlive _) eqn:Halive.
    - by rewrite option_guard_True.
    - rewrite option_guard_False; [done|]. simpl. congruence. }
  split; [|split; [done|]].
  - intros Hoff. unfold checkForTimeouts. by rewrite Hoff.
  - intros Hallow h c Hfind Hidle. rewrite Hlookup, Hfind by done.
    cbn zeta. unfold LLCircuitData.isAlive, LLCircuitData.checkForTimeouts.
    destruct (LLCircuitData.sweep _ _ _ _ _) as [[kept queue] lost]. simpl.
    apply Z.ltb_lt in Hidle. by rewrite Hidle.
Qed.

(** The retry loop with enough fuel hands out the whole queue in order. *)
Lemma drainRetries_all fuel (c : LLCircuitData.t) :
  (length (LLCircuitData.mRetryQueue c) ≤ fuel)%nat →
  drainRetries fuel c
  = (LLCircuitData.mRetryQueue c, LLCircuitData.set_mRetryQueue [] c).
Proof.
  revert c. induction fuel as [|fuel IH]; intros c Hlen.
  - destruct c as [? ? ? ? ? ? ? ? ? ? ? ? ? ? ? queue ?]. simpl in *.
    destruct queue; [done|simpl in Hlen; lia].
  - simpl. unfold LLCircuitData.hasRetries, LLCircuitData.getNextRetry.
    destruct c as [? ? ? ? ? ? ? ? ? ? ? ? ? ? ? queue ?]. simpl in *.
    destruct queue as [|p queue]; [done|].
    rewrite IH by (simpl in *; lia). done.
Qed.

(** X14.  The retry pass of [processRetries] takes the packets of every
    circuit's retry queue out in first-in, first-out order and leaves every
    queue empty.  Nothing else changes: the packets are not put back into
    the unacked map. *)
Theorem processRetries_empties_queues (t0 : LLCircuit.t)
    (h : LLHost) :
  findCircuit h (processRetries t0)
  = LLCircuitData.set_mRetryQueue [] <$> findCircuit h t0
  ∧ (∀ c, findCircuit h t0 = Some c →
       (drainRetries (length (LLCircuitData.mRetryQueue c)) c).1
       = LLCircuitData.mRetryQueue c)
  ∧ (∀ c', findCircuit h (processRetries t0) = Some c' →
       LLCircuitData.hasRetries c' = false)
  ∧ (∀ c c', findCircuit h t0 = Some c →
       findCircuit h (processRetries t0) = Some c' →
       LLCircuitData.mUnackedPackets c' = LLCircuitData.mUnackedPackets c
       ∧ LLCircuitData.mPacketsLost c' = LLCircuitData.mPacketsLost c).
Proof.
  assert (Hlookup : findCircuit h (processRetries t0)
            = LLCircuitData.set_mRetryQueue [] <$> findCircuit h t0).
  { unfold processRetries, findCircuit. simpl. rewrite lookup_fmap.
    destruct (mCircuitData t0 !! h) as [c|]; simpl; [|done].
    by rewrite drainRetries_all. }
  split; [done|]. split; [|split].
  - intros c _. by rewrite drainRetries_all.
  - rewrite Hlookup. intros c'.
    destruct (findCircuit h t0); simpl; [|done]. by intros [= <-].
  - rewrite Hlookup. intros c c' ->. simpl. by intros [= <-].
Qed.

(** X15.  Operations addressed to one host leave the circuit of every
    other host as it is. *)
Theorem operations_are_per_host (now : Z) (host h : LLHost) (id : Z)
    (packet : option LLPacketBuffer.t) (receive_resent : bool)
    (t0 : LLCircuit.t) :
  h ≠ host →
  findCircuit h (nextPacketID now host t0).2 = findCircuit h t0
  ∧ findCircuit h (addReliablePacket now host id packet t0)
    = findCircuit h t0
  ∧ findCircuit h (ackReliablePacket now host id t0) = findCircuit h t0
  ∧ (∀ t1, checkPacketIn now host id receive_resent t0 = Some t1 →
           findCircuit h t1 = findCircuit h t0)
  ∧ findCircuit h (removeCircuit host t0) = findCircuit h t0
  ∧ findCircuit h (addCircuit now host t0).2 = findCircuit h t0.
Proof.
  intros Hne.
  assert (Hfo : findCircuit h (findOrAddCircuit now host t0).2
                = findCircuit h t0).
  { destruct (findOrAddCircuit_cases now host t0)
      as [(c & _ & ->)|[(_ & _ & ->)|(_ & _ & ->)]]; cbn [snd]; [done..|].
    rewrite findCircuit_store. by rewrite decide_False. }
  assert (Hst : ∀ c t1, findCircuit h (store host c t1) = findCircuit h t1).
  { intros c t1. rewrite findCircuit_store. by rewrite decide_False. }
  repeat split.
  - unfold nextPacketID.
    destruct (findOrAddCircuit now host t0) as [[c|] t1]; cbn [snd] in *;
      [|done].
    destruct (LLCircuitData.nextPacketOutID now c) as [i c']. cbn [snd].
    by rewrite Hst.
  - unfold addReliablePacket.
    destruct (findOrAddCircuit now host t0) as [[c|] t1]; cbn [snd] in *;
      [|done].
    by rewrite Hst.
  - unfold ackReliablePacket. destruct (findCircuit host t0); [|done].
    by rewrite Hst.
  - intros t1. unfold checkPacketIn.
    destruct (findOrAddCircuit now host t0) as [[c|] t2]; cbn [snd] in *;
      [|by intros [= <-]].
    destruct (LLCircuitData.checkPacketInID _ _ _ _) as [[cl c']|]; [|done].
    intros [= <-]. by rewrite Hst.
  - unfold removeCircuit, findCircuit.
    destruct (mCircuitData t0 !! host); [|done]. simpl.
    by apply lookup_delete_ne.
  - unfold addCircuit. destruct (_ <=? _); cbn [snd]; [done|].
    unfold findCircuit. simpl. by apply lookup_insert_ne.
Qed.

End CircuitTableInvariants.

Lemma table_stays_within_capacity_witness :
  LLCircuit.within_capacity full_table
  ∧ LLCircuit.within_capacity
      (LLCircuit.addCircuit (9 * second) sim_host full_table).2
  ∧ LLCircuit.within_capacity
      (LLCircuit.nextPacketID (9 * second) sim_host full_table).2
  ∧ LLCircuit.within_capacity
      (LLCircuit.checkForTimeouts (9 * second) full_table).
Proof.
  assert (Hwithin : LLCircuit.within_capacity full_table).
  { unfold LLCircuit.within_capacity.
    assert (Hsize : LLCircuit.getNumCircuits full_table = 256)
      by (vm_compute; reflexivity).
    rewrite Hsize. vm_compute. discriminate. }
  destruct (table_stays_within_capacity (P:=sample_platform) (9 * second)
              sim_host 0 None false full_table Hwithin)
    as (Hadd & Hnext & _ & _ & _ & _ & Hsweep & _).
  split; [exact Hwithin|]. split; [exact Hadd|].
  split; [exact Hnext|exact Hsweep].
Defined.

Lemma removeCircuit_frees_slot_witness :
  let host : LLHost := ("10.0.0.1"%string, 1) in
  let t1 := LLCircuit.removeCircuit host full_table in
  LLCircuit.within_capacity full_table
  ∧ LLCircuit.findCircuit host full_table
    = Some (LLCircuitData.new 0 host)
  ∧ LLCircuit.findCircuit host t1 = None
  ∧ LLCircuit.getNumCircuits t1 = LLCircuit.getNumCircuits full_table - 1
  ∧ LLCircuit.findOrAddCircuit (9 * second) sim_host t1
    = (Some (LLCircuitData.new (9 * second) sim_host),
       LLCircuit.store sim_host (LLCircuitData.new (9 * second) sim_host)
         t1).
Proof.
  intros host t1.
  assert (Hwithin : LLCircuit.within_capacity full_table).
  { unfold LLCircuit.within_capacity.
    assert (Hsize : LLCircuit.getNumCircuits full_table = 256)
      by (vm_compute; reflexivity).
    rewrite Hsize. vm_compute. discriminate. }
  assert (Hfind : LLCircuit.findCircuit host full_table
                  = Some (LLCircuitData.new 0 host))
    by (vm_compute; reflexivity).
  destruct (removeCircuit_frees_slot (P:=sample_platform) (9 * second) host
              sim_host (LLCircuitData.new 0 host) full_table Hwithin Hfind)
    as (Hgone & _ & Hcount & Hagain).
  split; [exact Hwithin|]. split; [exact Hfind|]. split; [exact Hgone|].
  split; [exact Hcount|]. apply Hagain. vm_compute. reflexivity.
Defined.

Lemma table_sweep_reaps_dead_witness :
  let host : LLHost := ("10.0.0.1"%string, 1) in
  LLCircuit.mAllowTimeout full_table = true
  ∧ LLCircuit.findCircuit host full_table = Some (LLCircuitData.new 0 host)
  ∧ 60 * @ticks_per_second sample_platform
    < 61 * second
      - LLCircuitData.mLastReceiveTime
          (LLCircuitData.new (P:=sample_platform) 0 host)
  ∧ LLCircuit.findCircuit host
      (LLCircuit.checkForTimeouts (61 * second) full_table) = None
  ∧ LLCircuit.checkForTimeouts (61 * second)
      (LLCircuit.setAllowTimeout false full_table)
    = LLCircuit.setAllowTimeout false full_table.
Proof.
  intros host.
  assert (Hallow : LLCircuit.mAllowTimeout full_table = true)
    by (vm_compute; reflexivity).
  assert (Hfind : LLCircuit.findCircuit host full_table
                  = Some (LLCircuitData.new 0 host))
    by (vm_compute; reflexivity).
  assert (Hidle : 60 * @ticks_per_second sample_platform
                  < 61 * second
                    - LLCircuitData.mLastReceiveTime
                        (LLCircuitData.new (P:=sample_platform) 0 host))
    by (vm_compute; reflexivity).
  destruct (table_sweep_reaps_dead (P:=sample_platform) (61 * second)
              full_table) as (_ & _ & Hreap).
  destruct (table_sweep_reaps_dead (P:=sample_platform) (61 * second)
              (LLCircuit.setAllowTimeout false full_table)) as (Hoff & _).
  split; [exact Hallow|]. split; [exact Hfind|]. split; [exact Hidle|].
  split; [exact (Hreap Hallow host _ Hfind Hidle)|].
  apply Hoff. reflexivity.
Defined.

Lemma processRetries_empties_queues_witness :
  let c :=
    LLCircuitData.checkForTimeouts (10 * second) sample_timeout
      sample_circuit in
  let t0 := LLCircuit.store sim_host c LLCircuit.new in
  LLCircuitData.hasRetries c = true
  ∧ LLCircuit.findCircuit sim_host (LLCircuit.processRetries t0)
    = Some (LLCircuitData.set_mRetryQueue [] c)
  ∧ (LLCircuit.drainRetries (length (LLCircuitData.mRetryQueue c)) c).1
    = LLCircuitData.mRetryQueue c.
Proof.
  intros c t0.
  assert (Hfind : LLCircuit.findCircuit sim_host t0 = Some c)
    by (vm_compute; reflexivity).
  destruct (processRetries_empties_queues (P:=sample_platform) t0 sim_host)
    as (Hafter & Hdrained & _).
  split; [reflexivity|]. split.
  - rewrite Hafter, Hfind. reflexivity.
  - exact (Hdrained c Hfind).
Defined.

Lemma operations_are_per_host_witness :
  let h : LLHost := ("10.0.0.1"%string, 1) in
  h ≠ sim_host
  ∧ LLCircuit.findCircuit h
      (LLCircuit.nextPacketID (9 * second) sim_host
         (LLCircuit.removeCircuit ("10.0.0.1"%string, 2) full_table)).2
    = LLCircuit.findCircuit h
        (LLCircuit.removeCircuit ("10.0.0.1"%string, 2) full_table)
  ∧ LLCircuit.findCircuit h (LLCircuit.removeCircuit sim_host full_table)
    = LLCircuit.findCircuit h full_table.
Proof.
  intros h.
  assert (Hne : h ≠ sim_host) by discriminate.
  destruct (operations_are_per_host (P:=sample_platform) (9 * second)
              sim_host h 0 None false
              (LLCircuit.removeCircuit ("10.0.0.1"%string, 2) full_table)
              Hne) as (Hnext & _).
  destruct (operations_are_per_host (P:=sample_platform) (9 * second)
              sim_host h 0 None false full_table Hne)
    as (_ & _ & _ & _ & Hremove & _).
  split; [exact Hne|]. split; [exact Hnext|exact Hremove].
Defined.

(** ** The circuit table: first contact and sequence numbers *)

Section CircuitTableContact.
Context {P : Platform}.
Import LLCircuit.

(** X16.  When the table is full, traffic for a host without circuit is
    ignored without any report: a reliable packet is not installed, an
    inbound packet is not recorded, an acknowledgement has no effect, and
    the table is left exactly as it was. *)
Theorem full_table_ignores_new_host (now : Z) (host : LLHost) (id : Z)
    (packet : option LLPacketBuffer.t) (receive_resent : bool)
    (t0 : LLCircuit.t) :
  mMaxCircuits t0 ≤ getNumCircuits t0 →
  findCircuit host t0 = None →
  addReliablePacket now host id packet t0 = t0
  ∧ checkPacketIn now host id receive_resent t0 = Some t0
  ∧ ackReliablePacket now host id t0 = t0.
Proof.
  intros Hfull Hnone.
  unfold addReliablePacket, checkPacketIn, ackReliablePacket,
    findOrAddCircuit.
  rewrite Hnone. by rewrite addCircuit_full.
Qed.

(** X17.  The first contact with a host creates its circuit when there is
    room: the first sequence number handed out is 0, a first inbound packet
    is counted on a fresh circuit, and a first reliable packet is installed
    in a fresh circuit.  An acknowledgement alone creates nothing. *)
Theorem first_contact_creates_circuit (now : Z) (host : LLHost) (id : Z)
    (p : LLPacketBuffer.t) (receive_resent : bool) (t0 : LLCircuit.t) :
  getNumCircuits t0 < mMaxCircuits t0 →
  findCircuit host t0 = None →
  nextPacketID now host t0
  = (0, store host
          (LLCircuitData.nextPacketOutID now
             (LLCircuitData.new now host)).2
          (store host (LLCircuitData.new now host) t0))
  ∧ findCircuit host (addReliablePacket now host id (Some p) t0)
    = Some (LLCircuitData.addReliablePacket now id (Some p)
              (LLCircuitData.new now host))
  ∧ (∀ t1, checkPacketIn now host id receive_resent t0 = Some t1 →
       ∃ c, findCircuit host t1 = Some c ∧ LLCircuitData.mPacketsIn c = 1)
  ∧ ackReliablePacket now host id t0 = t0.
Proof.
  intros Hroom Hnone.
  unfold nextPacketID, addReliablePacket, checkPacketIn, ackReliablePacket,
    findOrAddCircuit.
  rewrite Hnone, addCircuit_room by done.
  split; [done|]. split; [by rewrite findCircuit_store, decide_True|].
  split; [|done].
  intros t1.
  destruct (LLCircuitData.checkPacketInID now id receive_resent
              (LLCircuitData.new now host)) as [[cl c]|] eqn:Hrec; [|done].
  intros [= <-]. exists c.
  rewrite findCircuit_store, decide_True by done. split; [done|].
  unfold LLCircuitData.checkPacketInID, LLCircuitData.classify_update in Hrec.
  simpl in Hrec.
  destruct (0 <? id); [|destruct (id =? 0)]; simpl in Hrec;
    try destruct (u32_div _ _); try discriminate;
    by injection Hrec as <- <-.
Qed.

Lemma nextPacketID_present now host c (t0 : LLCircuit.t) :
  findCircuit host t0 = Some c →
  nextPacketID now host t0
  = (LLCircuitData.mNextOutgoingSequence c,
     store host (LLCircuitData.nextPacketOutID now c).2 t0).
Proof.
  intros Hfind. unfold nextPacketID.
  by rewrite (findOrAddCircuit_present now host c).
Qed.

Lemma nextPacketID_n_present now host n : ∀ (t0 : LLCircuit.t) c,
  findCircuit host t0 = Some c →
  0 ≤ LLCircuitData.mNextOutgoingSequence c →
  LLCircuitData.mNextOutgoingSequence c + Z.of_nat n ≤ 2 ^ 32 - 1 →
  (nextPacketID_n now host n t0).1
  = seqZ (LLCircuitData.mNextOutgoingSequence c) (Z.of_nat n).
Proof.
  induction n as [|n IH]; intros t0 c Hfind Hlo Hhi; [done|].
  cbn [nextPacketID_n]. rewrite (nextPacketID_present now host c) by done.
  specialize (IH (store host (LLCircuitData.nextPacketOutID now c).2 t0)
                (LLCircuitData.nextPacketOutID now c).2).
  destruct (nextPacketID_n now host n _) as [ids t2]. cbn [fst] in *.
  rewrite IH.
  - simpl. rewrite wrap32_small by lia.
    rewrite (seqZ_cons _ (Z.of_nat (S n))) by lia. f_equal. f_equal. lia.
  - by rewrite findCircuit_store, decide_True.
  - simpl. rewrite wrap32_small by lia. lia.
  - simpl. rewrite wrap32_small by lia. lia.
Qed.

(** X18.  Sequence numbers are handed out per host, in order and without
    gaps: [n] calls for a host that has a circuit return the [n] consecutive
    numbers starting at its outbound counter (no wrapping), and for a new
    host in a table with room they return 0, 1, ..., n-1. *)
Theorem nextPacketID_consecutive (now : Z) (host : LLHost) (n : nat)
    (t0 : LLCircuit.t) :
  Z.of_nat n ≤ 2 ^ 32 - 1 →
  (∀ c, findCircuit host t0 = Some c →
        0 ≤ LLCircuitData.mNextOutgoingSequence c →
        LLCircuitData.mNextOutgoingSequence c + Z.of_nat n ≤ 2 ^ 32 - 1 →
        (nextPacketID_n now host n t0).1
        = seqZ (LLCircuitData.mNextOutgoingSequence c) (Z.of_nat n))
  ∧ (findCircuit host t0 = None →
     getNumCircuits t0 < mMaxCircuits t0 →
     (nextPacketID_n now host n t0).1 = seqZ 0 (Z.of_nat n)).
Proof.
  intros Hn. split; [intros c; apply nextPacketID_n_present|].
  intros Hnone Hroom. destruct n as [|n]; [done|].
  set (c1 := (LLCircuitData.nextPacketOutID now
                (LLCircuitData.new now host)).2).
  set (t1 := store host c1 (store host (LLCircuitData.new now host) t0)).
  assert (Hfirst : nextPacketID now host t0 = (0, t1)).
  { unfold nextPacketID, findOrAddCircuit.
    by rewrite Hnone, addCircuit_room. }
  cbn [nextPacketID_n]. rewrite Hfirst.
  pose proof (nextPacketID_n_present now host n t1 c1) as Hrest.
  destruct (nextPacketID_n now host n t1) as [ids t2]. cbn [fst] in *.
  assert (Hc1 : LLCircuitData.mNextOutgoingSequence c1 = 1) by done.
  rewrite Hrest, Hc1.
  - rewrite (seqZ_cons 0 (Z.of_nat (S n))) by lia. f_equal. f_equal. lia.
  - subst t1. by rewrite findCircuit_store, decide_True.
  - lia.
  - lia.
Qed.

End CircuitTableContact.

Lemma full_table_ignores_new_host_witness :
  LLCircuit.mMaxCircuits full_table ≤ LLCircuit.getNumCircuits full_table
  ∧ LLCircuit.findCircuit sim_host full_table = None
  ∧ LLCircuit.addReliablePacket (9 * second) sim_host 0
      (Some (LLPacketBuffer.of_bytes reliable_datagram)) full_table
    = full_table
  ∧ LLCircuit.checkPacketIn (9 * second) sim_host 0 false full_table
    = Some full_table.
Proof.
  assert (Hnone : LLCircuit.findCircuit sim_host full_table = None)
    by (vm_compute; reflexivity).
  destruct (full_table_ignores_new_host (P:=sample_platform) (9 * second)
              sim_host 0 (Some (LLPacketBuffer.of_bytes reliable_datagram))
              false full_table full_table_at_capacity Hnone)
    as (Hadd & Hin & _).
  split; [exact full_table_at_capacity|]. split; [exact Hnone|].
  split; [exact Hadd|exact Hin].
Defined.

Lemma first_contact_creates_circuit_witness :
  let t0 := LLCircuit.new (P:=sample_platform) in
  let p := LLPacketBuffer.of_bytes reliable_datagram in
  LLCircuit.getNumCircuits t0 < LLCircuit.mMaxCircuits t0
  ∧ LLCircuit.findCircuit sim_host t0 = None
  ∧ LLCircuit.findCircuit sim_host
      (LLCircuit.addReliablePacket (9 * second) sim_host 5 (Some p) t0)
    = Some (LLCircuitData.addReliablePacket (9 * second) 5 (Some p)
              (LLCircuitData.new (9 * second) sim_host))
  ∧ LLCircuit.ackReliablePacket (9 * second) sim_host 5 t0 = t0.
Proof.
  intros t0 p.
  assert (Hroom : LLCircuit.getNumCircuits t0 < LLCircuit.mMaxCircuits t0)
    by (vm_compute; reflexivity).
  assert (Hnone : LLCircuit.findCircuit sim_host t0 = None) by reflexivity.
  destruct (first_contact_creates_circuit (P:=sample_platform) (9 * second)
              sim_host 5 p false t0 Hroom Hnone) as (_ & Hadd & _ & Hack).
  split; [exact Hroom|]. split; [exact Hnone|].
  split; [exact Hadd|exact Hack].
Defined.

Lemma nextPacketID_consecutive_witness :
  let t0 := LLCircuit.new (P:=sample_platform) in
  Z.of_nat 3 ≤ 2 ^ 32 - 1
  ∧ LLCircuit.findCircuit sim_host t0 = None
  ∧ LLCircuit.getNumCircuits t0 < LLCircuit.mMaxCircuits t0
  ∧ (LLCircuit.nextPacketID_n (9 * second) sim_host 3 t0).1 = seqZ 0 3.
Proof.
  intros t0.
  assert (Hn : Z.of_nat 3 ≤ 2 ^ 32 - 1) by (vm_compute; discriminate).
  assert (Hroom : LLCircuit.getNumCircuits t0 < LLCircuit.mMaxCircuits t0)
    by (vm_compute; reflexivity).
  assert (Hnone : LLCircuit.findCircuit sim_host t0 = None) by reflexivity.
  destruct (nextPacketID_consecutive (P:=sample_platform) (9 * second)
              sim_host 3 t0 Hn) as [_ Hfresh].
  split; [exact Hn|]. split; [exact Hnone|]. split; [exact Hroom|].
  exact (Hfresh Hnone Hroom).
Defined.

(** ** Building and dispatching a datagram *)

(** ** Further properties of the wire header *)

Lemma decode_encode_msgnum (msgnum flags s0 s1 s2 s3 : Z) (payload : list Z) :
  0 ≤ msgnum < 2 ^ 32 →
  msgnum < 0xFF ∨ 0xFF < msgnum < 0xFF00 ∨ 0x10000 ≤ msgnum →
  decode_msgnum ([flags; s0; s1; s2; s3] ++ encode_msgnum msgnum ++ payload)
  = (msgnum, 5 + Z.of_nat (length (encode_msgnum msgnum))).
Proof.
  intros Hr [Hone|[Htwo|Hfour]].
  - rewrite encode_msgnum_one by lia. cbn [app length].
    unfold decode_msgnum. rewrite byte_at_5.
    destruct (Z.eqb_spec msgnum 0xFF) as [?|_]; [lia|done].
  - rewrite encode_msgnum_two by lia. cbn [app length].
    unfold decode_msgnum. rewrite byte_at_5, byte_at_6, byte_at_7.
    rewrite Z.eqb_refl.
    assert (Hhi : 0 ≤ msgnum / 2 ^ 8 < 0xFF).
    { split; [apply Z.div_pos; lia | apply Z.div_lt_upper_bound; lia]. }
    destruct (Z.eqb_spec (msgnum / 2 ^ 8) 0xFF) as [?|_]; [lia|].
    rewrite lor_shiftl_8 by (apply Z.mod_pos_bound; lia).
    f_equal. rewrite Z.mul_comm. symmetry. apply Z.div_mod. lia.
  - rewrite encode_msgnum_four by lia. cbn [app length].
    unfold decode_msgnum. rewrite byte_at_5, byte_at_6, read_U32_7.
    rewrite !Z.eqb_refl. f_equal. apply U32_le_bytes. lia.
Qed.

Lemma length_encode_msgnum (msgnum : Z) :
  (1 ≤ length (encode_msgnum msgnum))%nat.
Proof.
  unfold encode_msgnum. destruct (_ <? 256); [simpl; lia|].
  destruct (_ <? 65536); simpl; lia.
Qed.

Lemma byte_at_app (l l' : list Z) (i : Z) :
  0 ≤ i → byte_at (l ++ l') (Z.of_nat (length l) + i) = byte_at l' i.
Proof.
  intros Hi. unfold byte_at.
  destruct (Z.ltb_spec (Z.of_nat (length l) + i) 0) as [?|_]; [lia|].
  destruct (Z.ltb_spec i 0) as [?|_]; [lia|].
  rewrite Z2Nat.inj_add, Nat2Z.id by lia.
  rewrite app_nth2 by lia. f_equal. lia.
Qed.

Lemma read_U32_bytes (l l' : list Z) (x : Z) :
  0 ≤ x < 2 ^ 32 →
  read_U32 (l ++ U32_bytes x ++ l') (Z.of_nat (length l)) = x.
Proof.
  intros Hx. unfold read_U32.
  rewrite <- (Z.add_0_r (Z.of_nat (length l))) at 1.
  rewrite !byte_at_app by lia.
  unfold U32_bytes, wrap8. rewrite !Z.shiftr_div_pow2 by lia.
  cbn [app]. change (byte_at (?a :: _) 0) with a.
  change (byte_at (_ :: ?a :: _) 1) with a.
  change (byte_at (_ :: _ :: ?a :: _) 2) with a.
  change (byte_at (_ :: _ :: _ :: ?a :: _) 3) with a.
  by apply U32_le_bytes.
Qed.

Section MessageRoundTrip.
Context {P : Platform}.
Import LLMessageSystem.

Lemma addAllData_buffer fields (ms : LLMessageSystem.t) :
  mSendBuffer (addAllData fields ms)
  = mSendBuffer ms ++ concat (snd <$> fields)
  ∧ mCurrentMessage (addAllData fields ms) = mCurrentMessage ms
  ∧ mCircuit (addAllData fields ms) = mCircuit ms
  ∧ mThrottles (addAllData fields ms) = mThrottles ms.
Proof.
  unfold addAllData. revert ms.
  induction fields as [|[name bytes] fields IH]; intros ms; simpl.
  - by rewrite app_nil_r.
  - destruct (IH (addVariableData name bytes ms)) as (-> & -> & -> & ->).
    simpl. by rewrite <- app_assoc.
Qed.

(** X19.  [processMessage] returns false exactly for a datagram shorter
    than 6 bytes or one whose opcode is not in the template index, and such
    a datagram has no effect at all: no handler is invoked, no circuit is
    created and the system and the buffer are left as they were, even when
    the reliable flag is set. *)
Theorem processMessage_rejects (now : Z) (sender : LLHost)
    (buffer : list Z) (size : Z) (ms : LLMessageSystem.t) :
  let result := processMessage now sender buffer size ms in
  (processed result.1 = false
   ↔ size < 6 ∨ mMessageNumbers ms !! (decode_msgnum buffer).1 = None)
  ∧ (processed result.1 = false →
     result
     = ({| processed := false; invoked := []; buffer_after := buffer |},
        ms)).
Proof.
  cbn zeta. unfold processMessage.
  destruct (Z.ltb_spec size 6) as [Hshort|Hlong].
  { split; [split; [by left|done]|done]. }
  destruct (decode_msgnum buffer) as [msgnum offset]. cbn [fst].
  destruct (mMessageNumbers ms !! msgnum) as [tmpl|] eqn:Hindex.
  - cbn [fst processed]. split; [|done].
    split; [done|]. intros [?|?]; [lia|done].
  - split; [split; [by right|done]|done].
Qed.

(** X20.  Build and dispatch round trip.  A message started with
    [newMessage] and filled with any data is a datagram that
    [processMessage] accepts and dispatches to the handlers registered
    under the name of the template its index holds for the opcode, whenever
    the opcode is one the header decoder reads back. *)
Theorem build_dispatch_roundtrip (now : Z) (from : LLHost)
    (msgname : string) (fields : list (string * list Z))
    (tmpl tmpl' : LLMessageTemplate.t)
    (sender receiver : LLMessageSystem.t) :
  mMessageTemplates sender !! msgname = Some tmpl →
  0 ≤ LLMessageTemplate.getMessageNumber tmpl < 2 ^ 32 →
  LLMessageTemplate.getMessageNumber tmpl < 0xFF
  ∨ 0xFF < LLMessageTemplate.getMessageNumber tmpl < 0xFF00
  ∨ 0x10000 ≤ LLMessageTemplate.getMessageNumber tmpl →
  mMessageNumbers receiver !! LLMessageTemplate.getMessageNumber tmpl
  = Some tmpl' →
  let datagram :=
    mSendBuffer (addAllData fields (newMessage msgname sender).2) in
  let result :=
    processMessage now from datagram (Z.of_nat (length datagram)) receiver in
  processed result.1 = true
  ∧ invoked result.1
    = default [] (mHandlerMap receiver !! LLMessageTemplate.getName tmpl')
  ∧ buffer_after result.1 = datagram.
Proof.
  intros Htmpl Hrange Hgood Hindex datagram result.
  destruct (addMessageHeader_layout msgname sender tmpl Htmpl)
    as (flags & Hheader & _ & Hbuffer).
  assert (Hdatagram : datagram
            = [flags; 0; 0; 0; 0]
              ++ encode_msgnum (LLMessageTemplate.getMessageNumber tmpl)
              ++ concat (snd <$> fields)).
  { subst datagram. destruct (addAllData_buffer fields
      (newMessage msgname sender).2) as (-> & _).
    rewrite Hbuffer, Hheader. by rewrite <- app_assoc. }
  assert (Hdecode : decode_msgnum datagram
            = (LLMessageTemplate.getMessageNumber tmpl,
               5 + Z.of_nat (length (encode_msgnum
                      (LLMessageTemplate.getMessageNumber tmpl))))).
  { rewrite Hdatagram. by apply decode_encode_msgnum. }
  assert (Hsize : 6 ≤ Z.of_nat (length datagram)).
  { rewrite Hdatagram. rewrite !length_app. simpl.
    pose proof (length_encode_msgnum
                  (LLMessageTemplate.getMessageNumber tmpl)). lia. }
  subst result. unfold processMessage.
  destruct (Z.ltb_spec (Z.of_nat (length datagram)) 6) as [?|_]; [lia|].
  rewrite Hdecode, Hindex. cbn [fst processed invoked buffer_after].
  split; [done|]. split; [done|].
  destruct (negb (Z.land (byte_at datagram 0) LL_ZEROCODED_FLAG =? 0));
    [|done].
  by rewrite decodeZeroData_unchanged, take_drop.
Qed.

End MessageRoundTrip.

Lemma build_dispatch_roundtrip_witness :
  let tmpl := LLMessageTemplate.new "ChatFromViewer" 80 true in
  let sender := sample_system sample_platform in
  let receiver :=
    LLMessageSystem.setHandlerFuncs "ChatFromViewer" [0%nat; 1%nat]
      (sample_system sample_platform) in
  let datagram :=
    LLMessageSystem.mSendBuffer
      (LLMessageSystem.addAllData
         [("Message"%string, LLMessageSystem.bytes_of_string "hi")]
         (LLMessageSystem.newMessage "ChatFromViewer" sender).2) in
  let result :=
    LLMessageSystem.processMessage (9 * second) sim_host datagram
      (Z.of_nat (length datagram)) receiver in
  LLMessageSystem.mMessageTemplates sender !! "ChatFromViewer"%string
  = Some tmpl
  ∧ 0 ≤ LLMessageTemplate.getMessageNumber tmpl < 2 ^ 32
  ∧ LLMessageTemplate.getMessageNumber tmpl < 0xFF
  ∧ LLMessageSystem.mMessageNumbers receiver
      !! LLMessageTemplate.getMessageNumber tmpl = Some tmpl
  ∧ datagram = [1; 0; 0; 0; 0; 80; 104; 105]
  ∧ LLMessageSystem.processed result.1 = true
  ∧ LLMessageSystem.invoked result.1 = [0%nat; 1%nat]
  ∧ LLMessageSystem.buffer_after result.1 = datagram.
Proof.
  intros tmpl sender receiver datagram result.
  assert (Hname : LLMessageSystem.mMessageTemplates sender
                    !! "ChatFromViewer"%string = Some tmpl)
    by (vm_compute; reflexivity).
  assert (Hrange : 0 ≤ LLMessageTemplate.getMessageNumber tmpl < 2 ^ 32)
    by (split; [discriminate|reflexivity]).
  assert (Hone : LLMessageTemplate.getMessageNumber tmpl < 0xFF)
    by reflexivity.
  assert (Hindex : LLMessageSystem.mMessageNumbers receiver
                     !! LLMessageTemplate.getMessageNumber tmpl = Some tmpl)
    by (vm_compute; reflexivity).
  destruct (build_dispatch_roundtrip (P:=sample_platform) (9 * second)
              sim_host "ChatFromViewer"
              [("Message"%string, LLMessageSystem.bytes_of_string "hi")]
              tmpl tmpl sender receiver Hname Hrange (or_introl Hone) Hindex)
    as (Hdone & Hinvoked & Hbuffer).
  split; [exact Hname|]. split; [exact Hrange|]. split; [exact Hone|].
  split; [exact Hindex|]. split; [vm_compute; reflexivity|].
  split; [exact Hdone|]. split; [|exact Hbuffer].
  etrans; [exact Hinvoked|]. vm_compute. reflexivity.
Defined.

(** ** Sending *)

Section MessageSend.
Context {P : Platform}.
Import LLMessageSystem.

Lemma addReliablePacket_present now host id packet c (t0 : LLCircuit.t) :
  LLCircuit.findCircuit host t0 = Some c →
  LLCircuit.addReliablePacket now host id packet t0
  = LLCircuit.store host
      (LLCircuitData.addReliablePacket now id packet c) t0.
Proof.
  intros Hfind. unfold LLCircuit.addReliablePacket.
  by rewrite (findOrAddCircuit_present now host c).
Qed.

(** The circuit of [host] after [sendMessage], when it had one before. *)
Lemma sendMessage_circuit now host c (ms : LLMessageSystem.t) :
  mSendBuffer ms ≠ [] →
  LLCircuit.findCircuit host (mCircuit ms) = Some c →
  let c1 := (LLCircuitData.nextPacketOutID now c).2 in
  let id := LLCircuitData.mNextOutgoingSequence c in
  let size := Z.of_nat (length (mSendBuffer ms)) in
  let installed :=
    (checkOverflow (mThrottles ms) host size).1
    && (0 <? to_S32 size)
    && match mCurrentMessage ms with
       | Some tmpl => LLMessageTemplate.getReliable tmpl
       | None => false
       end in
  LLCircuit.findCircuit host (mCircuit (sendMessage now host ms).2)
  = Some (if installed
          then LLCircuitData.addReliablePacket now id
                 (Some (LLPacketBuffer.of_bytes (mSendBuffer ms))) c1
          else c1)
  ∧ mSendBuffer (sendMessage now host ms).2 = mSendBuffer ms
  ∧ mCurrentMessage (sendMessage now host ms).2 = mCurrentMessage ms.
Proof.
  intros Hbuf Hfind. cbn zeta. unfold sendMessage.
  destruct (mSendBuffer ms) as [|b buf] eqn:Hb; [done|].
  rewrite (nextPacketID_present now host c) by done.
  assert (Hstored : ∀ c1 t1,
            LLCircuit.findCircuit host (LLCircuit.store host c1 t1) = Some c1).
  { intros c1 t1. by rewrite findCircuit_store, decide_True. }
  destruct (checkOverflow _ _ _) as [[|] throttles1]; cbn [fst negb andb];
    [|cbn [snd set_out mCircuit mSendBuffer mCurrentMessage];
      by rewrite Hstored, Hb].
  unfold sendUDP.
  destruct (0 <? to_S32 _); cbn [snd andb];
    [|cbn [set_out mCircuit mSendBuffer mCurrentMessage];
      by rewrite Hstored, Hb].
  destruct (mCurrentMessage ms) as [tmpl|] eqn:Hcur;
    cbn [set_out mCircuit mSendBuffer mCurrentMessage];
    [|by rewrite Hstored, Hb, Hcur].
  destruct (LLMessageTemplate.getReliable tmpl);
    [|by rewrite Hstored, Hb, Hcur].
  rewrite (addReliablePacket_present now host _ _
             (LLCircuitData.nextPacketOutID now c).2) by apply Hstored.
  by rewrite Hstored, Hb, Hcur.
Qed.

(** X21.  [sendMessage] takes a sequence number from the host's circuit
    whenever the send buffer is not empty, whether or not the datagram is
    then handed to the transport: the outbound counter and the circuit's
    packets-sent counter advance by one.  The send buffer and the current
    template are kept, so the same message can be sent again.  With an empty
    send buffer the call does nothing at all. *)
Theorem sendMessage_consumes_sequence (now : Z) (host : LLHost)
    (ms : LLMessageSystem.t) :
  (mSendBuffer ms = [] →
   sendMessage now host ms
   = ({| bytes_sent := 0; transmitted := [] |}, ms))
  ∧ (mSendBuffer ms ≠ [] →
     ∀ c, LLCircuit.findCircuit host (mCircuit ms) = Some c →
       ∃ c', LLCircuit.findCircuit host (mCircuit (sendMessage now host ms).2)
             = Some c'
           ∧ LLCircuitData.mNextOutgoingSequence c'
             = wrap32 (LLCircuitData.mNextOutgoingSequence c + 1)
           ∧ LLCircuitData.mPacketsOut c'
             = wrap32 (LLCircuitData.mPacketsOut c + 1)
           ∧ mSendBuffer (sendMessage now host ms).2 = mSendBuffer ms
           ∧ mCurrentMessage (sendMessage now host ms).2
             = mCurrentMessage ms).
Proof.
  split.
  - intros Hempty. unfold sendMessage. by rewrite Hempty.
  - intros Hbuf c Hfind.
    destruct (sendMessage_circuit now host c ms Hbuf Hfind)
      as (Hc & Hb & Hm).
    eexists. split; [exact Hc|]. split; [|split; [|done]].
    + by destruct (_ && _ && _).
    + by destruct (_ && _ && _).
Qed.

(** X22.  When [sendMessage] hands the datagram to the transport (the
    throttle call returned true and the size fits an [S32]), the system
    counts one more packet and [size] more bytes sent; if the current
    template is reliable, the host's circuit then holds the datagram in its
    unacked map under the sequence number just assigned, stamped with the
    time of the call and with retry count 0; otherwise the unacked map is
    unchanged. *)
Theorem sendMessage_installs_reliable (now : Z) (host : LLHost)
    (c : LLCircuitData.t) (ms : LLMessageSystem.t) :
  mSendBuffer ms ≠ [] →
  Z.of_nat (length (mSendBuffer ms)) < 2 ^ 31 →
  LLCircuit.findCircuit host (mCircuit ms) = Some c →
  (checkOverflow (mThrottles ms) host
     (Z.of_nat (length (mSendBuffer ms)))).1 = true →
  let ms' := (sendMessage now host ms).2 in
  let id := LLCircuitData.mNextOutgoingSequence c in
  mPacketsOut ms' = wrap32 (mPacketsOut ms + 1)
  ∧ mBytesOut ms'
    = wrap32 (mBytesOut ms + Z.of_nat (length (mSendBuffer ms)))
  ∧ ∃ c', LLCircuit.findCircuit host (mCircuit ms') = Some c'
        ∧ if match mCurrentMessage ms with
             | Some tmpl => LLMessageTemplate.getReliable tmpl
             | None => false
             end
          then SeqMap.find id (LLCircuitData.mUnackedPackets c')
               = Some (LLPacketBuffer.mk (mSendBuffer ms) id now 0)
          else LLCircuitData.mUnackedPackets c'
               = LLCircuitData.mUnackedPackets c.
Proof.
  intros Hbuf Hsize Hfind Hthrottle ms' id.
  assert (Hpos : (0 <? to_S32 (Z.of_nat (length (mSendBuffer ms)))) = true).
  { unfold to_S32. rewrite Z.mod_small by lia. apply Z.ltb_lt.
    destruct (mSendBuffer ms); [done|simpl; lia]. }
  destruct (sendMessage_circuit now host c ms Hbuf Hfind) as (Hc & _ & _).
  rewrite Hthrottle, Hpos in Hc. cbn [andb] in Hc.
  split; [|split].
  - subst ms'. unfold sendMessage.
    destruct (mSendBuffer ms) as [|b buf] eqn:Hb; [done|].
    destruct (LLCircuit.nextPacketID _ _ _) as [pid circuit1].
    destruct (checkOverflow _ _ _) as [o th]. simpl in Hthrottle. subst o.
    cbn [negb]. unfold sendUDP. by rewrite Hpos.
  - subst ms'. unfold sendMessage.
    destruct (mSendBuffer ms) as [|b buf] eqn:Hb; [done|].
    destruct (LLCircuit.nextPacketID _ _ _) as [pid circuit1].
    destruct (checkOverflow _ _ _) as [o th]. simpl in Hthrottle. subst o.
    cbn [negb]. unfold sendUDP. rewrite Hpos. simpl.
    unfold to_S32. rewrite Z.mod_small by (simpl length in *; lia).
    f_equal. lia.
  - eexists. split; [exact Hc|].
    destruct (match mCurrentMessage ms with
              | Some tmpl => LLMessageTemplate.getReliable tmpl
              | None => false
              end).
    + unfold LLCircuitData.addReliablePacket. cbn [LLCircuitData.mUnackedPackets].
      by rewrite find_insert_eq.
    + done.
Qed.

End MessageSend.

Lemma sendMessage_consumes_sequence_witness :
  let ms1 :=
    (LLMessageSystem.newMessage "StartPingCheck"
       (sample_system sample_platform)).2 in
  let ms2 := (LLMessageSystem.sendMessage (1 * second) sim_host ms1).2 in
  LLMessageSystem.mSendBuffer ms2 ≠ []
  ∧ ∃ c c',
      LLCircuit.findCircuit sim_host (LLMessageSystem.mCircuit ms2) = Some c
      ∧ LLCircuit.findCircuit sim_host
          (LLMessageSystem.mCircuit
             (LLMessageSystem.sendMessage (2 * second) sim_host ms2).2)
        = Some c'
      ∧ LLCircuitData.mNextOutgoingSequence c = 1
      ∧ LLCircuitData.mNextOutgoingSequence c'
        = wrap32 (LLCircuitData.mNextOutgoingSequence c + 1).
Proof.
  intros ms1 ms2.
  assert (Hbuf : LLMessageSystem.mSendBuffer ms2 ≠ [])
    by (vm_compute; discriminate).
  destruct (LLCircuit.findCircuit sim_host (LLMessageSystem.mCircuit ms2))
    as [c|] eqn:Hfind; [|vm_compute in Hfind; discriminate].
  destruct (sendMessage_consumes_sequence (P:=sample_platform) (2 * second)
              sim_host ms2) as [_ Hsend].
  destruct (Hsend Hbuf c Hfind) as (c' & Hfind' & Hnext & _).
  split; [exact Hbuf|]. exists c, c'. split; [reflexivity|].
  split; [exact Hfind'|]. split; [|exact Hnext].
  vm_compute in Hfind. by injection Hfind as <-.
Defined.

Lemma sendMessage_installs_reliable_witness :
  let ms1 :=
    (LLMessageSystem.newMessage "StartPingCheck"
       (sample_system drained_platform)).2 in
  let ms2 := (LLMessageSystem.sendMessage (1 * second) sim_host ms1).2 in
  let ms3 := (LLMessageSystem.sendMessage (2 * second) sim_host ms2).2 in
  LLMessageSystem.mSendBuffer ms2 ≠ []
  ∧ Z.of_nat (length (LLMessageSystem.mSendBuffer ms2)) < 2 ^ 31
  ∧ (checkOverflow (LLMessageSystem.mThrottles ms2) sim_host
       (Z.of_nat (length (LLMessageSystem.mSendBuffer ms2)))).1 = true
  ∧ LLMessageSystem.mPacketsOut ms3
    = wrap32 (LLMessageSystem.mPacketsOut ms2 + 1)
  ∧ ∃ c c',
      LLCircuit.findCircuit sim_host (LLMessageSystem.mCircuit ms2) = Some c
      ∧ LLCircuit.findCircuit sim_host (LLMessageSystem.mCircuit ms3)
        = Some c'
      ∧ SeqMap.find 1 (LLCircuitData.mUnackedPackets c')
        = Some (LLPacketBuffer.mk [1; 0; 0; 0; 0; 1] 1 (2 * second) 0).
Proof.
  intros ms1 ms2 ms3.
  assert (Hbuf : LLMessageSystem.mSendBuffer ms2 ≠ [])
    by (vm_compute; discriminate).
  assert (Hsize : Z.of_nat (length (LLMessageSystem.mSendBuffer ms2))
                  < 2 ^ 31) by (vm_compute; reflexivity).
  assert (Hover : (checkOverflow (LLMessageSystem.mThrottles ms2) sim_host
                     (Z.of_nat (length (LLMessageSystem.mSendBuffer ms2)))).1
                  = true) by (vm_compute; reflexivity).
  destruct (LLCircuit.findCircuit sim_host (LLMessageSystem.mCircuit ms2))
    as [c|] eqn:Hfind; [|vm_compute in Hfind; discriminate].
  destruct (sendMessage_installs_reliable (P:=drained_platform) (2 * second)
              sim_host c ms2 Hbuf Hsize Hfind Hover)
    as (Hout & _ & c' & Hfind' & Hunacked).
  split; [exact Hbuf|]. split; [exact Hsize|]. split; [exact Hover|].
  split; [exact Hout|]. exists c, c'. split; [reflexivity|].
  split; [exact Hfind'|].
  assert (Hc : LLCircuitData.mNextOutgoingSequence c = 1).
  { vm_compute in Hfind. by injection Hfind as <-. }
  rewrite Hc in Hunacked. exact Hunacked.
Defined.

(** ** The wire image, handlers and the receive pass *)

Section MessageReceive.
Context {P : Platform}.
Import LLMessageSystem.

Lemma transmitted_cases now host (ms : LLMessageSystem.t) :
  transmitted (sendMessage now host ms).1 = []
  ∨ transmitted (sendMessage now host ms).1 = [(host, mSendBuffer ms)].
Proof.
  unfold sendMessage. destruct (mSendBuffer ms) as [|b buf]; [by left|].
  destruct (LLCircuit.nextPacketID _ _ _) as [pid circuit1].
  destruct (checkOverflow _ _ _) as [[|] th]; cbn [negb]; [|by left].
  right. by destruct (0 <? _).
Qed.

(** X23.  The sequence number is never written into the datagram.  Whatever
    number the circuit assigns, a message started with [newMessage] leaves
    [sendMessage] exactly as it stands in the send buffer, and the four
    bytes of its sequence field are zero. *)
Theorem wire_sequence_field_is_zero (now : Z) (host : LLHost)
    (msgname : string) (fields : list (string * list Z))
    (ms0 : LLMessageSystem.t) :
  (newMessage msgname ms0).1 = true →
  let ms := addAllData fields (newMessage msgname ms0).2 in
  ∀ d, d ∈ transmitted (sendMessage now host ms).1 →
    d = (host, mSendBuffer ms) ∧ read_U32 d.2 1 = 0.
Proof.
  intros Hnew ms d Hd.
  assert (Hhead : ∃ flags rest, mSendBuffer ms = flags :: 0 :: 0 :: 0 :: 0 :: rest).
  { subst ms. destruct (addAllData_buffer fields (newMessage msgname ms0).2)
      as (-> & _).
    unfold newMessage in *.
    destruct (mMessageTemplates ms0 !! msgname) as [tmpl|] eqn:Htmpl;
      [|done].
    destruct (addMessageHeader_layout msgname ms0 tmpl Htmpl)
      as (flags & Hheader & _). simpl. rewrite Hheader.
    by eexists _, _. }
  destruct Hhead as (flags & rest & Hbuffer).
  destruct (transmitted_cases now host ms) as [Hnone|Hone].
  - rewrite Hnone in Hd. by apply elem_of_nil in Hd.
  - rewrite Hone in Hd. apply list_elem_of_singleton in Hd as ->.
    split; [done|]. simpl. by rewrite Hbuffer.
Qed.

Lemma setHandlerFuncs_facts msgname handlers : ∀ ms : LLMessageSystem.t,
  mMessageNumbers (setHandlerFuncs msgname handlers ms) = mMessageNumbers ms
  ∧ mCircuit (setHandlerFuncs msgname handlers ms) = mCircuit ms
  ∧ ∀ name,
      default [] (mHandlerMap (setHandlerFuncs msgname handlers ms) !! name)
      = if decide (msgname = name)
        then default [] (mHandlerMap ms !! name) ++ handlers
        else default [] (mHandlerMap ms !! name).
Proof.
  unfold setHandlerFuncs.
  induction handlers as [|h handlers IH]; intros ms; simpl.
  - split; [done|]. split; [done|]. intros name.
    destruct (decide _); [by rewrite app_nil_r|done].
  - destruct (IH (setHandlerFunc msgname h ms)) as (-> & -> & Hmap).
    split; [done|]. split; [done|]. intros name. rewrite Hmap.
    unfold setHandlerFunc. simpl.
    destruct (decide (msgname = name)) as [->|Hne].
    + rewrite lookup_insert_eq. simpl. by rewrite <- app_assoc.
    + by rewrite lookup_insert_ne.
Qed.

(** X24.  Handlers are kept per message name, in registration order.
    After registering some handlers under one name, a datagram of that name
    is dispatched to the handlers that were registered before, followed by
    the new ones in the order of registration; a datagram of any other name
    is dispatched exactly as before. *)
Theorem handlers_per_name_in_order (now : Z) (sender : LLHost)
    (buffer : list Z) (size : Z) (msgname : string)
    (handlers : list HandlerId) (tmpl : LLMessageTemplate.t)
    (ms : LLMessageSystem.t) :
  6 ≤ size →
  mMessageNumbers ms !! (decode_msgnum buffer).1 = Some tmpl →
  invoked
    (processMessage now sender buffer size
       (setHandlerFuncs msgname handlers ms)).1
  = if decide (msgname = LLMessageTemplate.getName tmpl)
    then invoked (processMessage now sender buffer size ms).1 ++ handlers
    else invoked (processMessage now sender buffer size ms).1.
Proof.
  intros Hsize Htmpl.
  destruct (setHandlerFuncs_facts msgname handlers ms) as (Hnum & _ & Hmap).
  unfold processMessage.
  destruct (Z.ltb_spec size 6) as [?|_]; [lia|].
  destruct (decode_msgnum buffer) as [msgnum offset]. simpl in Htmpl.
  rewrite Hnum, Htmpl. cbn [fst invoked]. apply Hmap.
Qed.

(** X25.  [addU32] appends the four bytes of the value, low byte first:
    the buffer grows by 4, what was in it stays in front, and reading a
    [U32] at the old end of the buffer gives the value back. *)
Theorem addU32_read_back (varname : string) (value : Z)
    (ms : LLMessageSystem.t) :
  0 ≤ value < 2 ^ 32 →
  let old := mSendBuffer ms in
  let new := mSendBuffer (addU32 varname value ms) in
  length new = (length old + 4)%nat
  ∧ take (length old) new = old
  ∧ read_U32 new (Z.of_nat (length old)) = value.
Proof.
  intros Hvalue old new. subst old new. unfold addU32, addVariableData.
  cbn [set_send mSendBuffer].
  split; [by rewrite length_app|]. split; [by rewrite take_app_length|].
  rewrite <- (app_nil_r (U32_bytes value)). by apply read_U32_bytes.
Qed.

Lemma processMessage_frame now sender buffer size (ms : LLMessageSystem.t) :
  let ms' := (processMessage now sender buffer size ms).2 in
  mPacketsIn ms' = mPacketsIn ms ∧ mBytesIn ms' = mBytesIn ms
  ∧ mHandlerMap ms' = mHandlerMap ms
  ∧ mMessageSystemRunning ms' = mMessageSystemRunning ms
  ∧ LLCircuit.mAllowTimeout (mCircuit ms')
    = LLCircuit.mAllowTimeout (mCircuit ms).
Proof.
  unfold processMessage. destruct (size <? 6); [done|].
  destruct (decode_msgnum buffer) as [msgnum offset].
  destruct (mMessageNumbers ms !! msgnum); [|done].
  cbn [snd set_out mPacketsIn mBytesIn mHandlerMap mMessageSystemRunning
       mCircuit].
  repeat split. destruct (negb _); [|done].
  unfold LLCircuit.addReliablePacket.
  destruct (findOrAddCircuit_cases now sender (mCircuit ms))
    as [(c & _ & ->)|[(_ & _ & ->)|(_ & _ & ->)]]; done.
Qed.

Lemma receiveLoop_counts now deliveries : ∀ ms : LLMessageSystem.t,
  Forall (λ d : Delivery, 0 < d.2) deliveries →
  let ms' := (receiveLoop now deliveries ms).2 in
  mPacketsIn ms'
  = Nat.iter (length deliveries) LLCircuitData.u32_incr (mPacketsIn ms)
  ∧ mBytesIn ms'
    = foldl (λ acc (d : Delivery), wrap32 (acc + d.2)) (mBytesIn ms)
        deliveries
  ∧ mHandlerMap ms' = mHandlerMap ms
  ∧ LLCircuit.mAllowTimeout (mCircuit ms')
    = LLCircuit.mAllowTimeout (mCircuit ms).
Proof.
  induction deliveries as [|[[sender buffer] n] deliveries IH];
    intros ms Hpos; [done|].
  apply Forall_cons in Hpos as [Hn Hpos]. simpl in Hn.
  cbn [receiveLoop].
  destruct (Z.leb_spec n 0) as [?|_]; [lia|].
  set (ms1 := set_received _ _ _ _ _).
  pose proof (processMessage_frame now sender buffer n ms1)
    as (Hin & Hbytes & Hmap & _ & Hallow).
  destruct (processMessage now sender buffer n ms1) as [result ms2].
  cbn [snd] in *.
  specialize (IH ms2 Hpos).
  destruct (receiveLoop now deliveries ms2) as [later ms3].
  cbn [snd length foldl] in *.
  destruct IH as (-> & -> & -> & ->).
  rewrite Hin, Hbytes, Hmap, Hallow. subst ms1. simpl.
  split; [|done].
  change (wrap32 (mPacketsIn ms + 1))
    with (LLCircuitData.u32_incr (mPacketsIn ms)).
  by rewrite <- Nat.iter_succ_r.
Qed.

(** X26.  The receive pass.  A stopped system does nothing.  A running
    system counts every datagram the transport delivers, and its bytes,
    whether or not [processMessage] accepts it, keeps the handler table,
    and ends with the timeout sweep: when timeouts are allowed, every
    circuit left in the table is alive.  With the transport of the source,
    which never delivers, no handler is invoked and the receive counters
    stay as they are. *)
Theorem checkMessages_counts_and_sweeps (now : Z)
    (deliveries : list Delivery) (ms : LLMessageSystem.t) :
  (mMessageSystemRunning ms = false →
   checkMessagesFrom now deliveries ms = (false, [], ms))
  ∧ (mMessageSystemRunning ms = true →
     Forall (λ d : Delivery, 0 < d.2) deliveries →
     (checkMessagesFrom now deliveries ms).1.1 = true
     ∧ mPacketsIn (checkMessagesFrom now deliveries ms).2
       = Nat.iter (length deliveries) LLCircuitData.u32_incr (mPacketsIn ms)
     ∧ mBytesIn (checkMessagesFrom now deliveries ms).2
       = foldl (λ acc (d : Delivery), wrap32 (acc + d.2)) (mBytesIn ms)
           deliveries
     ∧ mHandlerMap (checkMessagesFrom now deliveries ms).2 = mHandlerMap ms
     ∧ (LLCircuit.mAllowTimeout (mCircuit ms) = true →
        ∀ h c,
          LLCircuit.findCircuit h
            (mCircuit (checkMessagesFrom now deliveries ms).2) = Some c →
          LLCircuitData.isAlive c = true))
  ∧ (mMessageSystemRunning ms = true →
     (checkMessages now ms).1 = (true, [])
     ∧ mPacketsIn (checkMessages now ms).2 = mPacketsIn ms
     ∧ mBytesIn (checkMessages now ms).2 = mBytesIn ms).
Proof.
  unfold checkMessages, checkMessagesFrom. split; [|split].
  - intros Hoff. by rewrite Hoff.
  - intros Hon Hpos. rewrite Hon. cbn [negb].
    pose proof (receiveLoop_counts now deliveries ms Hpos)
      as (Hin & Hbytes & Hmap & Hallow).
    destruct (receiveLoop now deliveries ms) as [handlers ms1].
    cbn [fst snd set_out mPacketsIn mBytesIn mHandlerMap mCircuit] in *.
    split; [done|]. split; [done|]. split; [done|]. split; [done|].
    intros Hallowed h c.
    unfold LLCircuit.checkForTimeouts, LLCircuit.findCircuit.
    rewrite Hallow, Hallowed. simpl.
    rewrite map_lookup_filter_Some. by intros [_ ?].
  - intros Hon. rewrite Hon. by simpl.
Qed.

End MessageReceive.

Lemma wire_sequence_field_is_zero_witness :
  let ms0 := sample_system drained_platform in
  let ms :=
    LLMessageSystem.addAllData [("PingID"%string, [7])]
      (LLMessageSystem.newMessage "StartPingCheck" ms0).2 in
  let d : LLHost * list Z := (sim_host, [1; 0; 0; 0; 0; 1; 7]) in
  (LLMessageSystem.newMessage "StartPingCheck" ms0).1 = true
  ∧ d ∈ LLMessageSystem.transmitted
          (LLMessageSystem.sendMessage (1 * second) sim_host ms).1
  ∧ read_U32 d.2 1 = 0.
Proof.
  intros ms0 ms d.
  assert (Hnew : (LLMessageSystem.newMessage "StartPingCheck" ms0).1 = true)
    by (vm_compute; reflexivity).
  assert (Hsent : LLMessageSystem.transmitted
                    (LLMessageSystem.sendMessage (1 * second) sim_host ms).1
                  = [d]) by (vm_compute; reflexivity).
  assert (Hin : d ∈ LLMessageSystem.transmitted
                      (LLMessageSystem.sendMessage (1 * second) sim_host
                         ms).1).
  { rewrite Hsent. apply list_elem_of_here. }
  destruct (wire_sequence_field_is_zero (P:=drained_platform) (1 * second)
              sim_host "StartPingCheck" [("PingID"%string, [7])] ms0 Hnew
              d Hin) as [_ Hzero].
  split; [exact Hnew|]. split; [exact Hin|exact Hzero].
Defined.

Lemma handlers_per_name_in_order_witness :
  let tmpl := LLMessageTemplate.new "ChatFromSimulator" 81 false in
  let ms :=
    LLMessageSystem.setHandlerFuncs "ChatFromSimulator" [0%nat]
      (sample_system sample_platform) in
  6 ≤ 6
  ∧ LLMessageSystem.mMessageNumbers ms !! (decode_msgnum chat_datagram).1
    = Some tmpl
  ∧ LLMessageSystem.invoked
      (LLMessageSystem.processMessage (9 * second) sim_host chat_datagram 6
         (LLMessageSystem.setHandlerFuncs "ChatFromSimulator"
            [1%nat; 2%nat] ms)).1
    = [0%nat; 1%nat; 2%nat]
  ∧ LLMessageSystem.invoked
      (LLMessageSystem.processMessage (9 * second) sim_host chat_datagram 6
         (LLMessageSystem.setHandlerFuncs "ChatFromViewer"
            [1%nat; 2%nat] ms)).1
    = [0%nat].
Proof.
  intros tmpl ms.
  assert (Hsize : 6 ≤ 6) by discriminate.
  assert (Hindex : LLMessageSystem.mMessageNumbers ms
                     !! (decode_msgnum chat_datagram).1 = Some tmpl)
    by (vm_compute; reflexivity).
  pose proof (handlers_per_name_in_order (P:=sample_platform) (9 * second)
                sim_host chat_datagram 6 "ChatFromSimulator"
                [1%nat; 2%nat] tmpl ms Hsize Hindex) as Hsame.
  pose proof (handlers_per_name_in_order (P:=sample_platform) (9 * second)
                sim_host chat_datagram 6 "ChatFromViewer"
                [1%nat; 2%nat] tmpl ms Hsize Hindex) as Hother.
  split; [exact Hsize|]. split; [exact Hindex|]. split.
  - etrans; [exact Hsame|]. vm_compute. reflexivity.
  - etrans; [exact Hother|]. vm_compute. reflexivity.
Defined.

Lemma addU32_read_back_witness :
  let ms :=
    (LLMessageSystem.newMessage "StartPingCheck"
       (sample_system sample_platform)).2 in
  let new :=
    LLMessageSystem.mSendBuffer
      (LLMessageSystem.addU32 "PingID" 0x12345678 ms) in
  0 ≤ 0x12345678 < 2 ^ 32
  ∧ length (LLMessageSystem.mSendBuffer ms) = 6%nat
  ∧ new = [1; 0; 0; 0; 0; 1; 0x78; 0x56; 0x34; 0x12]
  ∧ read_U32 new (Z.of_nat (length (LLMessageSystem.mSendBuffer ms)))
    = 0x12345678.
Proof.
  intros ms new.
  assert (Hrange : 0 ≤ 0x12345678 < 2 ^ 32)
    by (split; [discriminate|reflexivity]).
  destruct (addU32_read_back (P:=sample_platform) "PingID" 0x12345678 ms
              Hrange) as (_ & _ & Hread).
  split; [exact Hrange|]. split; [vm_compute; reflexivity|].
  split; [vm_compute; reflexivity|exact Hread].
Defined.

Lemma checkMessages_counts_and_sweeps_witness :
  let ms := sample_system sample_platform in
  let deliveries : list LLMessageSystem.Delivery :=
    [(sim_host, reliable_datagram, 6); (sim_host, [1; 2], 2)] in
  let result :=
    LLMessageSystem.checkMessagesFrom (9 * second) deliveries ms in
  LLMessageSystem.mMessageSystemRunning ms = true
  ∧ Forall (λ d : LLMessageSystem.Delivery, 0 < d.2) deliveries
  ∧ result.1.1 = true
  ∧ LLMessageSystem.mPacketsIn result.2 = 2
  ∧ LLMessageSystem.mBytesIn result.2 = 8
  ∧ LLMessageSystem.checkMessagesFrom (9 * second) deliveries
      (LLMessageSystem.stopMessageSystem ms)
    = (false, [], LLMessageSystem.stopMessageSystem ms).
Proof.
  intros ms deliveries result.
  assert (Hrun : LLMessageSystem.mMessageSystemRunning ms = true)
    by reflexivity.
  assert (Hpos : Forall (λ d : LLMessageSystem.Delivery, 0 < d.2) deliveries)
    by (repeat constructor).
  destruct (checkMessages_counts_and_sweeps (P:=sample_platform) (9 * second)
              deliveries ms) as (_ & Hrunning & _).
  destruct (Hrunning Hrun Hpos) as (Htrue & Hpackets & Hbytes & _).
  destruct (checkMessages_counts_and_sweeps (P:=sample_platform) (9 * second)
              deliveries (LLMessageSystem.stopMessageSystem ms))
    as (Hstopped & _).
  split; [exact Hrun|]. split; [exact Hpos|]. split; [exact Htrue|].
  split; [etrans; [exact Hpackets|vm_compute; reflexivity]|].
  split; [etrans; [exact Hbytes|vm_compute; reflexivity]|].
  apply Hstopped. reflexivity.
Defined.

(** ** Circuit statistics *)

Lemma iter_u32_incr_small (n : nat) (x : Z) :
  0 ≤ x → x + Z.of_nat n < 2 ^ 32 →
  Nat.iter n LLCircuitData.u32_incr x = x + Z.of_nat n.
Proof.
  intros Hx. induction n as [|n IH]; intros Hn.
  - simpl. lia.
  - rewrite Nat.iter_succ, IH by lia. unfold LLCircuitData.u32_incr.
    rewrite wrap32_small by lia. lia.
Qed.

Lemma foldl_wrap32_sum {A} (f : A → Z) (l : list A) (a : Z) :
  0 ≤ a < 2 ^ 32 →
  foldl (λ s x, wrap32 (s + f x)) a l
  = wrap32 (a + foldr Z.add 0 (f <$> l)).
Proof.
  revert a. induction l as [|x l IH]; intros a Ha.
  - simpl. rewrite Z.add_0_r. symmetry. by apply wrap32_small.
  - rewrite fmap_cons. cbn [foldl foldr].
    rewrite IH by (unfold wrap32; apply Z.mod_pos_bound; done).
    unfold wrap32. rewrite Zplus_mod_idemp_l. f_equal. lia.
Qed.

Lemma foldl_wrap64_sum {A} (f : A → Z) (l : list A) (a : Z) :
  0 ≤ a < 2 ^ 64 →
  foldl (λ s x, wrap64 (s + f x)) a l
  = wrap64 (a + foldr Z.add 0 (f <$> l)).
Proof.
  revert a. induction l as [|x l IH]; intros a Ha.
  - simpl. rewrite Z.add_0_r. symmetry. unfold wrap64.
    by apply Z.mod_small.
  - rewrite fmap_cons. cbn [foldl foldr].
    rewrite IH by (unfold wrap64; apply Z.mod_pos_bound; done).
    unfold wrap64. rewrite Zplus_mod_idemp_l. f_equal. lia.
Qed.

Lemma foldl_count_iter {A} (p : A → bool) (l : list A) (a : Z) :
  foldl (λ s x, if p x then wrap32 (s + 1) else s) a l
  = Nat.iter (length (filter (λ x, p x = true) l)) LLCircuitData.u32_incr a.
Proof.
  revert a. induction l as [|x l IH]; intros a; [done|].
  simpl. rewrite IH. destruct (p x) eqn:Hp.
  - rewrite filter_cons_True by done. simpl length.
    by rewrite Nat.iter_succ_r.
  - rewrite filter_cons_False by congruence. done.
Qed.

Lemma filter_Forall_id {A} (p : A → Prop) `{!∀ x, Decision (p x)}
    (l : list A) :
  Forall p l → filter p l = l.
Proof.
  induction 1 as [|x l Hx _ IH]; [done|].
  by rewrite filter_cons_True, IH.
Qed.

Section CircuitStatistics.
Context {P : Platform} {SP : StatsPlatform P}.
Import LLCircuit.

Lemma stats_loop (l : list LLCircuitData.t) (a : StatsLoop) :
  let a' := foldl stats_step a l in
  total_circuits (loop_stats a') = total_circuits (loop_stats a)
  ∧ average_ping (loop_stats a') = average_ping (loop_stats a)
  ∧ alive_circuits (loop_stats a')
    = foldl (λ s c, if LLCircuitData.isAlive c then wrap32 (s + 1) else s)
        (alive_circuits (loop_stats a)) l
  ∧ blocked_circuits (loop_stats a')
    = foldl (λ s c, if LLCircuitData.isBlocked c then wrap32 (s + 1) else s)
        (blocked_circuits (loop_stats a)) l
  ∧ total_packets_out (loop_stats a')
    = foldl (λ s c, wrap32 (s + LLCircuitData.mPacketsOut c))
        (total_packets_out (loop_stats a)) l
  ∧ total_packets_in (loop_stats a')
    = foldl (λ s c, wrap32 (s + LLCircuitData.mPacketsIn c))
        (total_packets_in (loop_stats a)) l
  ∧ total_packets_lost (loop_stats a')
    = foldl (λ s c, wrap32 (s + LLCircuitData.mPacketsLost c))
        (total_packets_lost (loop_stats a)) l
  ∧ total_unacked (loop_stats a')
    = foldl (λ s c, wrap64 (s + LLCircuitData.getUnackedPacketCount c))
        (total_unacked (loop_stats a)) l
  ∧ ping_count a'
    = foldl (λ s c,
        if f32_gtb (LLCircuitData.mPingDelayAveraged c) (f32_of_Z 0)
        then wrap32 (s + 1) else s) (ping_count a) l.
Proof.
  revert a. induction l as [|c l IH]; intros a; [done|].
  cbn zeta. cbn [foldl]. specialize (IH (stats_step a c)). cbn zeta in IH.
  destruct IH as (H1 & H2 & H3 & H4 & H5 & H6 & H7 & H8 & H9).
  rewrite H1, H2, H3, H4, H5, H6, H7, H8, H9. done.
Qed.

Lemma length_circuits (t0 : LLCircuit.t) :
  Z.of_nat (length ((snd <$> map_to_list (mCircuitData t0))
                      : list LLCircuitData.t))
  = getNumCircuits t0.
Proof.
  unfold getNumCircuits. by rewrite length_fmap, length_map_to_list.
Qed.

Lemma getGlobalStats_counts (t0 : LLCircuit.t) (p : LLCircuitData.t → bool) :
  getNumCircuits t0 < 2 ^ 32 →
  wrap32 (getNumCircuits t0) = getNumCircuits t0
  ∧ foldl (λ s c, if p c then wrap32 (s + 1) else s) 0
      (snd <$> map_to_list (mCircuitData t0))
    = Z.of_nat
        (length (filter (λ c, p c = true)
                   (snd <$> map_to_list (mCircuitData t0))))
  ∧ Z.of_nat
      (length (filter (λ c, p c = true)
                 (snd <$> map_to_list (mCircuitData t0))))
    ≤ getNumCircuits t0.
Proof.
  intros Hsize.
  assert (Hn : 0 ≤ getNumCircuits t0) by (unfold getNumCircuits; lia).
  assert (Hfilter :
    Z.of_nat (length (filter (λ c, p c = true)
                        (snd <$> map_to_list (mCircuitData t0))))
    ≤ getNumCircuits t0).
  { rewrite <- (length_circuits t0). apply inj_le, length_filter. }
  split; [by apply wrap32_small|]. split; [|done].
  rewrite foldl_count_iter, iter_u32_incr_small by lia. lia.
Qed.

(** X27.  The statistics of [getGlobalStats] for a table of fewer than 2^32
    circuits: the number of circuits, the numbers of alive and of blocked
    circuits (neither exceeds the number of circuits), and the sums of the
    circuits' packets sent, received and lost (modulo 2^32) and of their
    unacked packets (modulo 2^64).  When no circuit has a positive averaged
    ping, the average ping is 0 and nothing is divided. *)
Theorem getGlobalStats_totals (t0 : LLCircuit.t) :
  getNumCircuits t0 < 2 ^ 32 →
  let stats := getGlobalStats t0 in
  let circuits : list LLCircuitData.t :=
    snd <$> map_to_list (mCircuitData t0) in
  total_circuits stats = getNumCircuits t0
  ∧ alive_circuits stats
    = Z.of_nat
        (length (filter (λ c, LLCircuitData.isAlive c = true) circuits))
  ∧ blocked_circuits stats
    = Z.of_nat
        (length (filter (λ c, LLCircuitData.isBlocked c = true) circuits))
  ∧ alive_circuits stats ≤ total_circuits stats
  ∧ blocked_circuits stats ≤ total_circuits stats
  ∧ total_packets_out stats
    = wrap32 (foldr Z.add 0 (LLCircuitData.mPacketsOut <$> circuits))
  ∧ total_packets_in stats
    = wrap32 (foldr Z.add 0 (LLCircuitData.mPacketsIn <$> circuits))
  ∧ total_packets_lost stats
    = wrap32 (foldr Z.add 0 (LLCircuitData.mPacketsLost <$> circuits))
  ∧ total_unacked stats
    = wrap64
        (foldr Z.add 0 (LLCircuitData.getUnackedPacketCount <$> circuits))
  ∧ ((∀ c, c ∈ circuits →
        f32_gtb (LLCircuitData.mPingDelayAveraged c) (f32_of_Z 0) = false) →
     average_ping stats = f32_of_Z 0).
Proof.
  intros Hsize stats circuits.
  destruct (getGlobalStats_counts t0 LLCircuitData.isAlive Hsize)
    as (Htot & Ha & Hale).
  destruct (getGlobalStats_counts t0 LLCircuitData.isBlocked Hsize)
    as (_ & Hb & Hble).
  fold circuits in Ha, Hb, Hale, Hble.
  subst stats. unfold getGlobalStats, getGlobalStatsIn. fold circuits.
  cbn zeta.
  match goal with |- context [foldl stats_step ?a circuits] =>
    destruct (stats_loop circuits a)
      as (H1 & H2 & H3 & H4 & H5 & H6 & H7 & H8 & H9)
  end.
  cbn [total_circuits alive_circuits blocked_circuits total_packets_out
       total_packets_in total_packets_lost total_unacked average_ping].
  rewrite H1, H2, H3, H4, H5, H6, H7, H8, H9.
  cbn [loop_stats total_circuits alive_circuits blocked_circuits
       total_packets_out total_packets_in total_packets_lost total_unacked
       average_ping ping_count] in *.
  rewrite Htot, Ha, Hb.
  rewrite !foldl_wrap32_sum by lia. rewrite foldl_wrap64_sum by lia.
  rewrite !Z.add_0_l.
  repeat split; try done.
  intros Hping.
  assert (Hcount : foldl (λ s c,
        if f32_gtb (LLCircuitData.mPingDelayAveraged c) (f32_of_Z 0)
        then wrap32 (s + 1) else s) 0 circuits = 0).
  { clear -Hping. induction circuits as [|c l IH]; [done|].
    simpl. rewrite Hping by apply list_elem_of_here.
    apply IH. intros c' Hc'. apply Hping. by apply list_elem_of_further. }
  by rewrite Hcount.
Qed.

(** X28.  Right after a timeout sweep with timeouts allowed, the statistics
    count every circuit of the table as alive, and no more circuits than
    before the sweep. *)
Theorem getGlobalStats_after_sweep (now : Z) (t0 : LLCircuit.t) :
  mAllowTimeout t0 = true →
  getNumCircuits t0 < 2 ^ 32 →
  let stats := getGlobalStats (checkForTimeouts now t0) in
  alive_circuits stats = total_circuits stats
  ∧ total_circuits stats ≤ getNumCircuits t0.
Proof.
  intros Hallow Hsize stats.
  set (t1 := checkForTimeouts now t0).
  assert (Hle : getNumCircuits t1 ≤ getNumCircuits t0).
  { subst t1. unfold checkForTimeouts, getNumCircuits. rewrite Hallow.
    simpl. apply inj_le.
    etrans; [apply map_size_filter|]. by rewrite map_size_fmap. }
  destruct (getGlobalStats_counts t1 LLCircuitData.isAlive)
    as (Htot & Ha & _); [lia|].
  subst stats. fold t1. unfold getGlobalStats, getGlobalStatsIn.
  cbn zeta.
  match goal with |- context [foldl stats_step ?a ?l] =>
    destruct (stats_loop l a) as (H1 & _ & H3 & _)
  end.
  cbn [total_circuits alive_circuits].
  rewrite H1, H3.
  cbn [loop_stats total_circuits alive_circuits].
  rewrite Htot, Ha. split; [|done].
  rewrite <- (length_circuits t1). f_equal. f_equal.
  apply filter_Forall_id. apply Forall_fmap, Forall_forall.
  intros [h c] Hin. apply elem_of_map_to_list in Hin.
  subst t1. unfold checkForTimeouts in Hin. rewrite Hallow in Hin.
  simpl in Hin. apply map_lookup_filter_Some in Hin as [_ Halive]. done.
Qed.

End CircuitStatistics.

Lemma getGlobalStats_totals_witness :
  let t0 :=
    LLCircuit.store ("10.0.0.1"%string, 1)
      (LLCircuitData.new 0 ("10.0.0.1"%string, 1))
      (LLCircuit.store sim_host sample_circuit LLCircuit.new) in
  let stats := LLCircuit.getGlobalStats (SP:=sample_stats) t0 in
  LLCircuit.getNumCircuits t0 < 2 ^ 32
  ∧ LLCircuit.total_circuits stats = 2
  ∧ LLCircuit.alive_circuits stats = 2
  ∧ LLCircuit.total_packets_out stats = 3
  ∧ LLCircuit.total_unacked stats = 3.
Proof.
  intros t0 stats.
  assert (Hsize : LLCircuit.getNumCircuits t0 < 2 ^ 32)
    by (vm_compute; reflexivity).
  destruct (getGlobalStats_totals (SP:=sample_stats) t0 Hsize)
    as (Htotal & Halive & _ & _ & _ & Hout & _ & _ & Hunacked & _).
  split; [exact Hsize|].
  split; [etrans; [exact Htotal|vm_compute; reflexivity]|].
  split; [etrans; [exact Halive|vm_compute; reflexivity]|].
  split; [etrans; [exact Hout|vm_compute; reflexivity]|].
  etrans; [exact Hunacked|vm_compute; reflexivity].
Defined.

Lemma getGlobalStats_after_sweep_witness :
  let stats :=
    LLCircuit.getGlobalStats (SP:=sample_stats)
      (LLCircuit.checkForTimeouts (9 * second) full_table) in
  LLCircuit.mAllowTimeout full_table = true
  ∧ LLCircuit.getNumCircuits full_table < 2 ^ 32
  ∧ LLCircuit.alive_circuits stats = LLCircuit.total_circuits stats.
Proof.
  intros stats.
  assert (Hallow : LLCircuit.mAllowTimeout full_table = true)
    by (vm_compute; reflexivity).
  assert (Hsize : LLCircuit.getNumCircuits full_table < 2 ^ 32)
    by (vm_compute; reflexivity).
  destruct (getGlobalStats_after_sweep (SP:=sample_stats) (9 * second)
              full_table Hallow Hsize) as [Halive _].
  split; [exact Hallow|]. split; [exact Hsize|exact Halive].
Defined.

(** ** The template indices and their pointers *)

Section TemplatePointers.
Import TemplateStore.

Lemma wf_empty : wf empty.
Proof.
  split; cbn.
  - intros n p Hn. by rewrite lookup_empty in Hn.
  - intros n n' p Hn. by rewrite lookup_empty in Hn.
  - intros p [x Hp]. by rewrite lookup_empty in Hp.
  - intros k p Hk. by rewrite lookup_empty in Hk.
Qed.

Lemma names_load name num reliable s :
  names (loadMessageTemplate name num reliable s)
  = <[name := created s]> (names s).
Proof. reflexivity. Qed.

Lemma numbers_load name num reliable s :
  numbers (loadMessageTemplate name num reliable s)
  = <[num := created s]> (numbers s).
Proof. reflexivity. Qed.

Lemma created_load name num reliable s :
  created (loadMessageTemplate name num reliable s) = S (created s).
Proof. reflexivity. Qed.

(** Reading through a pointer after a load. *)
Lemma deref_load name num reliable s p :
  wf s →
  deref (loadMessageTemplate name num reliable s) p
  = if decide (p = created s) then Some (newTemplate name num reliable)
    else if decide (names s !! name = Some p) then None
    else deref s p.
Proof.
  intros Hwf. unfold deref, loadMessageTemplate. cbn [objects].
  destruct (names s !! name) as [old|] eqn:Hold.
  - assert (Hlt : (old < created s)%nat).
    { apply (wf_objects s Hwf), (wf_owned s Hwf name). done. }
    destruct (decide (p = created s)) as [->|Hp].
    + rewrite lookup_delete_ne by lia. by rewrite lookup_insert_eq.
    + destruct (decide (Some old = Some p)) as [[= ->]|Hne].
      * by rewrite lookup_delete_eq.
      * rewrite lookup_delete_ne by congruence.
        by rewrite lookup_insert_ne.
  - destruct (decide (p = created s)) as [->|Hp].
    + by rewrite lookup_insert_eq.
    + rewrite decide_False by done. by rewrite lookup_insert_ne.
Qed.

Lemma load_wf name num reliable s :
  wf s → wf (loadMessageTemplate name num reliable s).
Proof.
  intros Hwf.
  assert (Hderef := deref_load name num reliable s).
  unfold deref in Hderef.
  split.
  - intros n p. rewrite names_load. intros Hn. rewrite Hderef by done.
    apply lookup_insert_Some in Hn as [[<- <-]|[Hne Hn]].
    + by rewrite decide_True.
    + assert (Hlt : (p < created s)%nat).
      { apply (wf_objects s Hwf), (wf_owned s Hwf n). done. }
      rewrite decide_False by lia.
      rewrite decide_False.
      * by apply (wf_owned s Hwf n).
      * intros Hname. apply Hne. by apply (wf_unique s Hwf name n p).
  - intros n n' p. rewrite names_load. intros Hn Hn'.
    apply lookup_insert_Some in Hn as [[<- <-]|[Hne Hn]];
      apply lookup_insert_Some in Hn' as [[<- Hp]|[Hne' Hn']]; try done.
    + assert (Hlt : (created s < created s)%nat); [|lia].
      apply (wf_objects s Hwf), (wf_owned s Hwf n'). done.
    + assert (Hlt : (p < created s)%nat); [|lia].
      apply (wf_objects s Hwf), (wf_owned s Hwf n). done.
    + by apply (wf_unique s Hwf n n' p).
  - intros p. rewrite Hderef by done. rewrite created_load. intros Hlive.
    repeat case_decide.
    + lia.
    + by apply is_Some_None in Hlive.
    + pose proof (wf_objects s Hwf p Hlive). lia.
  - intros k p. rewrite numbers_load, created_load. intros Hk.
    apply lookup_insert_Some in Hk as [[_ <-]|[_ Hk]]; [lia|].
    pose proof (wf_numbers s Hwf k p Hk). lia.
Qed.

Lemma load_name_index name num reliable s :
  wf s →
  name_index (loadMessageTemplate name num reliable s)
  = <[name := newTemplate name num reliable]> (name_index s).
Proof.
  intros Hwf. apply map_eq. intros n. unfold name_index.
  rewrite lookup_omap.
  destruct (decide (n = name)) as [->|Hne].
  - rewrite lookup_insert_eq, names_load, lookup_insert_eq.
    cbn [mbind option_bind]. rewrite deref_load by done.
    by rewrite decide_True.
  - rewrite lookup_insert_ne by done. rewrite lookup_omap.
    rewrite names_load, lookup_insert_ne by done.
    destruct (names s !! n) as [p|] eqn:Hn; [|done].
    cbn [mbind option_bind]. rewrite deref_load by done.
    assert (Hlt : (p < created s)%nat).
    { apply (wf_objects s Hwf), (wf_owned s Hwf n). done. }
    rewrite decide_False by lia. rewrite decide_False; [done|].
    intros Hname. apply Hne. by apply (wf_unique s Hwf n name p).
Qed.

Lemma load_number_index name num reliable s :
  wf s →
  (∀ k old, k ≠ num → names s !! name = Some old →
            numbers s !! k ≠ Some old) →
  number_index (loadMessageTemplate name num reliable s)
  = <[num := newTemplate name num reliable]> (number_index s).
Proof.
  intros Hwf Hfree. apply map_eq. intros k. unfold number_index.
  rewrite lookup_omap.
  destruct (decide (k = num)) as [->|Hne].
  - rewrite lookup_insert_eq, numbers_load, lookup_insert_eq.
    cbn [mbind option_bind]. rewrite deref_load by done.
    by rewrite decide_True.
  - rewrite lookup_insert_ne by done. rewrite lookup_omap.
    rewrite numbers_load, lookup_insert_ne by done.
    destruct (numbers s !! k) as [p|] eqn:Hk; [|done].
    cbn [mbind option_bind]. rewrite deref_load by done.
    pose proof (wf_numbers s Hwf k p Hk) as Hlt.
    rewrite decide_False by lia. rewrite decide_False; [done|].
    intros Hname. by apply (Hfree k p Hne Hname).
Qed.

(** The indices of [LLMessageSystem] hold the templates themselves. *)
Lemma loadMessageTemplate_newTemplate name num reliable idx :
  LLMessageSystem.loadMessageTemplate name num reliable idx
  = (<[name := newTemplate name num reliable]> idx.1,
     <[num := newTemplate name num reliable]> idx.2).
Proof.
  unfold LLMessageSystem.loadMessageTemplate, newTemplate.
  by destruct (String.eqb name "LoginRequest").
Qed.

Lemma load_no_dangling name num reliable s :
  wf s →
  (∀ k old, k ≠ num → names s !! name = Some old →
            numbers s !! k ≠ Some old) →
  (∀ k, ¬ dangling s k) →
  ∀ k, ¬ dangling (loadMessageTemplate name num reliable s) k.
Proof.
  intros Hwf Hfree Hnone k (p & Hk & Hp).
  rewrite deref_load in Hp by done. rewrite numbers_load in Hk.
  apply lookup_insert_Some in Hk as [[_ <-]|[Hne Hk]].
  - by rewrite decide_True in Hp.
  - pose proof (wf_numbers s Hwf k p Hk) as Hlt.
    rewrite decide_False in Hp by lia.
    destruct (decide (names s !! name = Some p)) as [Hname|_].
    + apply (Hfree k p); [congruence|done|done].
    + apply (Hnone k). by exists p.
Qed.

(** X29.  [loadMessageTemplate] on the two indices with their pointers.
    After a load the name owns a new object with the given name, opcode and
    reliability, and the number index points to that same object under the
    opcode; the name index changes at that name only, and every other
    opcode keeps its pointer.  An opcode that pointed to the object the name
    owned before is left with a pointer to a destroyed object.  When there
    is no such opcode (the name is new, or was loaded under this opcode
    only), the templates the two indices point to change exactly as the
    by-value indices of [LLMessageSystem.loadMessageTemplate] do, and no
    pointer dangles afterwards if none did before. *)
Theorem loadMessageTemplate_pointers (name : string) (num : Z)
    (reliable : bool) (s : TemplateStore.t) :
  wf s →
  let s' := loadMessageTemplate name num reliable s in
  let tmpl := newTemplate name num reliable in
  wf s'
  ∧ (∃ p, names s' !! name = Some p ∧ numbers s' !! num = Some p
        ∧ deref s' p = Some tmpl)
  ∧ LLMessageTemplate.getName tmpl = name
  ∧ LLMessageTemplate.getMessageNumber tmpl = num
  ∧ LLMessageTemplate.getReliable tmpl = reliable
  ∧ name_index s' = <[name := tmpl]> (name_index s)
  ∧ (∀ k, k ≠ num → numbers s' !! k = numbers s !! k)
  ∧ (∀ k old, k ≠ num → names s !! name = Some old →
       numbers s !! k = Some old → dangling s' k)
  ∧ ((∀ k old, k ≠ num → names s !! name = Some old →
        numbers s !! k ≠ Some old) →
     (name_index s', number_index s')
     = LLMessageSystem.loadMessageTemplate name num reliable
         (name_index s, number_index s)
     ∧ ((∀ k, ¬ dangling s k) → ∀ k, ¬ dangling s' k)).
Proof.
  intros Hwf s' tmpl.
  split; [by apply load_wf|]. split.
  { exists (created s). subst s'. rewrite names_load, numbers_load.
    rewrite !lookup_insert_eq. split; [done|]. split; [done|].
    rewrite deref_load by done. by rewrite decide_True. }
  split; [subst tmpl; unfold newTemplate;
          by destruct (String.eqb name "LoginRequest")|].
  split; [subst tmpl; unfold newTemplate;
          by destruct (String.eqb name "LoginRequest")|].
  split; [subst tmpl; unfold newTemplate;
          by destruct (String.eqb name "LoginRequest")|].
  split; [by apply load_name_index|].
  split.
  { intros k Hk. subst s'. by rewrite numbers_load, lookup_insert_ne. }
  split.
  { intros k old Hk Hname Hold. exists old. subst s'.
    rewrite numbers_load, lookup_insert_ne by done. split; [done|].
    rewrite deref_load by done.
    assert (Hlt : (old < created s)%nat) by by apply (wf_numbers s Hwf k).
    rewrite decide_False by lia. by rewrite decide_True. }
  intros Hfree. split; [|by apply load_no_dangling].
  rewrite loadMessageTemplate_newTemplate. cbn [fst snd]. subst s' tmpl.
  by rewrite load_name_index, load_number_index.
Qed.

(** The catalogue of the constructor: no name is loaded twice, so no
    object is destroyed, no pointer dangles and the indices of
    [LLMessageSystem] hold what the pointers point to. *)
Lemma initializeMessageTemplates_pointers :
  wf initializeMessageTemplates
  ∧ (∀ k, ¬ dangling initializeMessageTemplates k)
  ∧ (name_index initializeMessageTemplates,
     number_index initializeMessageTemplates)
    = LLMessageSystem.initializeMessageTemplates.
Proof.
  unfold initializeMessageTemplates, LLMessageSystem.initializeMessageTemplates.
  cbn [foldl].
  assert (Hstep : ∀ name num reliable s idx,
    (wf s ∧ (∀ k, ¬ dangling s k) ∧ (name_index s, number_index s) = idx) →
    names s !! name = None →
    wf (loadMessageTemplate name num reliable s)
    ∧ (∀ k, ¬ dangling (loadMessageTemplate name num reliable s) k)
    ∧ (name_index (loadMessageTemplate name num reliable s),
       number_index (loadMessageTemplate name num reliable s))
      = LLMessageSystem.loadMessageTemplate name num reliable idx).
  { intros name num reliable s idx (Hwf & Hnone & <-) Hfresh.
    assert (Hfree : ∀ k old, k ≠ num → names s !! name = Some old →
                      numbers s !! k ≠ Some old)
      by (intros k old _ Hname; congruence).
    split; [by apply load_wf|]. split; [by apply load_no_dangling|].
    rewrite loadMessageTemplate_newTemplate. cbn [fst snd].
    by rewrite load_name_index, load_number_index. }
  repeat (apply Hstep; [|vm_compute; reflexivity]).
  split; [apply wf_empty|]. split.
  - intros k (p & Hk & _). cbn in Hk. by rewrite lookup_empty in Hk.
  - unfold name_index, number_index. cbn [names numbers empty].
    by rewrite !omap_empty.
Qed.

End TemplatePointers.

Lemma loadMessageTemplate_pointers_witness :
  let s :=
    TemplateStore.loadMessageTemplate "ChatFromSimulator" 81 false
      TemplateStore.empty in
  let again :=
    TemplateStore.loadMessageTemplate "ChatFromSimulator" 500 false s in
  let other :=
    TemplateStore.loadMessageTemplate "ChatFromViewer" 80 true s in
  TemplateStore.wf s
  ∧ TemplateStore.names s !! "ChatFromSimulator"%string = Some 0%nat
  ∧ TemplateStore.numbers s !! 81 = Some 0%nat
  ∧ TemplateStore.numbers again !! 81 = Some 0%nat
  ∧ TemplateStore.dangling again 81
  ∧ (TemplateStore.name_index other, TemplateStore.number_index other)
    = LLMessageSystem.loadMessageTemplate "ChatFromViewer" 80 true
        (TemplateStore.name_index s, TemplateStore.number_index s).
Proof.
  intros s again other.
  assert (Hwf : TemplateStore.wf s) by apply load_wf, wf_empty.
  assert (Hname : TemplateStore.names s !! "ChatFromSimulator"%string
                  = Some 0%nat) by (vm_compute; reflexivity).
  assert (Hnum : TemplateStore.numbers s !! 81 = Some 0%nat)
    by (vm_compute; reflexivity).
  destruct (loadMessageTemplate_pointers "ChatFromSimulator" 500 false s Hwf)
    as (_ & _ & _ & _ & _ & _ & Hkept & Hdangling & _).
  destruct (loadMessageTemplate_pointers "ChatFromViewer" 80 true s Hwf)
    as (_ & _ & _ & _ & _ & _ & _ & _ & Hrefines).
  split; [exact Hwf|]. split; [exact Hname|]. split; [exact Hnum|].
  split; [etrans; [apply (Hkept 81); discriminate|exact Hnum]|].
  split; [apply (Hdangling 81 0%nat); [discriminate|exact Hname|exact Hnum]|].
  apply Hrefines. intros k old _ Hold. vm_compute in Hold. discriminate.
Defined.

(** ** The template indices *)

Section TemplateIndex.
Context {P : Platform}.
Import LLMessageSystem.

(** X30.  The catalogue of a freshly constructed message system: every
    template of the name index stands under its own name, is the entry of
    the number index for its opcode, and has an opcode below 0xFF, the
    one-byte form of the header; [newMessage] accepts its name. *)
Theorem fresh_system_catalogue (central_host : string) (port : Z)
    (msgname : string) (tmpl : LLMessageTemplate.t) :
  mMessageTemplates (new central_host port) !! msgname = Some tmpl →
  LLMessageTemplate.getName tmpl = msgname
  ∧ mMessageNumbers (new central_host port)
      !! LLMessageTemplate.getMessageNumber tmpl = Some tmpl
  ∧ 0 ≤ LLMessageTemplate.getMessageNumber tmpl < 0xFF
  ∧ (newMessage msgname (new central_host port)).1 = true.
Proof.
  intros Hlook.
  assert (Hall : Forall (λ nt : string * LLMessageTemplate.t,
     LLMessageTemplate.getName nt.2 = nt.1
     ∧ initializeMessageTemplates.2
         !! LLMessageTemplate.getMessageNumber nt.2 = Some nt.2
     ∧ 0 ≤ LLMessageTemplate.getMessageNumber nt.2
     ∧ LLMessageTemplate.getMessageNumber nt.2 < 0xFF)
    (map_to_list initializeMessageTemplates.1)).
  { remember (map_to_list initializeMessageTemplates.1) as l eqn:Hl.
    vm_compute in Hl. subst l.
    repeat (apply Forall_cons; split;
            [split; [reflexivity|split; [vm_compute; reflexivity|
               split; [vm_compute; discriminate|vm_compute; reflexivity]]]|]).
    constructor. }
  apply elem_of_map_to_list in Hlook as Hin.
  destruct (proj1 (Forall_forall _ _) Hall _ Hin) as (H1 & H2 & H3 & H4).
  repeat split; try done.
  unfold newMessage. cbn [mMessageTemplates new] in *. by rewrite Hlook.
Qed.

End TemplateIndex.

Lemma fresh_system_catalogue_witness :
  let tmpl := LLMessageTemplate.new "ChatFromSimulator" 81 false in
  LLMessageSystem.mMessageTemplates (sample_system sample_platform)
    !! "ChatFromSimulator"%string = Some tmpl
  ∧ LLMessageSystem.mMessageNumbers (sample_system sample_platform) !! 81
    = Some tmpl
  ∧ (LLMessageSystem.newMessage "ChatFromSimulator"
       (sample_system sample_platform)).1 = true.
Proof.
  intros tmpl.
  assert (Hname : LLMessageSystem.mMessageTemplates
                    (LLMessageSystem.new (P:=sample_platform) "sim.example"
                       13000)
                    !! "ChatFromSimulator"%string = Some tmpl)
    by (vm_compute; reflexivity).
  destruct (fresh_system_catalogue (P:=sample_platform) "sim.example" 13000
              "ChatFromSimulator" tmpl Hname) as (_ & Hindex & _ & Hnew).
  split; [exact Hname|]. split; [exact Hindex|exact Hnew].
Defined.
